(** * Canvas painter: layer registry, dirty classification and paint scheduling

    A shallow embedding of [src/canvas/Painter.ts].  The painter owns a
    sorted list of z-level keys, a map from keys to layer objects and the
    per-layer bookkeeping ([__startIndex], [__endIndex], [__drawIndex],
    [__dirty], [__used]) that the classification pass and the paint pass
    share.

    Modelling conventions.
    - Layer objects are JavaScript references.  They live in a store
      ([heap]) and the registry [_layers] maps a key to a store address, so
      that [layer !== prevLayer] is a comparison of addresses and one object
      registered under two keys is one object.
    - Z-level keys are JavaScript numbers.  They are represented exactly, as
      fixed-point numbers counted in thousandths: the element z-level [z] is
      the integer [1000 * z], the increment [0.001] is [1] and [0.01] is
      [10].  Rounding of floating-point addition is outside the model.
    - Reading a property of [undefined] throws; such operations return
      [None].
    - The DOM, the drawing contexts and the rasteriser ([brush]) are
      external.  The calls that clear a layer, brush an element, refresh a
      layer of the client, composite the layers and log an error are
      recorded in a journal of events; the saves and restores of a drawing
      context around them are not.
    - The environment is a browser: [env.wxa] is false, so the flush for
      weixin applications that closes [_doPaintList] does not run. *)

From stdpp Require Import gmap strings list fin_maps sorting.
From Stdlib Require Import ZArith Lia.

Local Open Scope Z_scope.

(** ** Constants *)

Definition HOVER_LAYER_ZLEVEL : Z := 100000 * 1000.
Definition CANVAS_ZLEVEL : Z := 314159 * 1000.
Definition EL_AFTER_INCREMENTAL_INC : Z := 10.
Definition INCREMENTAL_INC : Z := 1.

(** ** Data model *)

(** Store addresses of layer objects. *)
Definition loc := nat.

(** Property values carried by a layer configuration. *)
Inductive Value :=
| VStr (s : string)
| VNum (n : Z)
| VBool (b : bool).

(** [LayerConfig]: an object of optional render hints ([clearColor],
    [motionBlur], [lastFrameAlpha]), kept as a finite map from property
    names to values. *)
Abbreviation LayerConfig := (gmap string Value).

(** The fields of a display-list element that the painter reads. *)
Record Element := mkElement {
  el_zlevel : Z;
  el_incremental : bool;
  el_notClear : bool;
  el_dirty : bool
}.

(** A layer object.  [resize_fn] and [refresh_fn] say whether
    [typeof layer.resize] and [typeof layer.refresh] are ['function'];
    [props] holds the properties written by configuration merges. *)
Record Layer := mkLayer {
  zlevel : Z;
  __builtin__ : bool;
  resize_fn : bool;
  refresh_fn : bool;
  virtual : bool;
  incremental : bool;
  __dirty : bool;
  __used : bool;
  __startIndex : Z;
  __endIndex : Z;
  __drawIndex : Z;
  props : LayerConfig
}.

(** Modelled from the spec: the constructor of [Layer] ([src/canvas/Layer.ts]
    is not among the sources).  A new layer has an empty drawable range with
    the draw index at its start, is dirty, unused and non-incremental. *)
Definition new_Layer : Layer :=
  {| zlevel := 0; __builtin__ := false; resize_fn := true; refresh_fn := true;
     virtual := false; incremental := false; __dirty := true; __used := false;
     __startIndex := 0; __endIndex := 0; __drawIndex := 0; props := ∅ |}.

Global Instance Layer_inhabited : Inhabited Layer := populate new_Layer.

(** Modelled from the spec: [Layer.getElementCount] ("still holds
    elements"), the size of the layer's drawable range. *)
Definition getElementCount (l : Layer) : Z := __endIndex l - __startIndex l.

(** Modelled from the spec: [util.merge(target, source, true)] on
    configuration objects, a shallow merge in which the source wins. *)
Definition merge (target source : LayerConfig) : LayerConfig := source ∪ target.

(** Field updates of a layer object. *)
Definition set_zlevel (v : Z) (l : Layer) : Layer :=
  {| zlevel := v; __builtin__ := __builtin__ l; resize_fn := resize_fn l;
     refresh_fn := refresh_fn l; virtual := virtual l; incremental := incremental l;
     __dirty := __dirty l; __used := __used l; __startIndex := __startIndex l;
     __endIndex := __endIndex l; __drawIndex := __drawIndex l; props := props l |}.
Definition set_builtin (v : bool) (l : Layer) : Layer :=
  {| zlevel := zlevel l; __builtin__ := v; resize_fn := resize_fn l;
     refresh_fn := refresh_fn l; virtual := virtual l; incremental := incremental l;
     __dirty := __dirty l; __used := __used l; __startIndex := __startIndex l;
     __endIndex := __endIndex l; __drawIndex := __drawIndex l; props := props l |}.
Definition set_virtual (v : bool) (l : Layer) : Layer :=
  {| zlevel := zlevel l; __builtin__ := __builtin__ l; resize_fn := resize_fn l;
     refresh_fn := refresh_fn l; virtual := v; incremental := incremental l;
     __dirty := __dirty l; __used := __used l; __startIndex := __startIndex l;
     __endIndex := __endIndex l; __drawIndex := __drawIndex l; props := props l |}.
Definition set_incremental (v : bool) (l : Layer) : Layer :=
  {| zlevel := zlevel l; __builtin__ := __builtin__ l; resize_fn := resize_fn l;
     refresh_fn := refresh_fn l; virtual := virtual l; incremental := v;
     __dirty := __dirty l; __used := __used l; __startIndex := __startIndex l;
     __endIndex := __endIndex l; __drawIndex := __drawIndex l; props := props l |}.
Definition set_dirty (v : bool) (l : Layer) : Layer :=
  {| zlevel := zlevel l; __builtin__ := __builtin__ l; resize_fn := resize_fn l;
     refresh_fn := refresh_fn l; virtual := virtual l; incremental := incremental l;
     __dirty := v; __used := __used l; __startIndex := __startIndex l;
     __endIndex := __endIndex l; __drawIndex := __drawIndex l; props := props l |}.
Definition set_used (v : bool) (l : Layer) : Layer :=
  {| zlevel := zlevel l; __builtin__ := __builtin__ l; resize_fn := resize_fn l;
     refresh_fn := refresh_fn l; virtual := virtual l; incremental := incremental l;
     __dirty := __dirty l; __used := v; __startIndex := __startIndex l;
     __endIndex := __endIndex l; __drawIndex := __drawIndex l; props := props l |}.
Definition set_startIndex (v : Z) (l : Layer) : Layer :=
  {| zlevel := zlevel l; __builtin__ := __builtin__ l; resize_fn := resize_fn l;
     refresh_fn := refresh_fn l; virtual := virtual l; incremental := incremental l;
     __dirty := __dirty l; __used := __used l; __startIndex := v;
     __endIndex := __endIndex l; __drawIndex := __drawIndex l; props := props l |}.
Definition set_endIndex (v : Z) (l : Layer) : Layer :=
  {| zlevel := zlevel l; __builtin__ := __builtin__ l; resize_fn := resize_fn l;
     refresh_fn := refresh_fn l; virtual := virtual l; incremental := incremental l;
     __dirty := __dirty l; __used := __used l; __startIndex := __startIndex l;
     __endIndex := v; __drawIndex := __drawIndex l; props := props l |}.
Definition set_drawIndex (v : Z) (l : Layer) : Layer :=
  {| zlevel := zlevel l; __builtin__ := __builtin__ l; resize_fn := resize_fn l;
     refresh_fn := refresh_fn l; virtual := virtual l; incremental := incremental l;
     __dirty := __dirty l; __used := __used l; __startIndex := __startIndex l;
     __endIndex := __endIndex l; __drawIndex := v; props := props l |}.
Definition set_props (v : LayerConfig) (l : Layer) : Layer :=
  {| zlevel := zlevel l; __builtin__ := __builtin__ l; resize_fn := resize_fn l;
     refresh_fn := refresh_fn l; virtual := virtual l; incremental := incremental l;
     __dirty := __dirty l; __used := __used l; __startIndex := __startIndex l;
     __endIndex := __endIndex l; __drawIndex := __drawIndex l; props := v |}.

(** [util.merge(layer, config, true)]: the configuration's properties are
    written onto the layer object. *)
Definition merge_layer (config : LayerConfig) (l : Layer) : Layer :=
  set_props (merge (props l) config) l.

(** The element a hover mirror was made from: whether it is still attached
    to a renderer ([__zr]) and whether it is invisible. *)
Record Original := mkOriginal {
  __zr : bool;
  invisible : bool
}.

(** A hover mirror; [__from] is [None] when the back reference is missing. *)
Record Mirror := mkMirror {
  mirror_id : nat;
  __from : option Original
}.

(** Messages of [util.logError] and [console.error]. *)
Inductive Message :=
| ZLevelUsed (zl : Z)
| LayerInvalid (zl : Z)
| ZLevelUnknownLayer (zl : Z)
| DrawIndexSentinel.

(** Calls into the host, in the order they are made. *)
Inductive Event :=
| LogError (m : Message)
| Clear (layer : loc) (withBackground : bool)
| Brush (layer : loc) (index : Z) (isLast : bool)
| BrushHover (layer : loc) (m : Mirror) (isLast : bool)
| RefreshCustom (layer : loc) (withBackground : bool)
| CompositeClear (layer : loc)
| DrawImage (layer : loc).

(** A paint continuation handed to [requestAnimationFrame]: the closure
    captures the list (the array itself; [fr_list] is what it holds at that
    moment), the force flag and the generation token. *)
Record Frame := mkFrame {
  fr_list : list Element;
  fr_paintAll : bool;
  fr_redrawId : option Z
}.

(** The painter.  [heap] is the store of layer objects; [ticks] counts the
    readings of the clock taken so far, [journal] records the calls into the
    host and [frames] is the queue of scheduled frame callbacks. *)
Record Painter := mkPainter {
  _singleCanvas : bool;
  _zlevelList : list Z;
  _layers : gmap Z loc;
  _layerConfig : gmap Z LayerConfig;
  _needsManuallyCompositing : bool;
  _hoverlayer : option loc;
  _hoverElements : list Mirror;
  _redrawId : option Z;
  heap : list Layer;
  ticks : nat;
  journal : list Event;
  frames : list Frame
}.

Definition set_zlevelList (v : list Z) (p : Painter) : Painter :=
  {| _singleCanvas := _singleCanvas p; _zlevelList := v; _layers := _layers p;
     _layerConfig := _layerConfig p;
     _needsManuallyCompositing := _needsManuallyCompositing p;
     _hoverlayer := _hoverlayer p; _hoverElements := _hoverElements p;
     _redrawId := _redrawId p; heap := heap p; ticks := ticks p;
     journal := journal p; frames := frames p |}.
Definition set_layers (v : gmap Z loc) (p : Painter) : Painter :=
  {| _singleCanvas := _singleCanvas p; _zlevelList := _zlevelList p; _layers := v;
     _layerConfig := _layerConfig p;
     _needsManuallyCompositing := _needsManuallyCompositing p;
     _hoverlayer := _hoverlayer p; _hoverElements := _hoverElements p;
     _redrawId := _redrawId p; heap := heap p; ticks := ticks p;
     journal := journal p; frames := frames p |}.
Definition set_layerConfig (v : gmap Z LayerConfig) (p : Painter) : Painter :=
  {| _singleCanvas := _singleCanvas p; _zlevelList := _zlevelList p;
     _layers := _layers p; _layerConfig := v;
     _needsManuallyCompositing := _needsManuallyCompositing p;
     _hoverlayer := _hoverlayer p; _hoverElements := _hoverElements p;
     _redrawId := _redrawId p; heap := heap p; ticks := ticks p;
     journal := journal p; frames := frames p |}.
Definition set_needsManuallyCompositing (v : bool) (p : Painter) : Painter :=
  {| _singleCanvas := _singleCanvas p; _zlevelList := _zlevelList p;
     _layers := _layers p; _layerConfig := _layerConfig p;
     _needsManuallyCompositing := v;
     _hoverlayer := _hoverlayer p; _hoverElements := _hoverElements p;
     _redrawId := _redrawId p; heap := heap p; ticks := ticks p;
     journal := journal p; frames := frames p |}.
Definition set_hoverlayer (v : option loc) (p : Painter) : Painter :=
  {| _singleCanvas := _singleCanvas p; _zlevelList := _zlevelList p;
     _layers := _layers p; _layerConfig := _layerConfig p;
     _needsManuallyCompositing := _needsManuallyCompositing p;
     _hoverlayer := v; _hoverElements := _hoverElements p;
     _redrawId := _redrawId p; heap := heap p; ticks := ticks p;
     journal := journal p; frames := frames p |}.
Definition set_hoverElements (v : list Mirror) (p : Painter) : Painter :=
  {| _singleCanvas := _singleCanvas p; _zlevelList := _zlevelList p;
     _layers := _layers p; _layerConfig := _layerConfig p;
     _needsManuallyCompositing := _needsManuallyCompositing p;
     _hoverlayer := _hoverlayer p; _hoverElements := v;
     _redrawId := _redrawId p; heap := heap p; ticks := ticks p;
     journal := journal p; frames := frames p |}.
Definition set_redrawId (v : option Z) (p : Painter) : Painter :=
  {| _singleCanvas := _singleCanvas p; _zlevelList := _zlevelList p;
     _layers := _layers p; _layerConfig := _layerConfig p;
     _needsManuallyCompositing := _needsManuallyCompositing p;
     _hoverlayer := _hoverlayer p; _hoverElements := _hoverElements p;
     _redrawId := v; heap := heap p; ticks := ticks p;
     journal := journal p; frames := frames p |}.
Definition set_heap (v : list Layer) (p : Painter) : Painter :=
  {| _singleCanvas := _singleCanvas p; _zlevelList := _zlevelList p;
     _layers := _layers p; _layerConfig := _layerConfig p;
     _needsManuallyCompositing := _needsManuallyCompositing p;
     _hoverlayer := _hoverlayer p; _hoverElements := _hoverElements p;
     _redrawId := _redrawId p; heap := v; ticks := ticks p;
     journal := journal p; frames := frames p |}.
Definition set_ticks (v : nat) (p : Painter) : Painter :=
  {| _singleCanvas := _singleCanvas p; _zlevelList := _zlevelList p;
     _layers := _layers p; _layerConfig := _layerConfig p;
     _needsManuallyCompositing := _needsManuallyCompositing p;
     _hoverlayer := _hoverlayer p; _hoverElements := _hoverElements p;
     _redrawId := _redrawId p; heap := heap p; ticks := v;
     journal := journal p; frames := frames p |}.
Definition set_journal (v : list Event) (p : Painter) : Painter :=
  {| _singleCanvas := _singleCanvas p; _zlevelList := _zlevelList p;
     _layers := _layers p; _layerConfig := _layerConfig p;
     _needsManuallyCompositing := _needsManuallyCompositing p;
     _hoverlayer := _hoverlayer p; _hoverElements := _hoverElements p;
     _redrawId := _redrawId p; heap := heap p; ticks := ticks p;
     journal := v; frames := frames p |}.
Definition set_frames (v : list Frame) (p : Painter) : Painter :=
  {| _singleCanvas := _singleCanvas p; _zlevelList := _zlevelList p;
     _layers := _layers p; _layerConfig := _layerConfig p;
     _needsManuallyCompositing := _needsManuallyCompositing p;
     _hoverlayer := _hoverlayer p; _hoverElements := _hoverElements p;
     _redrawId := _redrawId p; heap := heap p; ticks := ticks p;
     journal := journal p; frames := v |}.

(** Reading and writing a layer object through its address. *)
Definition deref (p : Painter) (l : loc) : Layer := heap p !!! l.
Definition store (l : loc) (v : Layer) (p : Painter) : Painter :=
  set_heap (<[l := v]> (heap p)) p.
Definition modify (l : loc) (f : Layer → Layer) (p : Painter) : Painter :=
  store l (f (deref p l)) p.

(** A new object is allocated at the end of the store. *)
Definition alloc (v : Layer) (p : Painter) : Painter * loc :=
  (set_heap (heap p ++ [v]) p, length (heap p)).

Definition emit (e : Event) (p : Painter) : Painter :=
  set_journal (journal p ++ [e]) p.

(** [list[i]] for a JavaScript index: [undefined] outside the array. *)
Definition at_index {A} (l : list A) (i : Z) : option A :=
  if i <? 0 then None else l !! Z.to_nat i.

(** ** The layer registry *)

(** [isLayerValid]; the argument is [None] for a null layer. *)
Definition isLayerValid (layer : option Layer) : bool :=
  match layer with
  | None => false
  | Some l =>
      if __builtin__ l then true
      else if negb (resize_fn l) || negb (refresh_fn l) then false
      else true
  end.

(** The scan of [insertLayer]: the first [i < len - 1] with
    [zlevelList[i] < zlevel < zlevelList[i + 1]], or [len - 1] when the loop
    runs to its end.  [i] is the index of the head of [zs]. *)
Fixpoint scan_from (zl : Z) (zs : list Z) (i : Z) : Z :=
  match zs with
  | a :: ((b :: _) as rest) =>
      if (a <? zl) && (zl <? b) then i else scan_from zl rest (i + 1)
  | _ => i
  end.

(** The value of [i] when [insertLayer] reaches [splice]. *)
Definition predecessor_index (zl : Z) (zs : list Z) : Z :=
  match zs with
  | a :: _ => if a <? zl then scan_from zl zs 0 else -1
  | [] => -1
  end.

(** [zlevelList.splice(i, 0, x)] for [0 <= i <= zlevelList.length]. *)
Definition splice_in (i : Z) (x : Z) (zs : list Z) : list Z :=
  take (Z.to_nat i) zs ++ x :: drop (Z.to_nat i) zs.

(** [insertLayer].  The layer argument is the address of the supplied
    object, [None] for null.  The placement of the layer's DOM node next to
    its predecessor is not modelled. *)
Definition insertLayer (zl : Z) (layer : option loc) (p : Painter) : Painter :=
  match _layers p !! zl with
  | Some _ => emit (LogError (ZLevelUsed zl)) p
  | None =>
      if negb (isLayerValid (deref p <$> layer))
      then emit (LogError (LayerInvalid zl)) p
      else
        match layer with
        | None => p
        | Some l =>
            let i := predecessor_index zl (_zlevelList p) in
            set_layers (<[zl := l]> (_layers p))
              (set_zlevelList (splice_in (i + 1) zl (_zlevelList p)) p)
        end
  end.

(** [getLayer]: the layer of a z-level, created when absent. *)
Definition getLayer (zl : Z) (virt : bool) (p : Painter) : Painter * loc :=
  let zl := if _singleCanvas p && negb (_needsManuallyCompositing p)
            then CANVAS_ZLEVEL else zl in
  match _layers p !! zl with
  | Some l => (p, l)
  | None =>
      let layer := set_builtin true (set_zlevel zl new_Layer) in
      let layer := match _layerConfig p !! zl with
                   | Some c => merge_layer c layer
                   | None => layer
                   end in
      let layer := if virt then set_virtual virt layer else layer in
      let '(p, l) := alloc layer p in
      (insertLayer zl (Some l) p, l)
  end.

(** The constructor, as far as the registry is concerned: on a single
    canvas the main layer is built and stored under [CANVAS_ZLEVEL]. *)
Definition CanvasPainter (singleCanvas : bool) : Painter :=
  let p := {| _singleCanvas := singleCanvas; _zlevelList := []; _layers := ∅;
              _layerConfig := ∅; _needsManuallyCompositing := false;
              _hoverlayer := None; _hoverElements := []; _redrawId := None;
              heap := []; ticks := 0%nat; journal := []; frames := [] |} in
  if singleCanvas then
    let '(p, l) := alloc (set_zlevel CANVAS_ZLEVEL (set_builtin true new_Layer)) p in
    set_zlevelList (_zlevelList p ++ [CANVAS_ZLEVEL])
      (set_layers (<[CANVAS_ZLEVEL := l]> (_layers p)) p)
  else p.

(** [delLayer]; [util.indexOf] gives [-1] for an absent key and
    [splice(-1, 1)] then removes the last entry. *)
Fixpoint indexOf (zs : list Z) (zl : Z) (i : Z) : Z :=
  match zs with
  | [] => -1
  | a :: rest => if a =? zl then i else indexOf rest zl (i + 1)
  end.

Definition splice_out (i : Z) (zs : list Z) : list Z :=
  let i := if i <? 0 then Z.max 0 (Z.of_nat (length zs) + i) else i in
  take (Z.to_nat i) zs ++ drop (S (Z.to_nat i)) zs.

Definition delLayer (zl : Z) (p : Painter) : Painter :=
  match _layers p !! zl with
  | None => p
  | Some _ =>
      set_zlevelList (splice_out (indexOf (_zlevelList p) zl 0) (_zlevelList p))
        (set_layers (delete zl (_layers p)) p)
  end.

(** The loop body of [configLayer]: the stored configuration is merged into
    the layer of a key equal to [zl] or to [zl + EL_AFTER_INCREMENTAL_INC]. *)
Definition config_step (zl : Z) (stored : LayerConfig) (p : Painter) (_zlevel : Z)
  : Painter :=
  if (_zlevel =? zl) || (_zlevel =? zl + EL_AFTER_INCREMENTAL_INC)
  then match _layers p !! _zlevel with
       | Some l => modify l (merge_layer stored) p
       | None => p
       end
  else p.

(** [configLayer]; the configuration argument is [None] for null. *)
Definition configLayer (zl : Z) (config : option LayerConfig) (p : Painter) : Painter :=
  match config with
  | None => p
  | Some config =>
      let stored := match _layerConfig p !! zl with
                    | None => config
                    | Some c => merge c config
                    end in
      let p := set_layerConfig (<[zl := stored]> (_layerConfig p)) p in
      foldl (config_step zl stored) p (_zlevelList p)
  end.

(** ** Iteration over the registry *)

(** [eachBuiltinLayer]: the callback runs on every engine-built layer, in
    the order of the z-level list.  A key of the list without a layer makes
    the test [layer.__builtin__] throw. *)
Fixpoint each_builtin (cb : loc → Painter → Painter) (zs : list Z) (p : Painter)
  : option Painter :=
  match zs with
  | [] => Some p
  | z :: zs' =>
      match _layers p !! z with
      | None => None
      | Some l =>
          each_builtin cb zs' (if __builtin__ (deref p l) then cb l p else p)
      end
  end.

Definition eachBuiltinLayer (cb : loc → Painter → Painter) (p : Painter)
  : option Painter :=
  each_builtin cb (_zlevelList p) p.

(** ** Classification: [_updateLayerStatus] *)

(** The single-canvas test: some element after the first has a z-level
    different from its predecessor's, or is incremental. *)
Fixpoint needs_compositing (prev : Element) (rest : list Element) : bool :=
  match rest with
  | [] => false
  | el :: rest' =>
      if negb (el_zlevel el =? el_zlevel prev) || el_incremental el then true
      else needs_compositing el rest'
  end.

Definition detect_compositing (els : list Element) (p : Painter) : Painter :=
  if _singleCanvas p then
    match els with
    | [] => p
    | el0 :: rest =>
        if needs_compositing el0 rest
        then set_needsManuallyCompositing true p else p
    end
  else p.

(** The local function [updatePrevLayer]. *)
Definition updatePrevLayer (prevLayer : option loc) (idx : Z) (p : Painter) : Painter :=
  match prevLayer with
  | None => p
  | Some l =>
      modify l (fun layer =>
        set_endIndex idx
          (if negb (__endIndex layer =? idx) then set_dirty true layer else layer)) p
  end.

(** The state of the walk over the element list. *)
Record Walk := mkWalk {
  w_painter : Painter;
  prevLayer : option loc;
  incrementalLayerCount : Z
}.

(** The z-level key requested for an element. *)
Definition requested_zlevel (el : Element) (incrementalLayerCount : Z) : Z :=
  if el_incremental el then el_zlevel el + INCREMENTAL_INC
  else el_zlevel el
       + (if 0 <? incrementalLayerCount then EL_AFTER_INCREMENTAL_INC else 0).

(** What happens to a layer when the walk enters it at index [i]. *)
Definition enter_layer (i : Z) (layer : Layer) : Layer :=
  let layer := set_used true layer in
  let layer := if negb (__startIndex layer =? i) then set_dirty true layer else layer in
  let layer := set_startIndex i layer in
  if negb (incremental layer) then set_drawIndex i layer
  else set_drawIndex (-1) layer.

(** What a dirty element does to its layer. *)
Definition touch_layer (i : Z) (layer : Layer) : Layer :=
  let layer := set_dirty true layer in
  if incremental layer && (__drawIndex layer <? 0) then set_drawIndex i layer
  else layer.

(** One iteration of the walk, for the element [el] at index [i]. *)
Definition walk_step (i : Z) (el : Element) (w : Walk) : Walk :=
  let p := w_painter w in
  let '(p, l, count) :=
    if el_incremental el then
      let '(p, l) := getLayer (requested_zlevel el (incrementalLayerCount w))
                       (_needsManuallyCompositing p) p in
      (modify l (set_incremental true) p, l, 1)
    else
      let '(p, l) := getLayer (requested_zlevel el (incrementalLayerCount w))
                       (_needsManuallyCompositing p) p in
      (p, l, incrementalLayerCount w) in
  let p := if negb (__builtin__ (deref p l))
           then emit (LogError (ZLevelUnknownLayer (el_zlevel el))) p else p in
  let '(p, prev) :=
    if negb (bool_decide (Some l = prevLayer w)) then
      let p := modify l (enter_layer i) p in
      (updatePrevLayer (prevLayer w) i p, Some l)
    else (p, prevLayer w) in
  let p := if el_dirty el then modify l (touch_layer i) p else p in
  {| w_painter := p; prevLayer := prev; incrementalLayerCount := count |}.

Fixpoint walk (els : list Element) (i : Z) (w : Walk) : Walk * Z :=
  match els with
  | [] => (w, i)
  | el :: els' => walk els' (i + 1) (walk_step i el w)
  end.

(** The callbacks of the two sweeps over the engine-built layers. *)
Definition reset_status (layer : Layer) : Layer :=
  set_dirty false (set_used false layer).

Definition settle_status (layer : Layer) : Layer :=
  let layer :=
    if negb (__used layer) && (0 <? getElementCount layer)
    then set_drawIndex 0 (set_endIndex 0 (set_startIndex 0 (set_dirty true layer)))
    else layer in
  if __dirty layer && (__drawIndex layer <? 0)
  then set_drawIndex (__startIndex layer) layer
  else layer.

Definition _updateLayerStatus (els : list Element) (p : Painter) : option Painter :=
  p ← eachBuiltinLayer (fun l => modify l reset_status) p;
  let p := detect_compositing els p in
  let '(w, i) := walk els 0
                   {| w_painter := p; prevLayer := None; incrementalLayerCount := 0 |} in
  let p := updatePrevLayer (prevLayer w) i (w_painter w) in
  eachBuiltinLayer (fun l => modify l settle_status) p.

(** ** Painting *)

Section Host.

(** The host: [now n] is the value of the [n]-th reading of [Date.now()]
    and [timsort] sorts the hover mirrors with the storage's comparator. *)
Variable now : nat → Z.
Variable timsort : list Mirror → list Mirror.

Definition Date_now (p : Painter) : Z * Painter :=
  (now (ticks p), set_ticks (S (ticks p)) p).

(** [_doPaintEl] for the element at index [i] of the list. *)
Definition _doPaintEl (i : Z) (currentLayer : loc) (forcePaint isLast : bool)
    (p : Painter) : Painter :=
  if __dirty (deref p currentLayer) || forcePaint
  then emit (Brush currentLayer i isLast) p else p.

(** The element loop of [_doPaintList], entered with [n] the number of
    indices from [i] up to the layer's [__endIndex].  It returns the value
    of [i] on exit: the end of the range, or the index at which the loop
    is left through [break]. *)
Fixpoint paint_loop (n : nat) (i : Z) (layer : loc) (paintAll useTimer : bool)
    (startTime : Z) (p : Painter) : Painter * Z :=
  match n with
  | O => (p, i)
  | S n' =>
      let p := _doPaintEl i layer paintAll
                 (i =? __endIndex (deref p layer) - 1) p in
      if useTimer then
        let '(t, p) := Date_now p in
        let dTime := t - startTime in
        if 15 <? dTime then (p, i)
        else paint_loop n' (i + 1) layer paintAll useTimer startTime p
      else paint_loop n' (i + 1) layer paintAll useTimer startTime p
  end.

(** The body of the layer loop of [_doPaintList]. *)
Definition paint_layer (els : list Element) (paintAll : bool) (layer : loc)
    (st : Painter * bool) : option (Painter * bool) :=
  let '(p, finished) := st in
  let L := deref p layer in
  let start := if paintAll then __startIndex L else __drawIndex L in
  let useTimer := negb paintAll && incremental L in
  let '(startTime, p) := if useTimer then Date_now p else (0, p) in
  let clearColor := bool_decide (Some (zlevel L) = head (_zlevelList p)) in
  p ← (if __startIndex L =? __endIndex L
       then Some (emit (Clear layer clearColor) p)
       else if start =? __startIndex L then
         firstEl ← at_index els start;
         Some (if negb (el_incremental firstEl) || negb (el_notClear firstEl) || paintAll
               then emit (Clear layer clearColor) p else p)
       else Some p);
  let '(p, start) :=
    if start =? -1
    then (emit (LogError DrawIndexSentinel) p, __startIndex L)
    else (p, start) in
  let '(p, i) := paint_loop (Z.to_nat (__endIndex L - start)) start layer
                   paintAll useTimer startTime p in
  let p := modify layer (set_drawIndex i) p in
  Some (p, if __drawIndex (deref p layer) <? __endIndex (deref p layer)
           then false else finished).

Fixpoint paint_layers (els : list Element) (paintAll : bool) (layerList : list loc)
    (st : Painter * bool) : option (Painter * bool) :=
  match layerList with
  | [] => Some st
  | layer :: rest =>
      st ← paint_layer els paintAll layer st;
      paint_layers els paintAll rest st
  end.

(** The layers to paint: engine-built, not the hover layer, dirty or
    forced. *)
Fixpoint collect_layers (paintAll : bool) (zs : list Z) (p : Painter)
  : option (list loc) :=
  match zs with
  | [] => Some []
  | z :: zs' =>
      layer ← _layers p !! z;
      rest ← collect_layers paintAll zs' p;
      Some (if __builtin__ (deref p layer)
               && negb (bool_decide (Some layer = _hoverlayer p))
               && (__dirty (deref p layer) || paintAll)
            then layer :: rest else rest)
  end.

(** [_doPaintList]; the result carries the flag [finished].  The method
    ends with a flush of the drawing contexts that runs only in a weixin
    application ([env.wxa]); the embedding is of the engine in a browser,
    where [env.wxa] is false and the flush does nothing. *)
Definition _doPaintList (els : list Element) (paintAll : bool) (p : Painter)
  : option (Painter * bool) :=
  layerList ← collect_layers paintAll (_zlevelList p) p;
  paint_layers els paintAll layerList (p, true).

(** [_compositeManually]. *)
Definition _compositeManually (p : Painter) : option Painter :=
  let '(p, main) := getLayer CANVAS_ZLEVEL false p in
  let p := emit (CompositeClear main) p in
  eachBuiltinLayer
    (fun l p => if virtual (deref p l) then emit (DrawImage l) p else p) p.

(** [_paintList]; an unfinished pass leaves a continuation in the queue of
    frame callbacks. *)
Definition _paintList (els : list Element) (paintAll : bool) (redrawId : option Z)
    (p : Painter) : option Painter :=
  if negb (bool_decide (_redrawId p = redrawId)) then Some p
  else
    p ← _updateLayerStatus els p;
    '(p, finished) ← _doPaintList els paintAll p;
    p ← (if _needsManuallyCompositing p then _compositeManually p else Some p);
    Some (if negb finished
          then set_frames (frames p ++ [mkFrame els paintAll redrawId]) p
          else p).

(** The host runs the oldest scheduled frame callback.  The closure holds
    the array that [_paintList] was given, not a copy of it, and the
    elements are objects that [brush] and the client write to: [els] is what
    the array holds when the callback runs ([fr_list] is what it held when
    the callback was scheduled). *)
Definition run_frame (els : list Element) (p : Painter) : option Painter :=
  match frames p with
  | [] => Some p
  | f :: rest => _paintList els (fr_paintAll f) (fr_redrawId f) (set_frames rest p)
  end.

(** The loop of [refreshHover] over the mirrors that are left, with [i] the
    loop index, [len] the current length and [kept] the mirrors that stay. *)
Fixpoint hover_loop (rest : list Mirror) (i len : Z) (kept : list Mirror)
    (hoverLayer : loc) (p : Painter) : option (Painter * list Mirror) :=
  match rest with
  | [] => Some (p, kept)
  | el :: rest' =>
      match __from el with
      | None => None
      | Some originalEl =>
          if negb (__zr originalEl)
          then hover_loop rest' i (len - 1) kept hoverLayer p
          else
            let i := i + 1 in
            let p := if negb (invisible originalEl)
                     then emit (BrushHover hoverLayer el (i =? len - 1)) p
                     else p in
            hover_loop rest' i len (kept ++ [el]) hoverLayer p
      end
  end.

Definition refreshHover (p : Painter) : option Painter :=
  let hoverElements := _hoverElements p in
  let p := match _hoverlayer p with
           | Some hl => emit (Clear hl false) p
           | None => p
           end in
  match hoverElements with
  | [] => Some p
  | _ =>
      let hoverElements := timsort hoverElements in
      let p := set_hoverElements hoverElements p in
      let '(p, hl) := match _hoverlayer p with
                      | Some hl => (p, hl)
                      | None =>
                          let '(p, hl) := getLayer HOVER_LAYER_ZLEVEL false p in
                          (set_hoverlayer (Some hl) p, hl)
                      end in
      '(p, kept) ← hover_loop hoverElements 0 (Z.of_nat (length hoverElements)) [] hl p;
      Some (set_hoverElements kept p)
  end.

(** The loop of [refresh] over the layers that are not engine-built. *)
Fixpoint refresh_custom (zs : list Z) (i : Z) (p : Painter) : option Painter :=
  match zs with
  | [] => Some p
  | z :: zs' =>
      layer ← _layers p !! z;
      let L := deref p layer in
      refresh_custom zs' (i + 1)
        (if negb (__builtin__ L) && refresh_fn L
         then emit (RefreshCustom layer (i =? 0)) p else p)
  end.

(** [refresh]; [els] is the display list handed out by the storage and
    [random] the value of [Math.random()]. *)
Definition refresh (els : list Element) (paintAll : bool) (random : Z)
    (p : Painter) : option Painter :=
  let p := set_redrawId (Some random) p in
  p ← _paintList els paintAll (_redrawId p) p;
  p ← refresh_custom (_zlevelList p) 0 p;
  refreshHover p.

End Host.

(** The fields that only the constructor and [refresh] write. *)
Definition static (p : Painter) : bool * option Z := (_singleCanvas p, _redrawId p).

(** ** Sample inputs *)

(** An element of z-level [z] (in whole units). *)
Definition el (z : Z) (inc dirty : bool) : Element :=
  {| el_zlevel := z * 1000; el_incremental := inc; el_notClear := false;
     el_dirty := dirty |}.

(** A clock that advances by 16 at every reading, and one that stands still. *)
Definition slow_clock (n : nat) : Z := 16 * Z.of_nat n.
Definition still_clock (n : nat) : Z := 0.

(** Three dirty incremental elements on z-level 0. *)
Definition three_incremental : list Element :=
  [el 0 true true; el 0 true true; el 0 true true].

(** A painter with a time-sliced pass pending: the first refresh, stamped
    with token 1, painted one element and rescheduled itself. *)
Definition pending_painter : Painter :=
  default (CanvasPainter false)
    (refresh slow_clock id three_incremental false 1 (CanvasPainter false)).

(** The layer objects that [configLayer zl] writes to: those registered
    under the key [zl] or under [zl + EL_AFTER_INCREMENTAL_INC]. *)
Definition config_target (zl : Z) (zs : list Z) (m : gmap Z loc) (l : loc) : Prop :=
  ∃ k, k ∈ zs ∧ (k = zl ∨ k = zl + EL_AFTER_INCREMENTAL_INC) ∧ m !! k = Some l.


(** A painter with the three sub-layers of z-level 0: classification of a
    plain element, an incremental one and a plain one after it registers the
    keys [0], [INCREMENTAL_INC] and [EL_AFTER_INCREMENTAL_INC]. *)
Definition sublayer_painter : Painter :=
  default (CanvasPainter false)
    (_updateLayerStatus [el 0 false true; el 0 true true; el 0 false true]
       (CanvasPainter false)).


(** The registry invariant: the z-level list is strictly ascending and holds
    exactly the keys of the layer map. *)
Definition registry_ok (p : Painter) : Prop :=
  StronglySorted Z.lt (_zlevelList p)
  ∧ ∀ k, k ∈ _zlevelList p ↔ is_Some (_layers p !! k).

(** A single-canvas painter next to which the host has built a layer object
    of its own (at address 1), not yet registered. *)
Definition custom_layer_painter : Painter := (alloc new_Layer (CanvasPainter true)).1.

(** The [brush] calls made for the indices [i, i + k) of a layer whose range
    ends at [e]. *)
Definition brushes (layer : loc) (e : Z) (i : Z) (k : nat) : list Event :=
  (λ j, Brush layer j (j =? e - 1)) <$> seqZ i (Z.of_nat k).

(** A list of one clean incremental element. *)
Definition one_clean_incremental : list Element := [el 0 true false].

(** The key under which [getLayer] looks a z-level up. *)
Definition resolve (p : Painter) (zl : Z) : Z :=
  if _singleCanvas p && negb (_needsManuallyCompositing p) then CANVAS_ZLEVEL else zl.

(** The layer object that [getLayer] builds for a key without a layer. *)
Definition created_layer (p : Painter) (zl : Z) (virt : bool) : Layer :=
  let layer := set_builtin true (set_zlevel zl new_Layer) in
  let layer := match _layerConfig p !! zl with
               | Some c => merge_layer c layer
               | None => layer
               end in
  if virt then set_virtual virt layer else layer.

(** Every registered address points into the store. *)
Definition closed (p : Painter) : Prop :=
  ∀ k l, _layers p !! k = Some l → (l < length (heap p))%nat.

(** Different keys hold different layer objects. *)
Definition distinct (p : Painter) : Prop :=
  ∀ k1 k2 l, _layers p !! k1 = Some l → _layers p !! k2 = Some l → k1 = k2.

(** A well-formed painter. *)
Definition wf (p : Painter) : Prop := registry_ok p ∧ closed p ∧ distinct p.

(** The layer object registered under a key. *)
Definition layer_at (p : Painter) (k : Z) : option Layer :=
  l ← _layers p !! k; heap p !! l.

(** The two flags that decide how [getLayer] resolves a z-level. *)
Definition mode (p : Painter) : bool * bool :=
  (_singleCanvas p, _needsManuallyCompositing p).

(** The z-levels that the walk of [_updateLayerStatus] requests for the
    elements of a list, given the value of [incrementalLayerCount]. *)
Fixpoint requested_keys (els : list Element) (count : Z) : list Z :=
  match els with
  | [] => []
  | e :: rest =>
      requested_zlevel e count
      :: requested_keys rest (if el_incremental e then 1 else count)
  end.

(** The keys of the layers that the elements of a list end up on. *)
Definition layer_keys (els : list Element) (p : Painter) : list Z :=
  resolve (detect_compositing els p) <$> requested_keys els 0.

(** What closing a run at index [idx] does to its layer. *)
Definition close_layer (idx : Z) (layer : Layer) : Layer :=
  set_endIndex idx
    (if negb (__endIndex layer =? idx) then set_dirty true layer else layer).

(** What one iteration of the walk does to the layer of its element; [same]
    says that the layer is the one of the element before. *)
Definition visit_layer (i : Z) (e : Element) (same : bool) (layer : Layer) : Layer :=
  let layer := if el_incremental e then set_incremental true layer else layer in
  let layer := if same then layer else enter_layer i layer in
  if el_dirty e then touch_layer i layer else layer.

(** During the walk, [prevLayer] is the layer registered under the key of the
    element before (no layer before the first element). *)
Definition linked (kp : option Z) (w : Walk) : Prop :=
  wf (w_painter w)
  ∧ prevLayer w = (kp ≫= λ k, _layers (w_painter w) !! k)
  ∧ ∀ k0, kp = Some k0 → is_Some (_layers (w_painter w) !! k0).

(** The keys of the layers that the rest of a walk will visit. *)
Definition walk_keys (els : list Element) (w : Walk) : list Z :=
  resolve (w_painter w) <$> requested_keys els (incrementalLayerCount w).

(** The callbacks of the two sweeps as they act on an arbitrary registered
    layer: layers that are not engine-built are skipped. *)
Definition reset_view (layer : Layer) : Layer :=
  if __builtin__ layer then reset_status layer else layer.

Definition settle_view (layer : Layer) : Layer :=
  if __builtin__ layer then settle_status layer else layer.

(** The state in which the walk of [_updateLayerStatus] starts, given the
    painter left by the first sweep. *)
Definition walk_start (els : list Element) (p : Painter) : Walk :=
  {| w_painter := detect_compositing els p; prevLayer := None;
     incrementalLayerCount := 0 |}.

(** The shape of a layer's indices between passes: a proper range, and a
    draw index that is either the sentinel or inside the range. *)
Definition ok_range (L : Layer) : Prop :=
  0 ≤ __startIndex L ≤ __endIndex L
  ∧ (__drawIndex L = -1 ∨ __startIndex L ≤ __drawIndex L ≤ __endIndex L).

(** Every registered engine-built layer has well-shaped indices. *)
Definition ranges_ok (p : Painter) : Prop :=
  ∀ k L, layer_at p k = Some L → __builtin__ L = true → ok_range L.

(** What the classification pass guarantees about a registered engine-built
    layer [L] under key [k], for a list of [n] elements with keys [keys]. *)
Definition classified_layer (keys : list Z) (n : Z) (k : Z) (L : Layer) : Prop :=
  ok_range L
  ∧ (__used L = true ↔ k ∈ keys)
  ∧ (__dirty L = true → __startIndex L ≤ __drawIndex L ≤ __endIndex L)
  ∧ (__used L = true → __startIndex L < __endIndex L ≤ n)
  ∧ (__used L = false → __startIndex L = __endIndex L).

(** The invariant of the walk behind [classified_layer]: [done] are the keys
    visited so far; the layer visited last has a start index and a draw
    index but an end index that is still to be written. *)
Definition walking_layer (done : list Z) (k : Z) (L : Layer) : Prop :=
  let i := Z.of_nat (length done) in
  (__used L = true ↔ k ∈ done)
  ∧ (last done = Some k →
       0 ≤ __startIndex L < i
       ∧ (__drawIndex L = -1 ∨ __startIndex L ≤ __drawIndex L < i))
  ∧ (last done ≠ Some k →
       ok_range L ∧ (__used L = true → __startIndex L < __endIndex L ≤ i)).

(** The events of painting proper: clearing a layer and brushing an
    element. *)
Definition is_paint_event (e : Event) : Prop :=
  match e with
  | Clear _ _ | Brush _ _ _ => True
  | _ => False
  end.

(** What the paint pass needs of a layer it is about to paint, for a list of
    [n] elements: a well-shaped range, a first element that exists when the
    range is not empty, and a draw index that is not the sentinel when the
    layer is painted because it is dirty. *)
Definition paintable (n : Z) (paintAll : bool) (L : Layer) : Prop :=
  ok_range L
  ∧ (__startIndex L ≠ __endIndex L → __startIndex L < n)
  ∧ (paintAll = false → __dirty L = true → __startIndex L ≤ __drawIndex L).

(** The painter [q] differs from [p] at most in the journal, the clock and
    the draw indices of its layer objects. *)
Definition painted_from (p q : Painter) : Prop :=
  (∃ h, q = set_ticks (ticks q) (set_journal (journal q) (set_heap h p)))
  ∧ length (heap q) = length (heap p)
  ∧ ∀ l L, heap p !! l = Some L → ∃ d, heap q !! l = Some (set_drawIndex d L).

(** Every registered engine-built layer can be painted against a list of [n]
    elements. *)
Definition all_paintable (n : Z) (paintAll : bool) (p : Painter) : Prop :=
  ∀ k l, _layers p !! k = Some l → __builtin__ (deref p l) = true →
         paintable n paintAll (deref p l).

(** Whether the element a hover mirror was made from is still attached to a
    renderer, and whether the mirror is to be drawn: attached and not
    invisible. *)
Definition attached (m : Mirror) : bool :=
  match __from m with
  | Some o => __zr o
  | None => false
  end.

Definition shown (m : Mirror) : bool :=
  match __from m with
  | Some o => __zr o && negb (invisible o)
  | None => false
  end.

(** A hover list of two attached, visible mirrors. *)
Definition two_mirrors : list Mirror :=
  [ {| mirror_id := 0; __from := Some {| __zr := true; invisible := false |} |};
    {| mirror_id := 1; __from := Some {| __zr := true; invisible := false |} |} ].

(** ** Clearing *)

(** [_clearLayer], [clear] and [clearLayer]: [layer.clear()] without
    arguments, on every engine-built layer or on the layer of one key. *)
Definition _clearLayer (layer : loc) (p : Painter) : Painter :=
  emit (Clear layer false) p.

Definition clear (p : Painter) : option Painter := eachBuiltinLayer _clearLayer p.

Definition clearLayer (zl : Z) (p : Painter) : Painter :=
  match _layers p !! zl with
  | Some layer => emit (Clear layer false) p
  | None => p
  end.

(** The engine-built layers of a list of keys, in the order of the list. *)
Definition builtin_layers (zs : list Z) (p : Painter) : list loc :=
  omap (λ z, l ← _layers p !! z; if __builtin__ (deref p l) then Some l else None) zs.

(** ** Use of the painter *)

(** The painters that a disciplined client brings about: a new painter,
    then, in any order, calls of [refresh] (with any display list), runs of
    the frame callbacks that the paint pass has scheduled (with whatever the
    array holds by then), calls of [getLayer], of [insertLayer] with a new
    layer object of the client's own (one that the painter has not been
    given before), of [delLayer] (of a layer that is not virtual, whose DOM
    node is in the document), of [configLayer], [clear] and [clearLayer].
    The changes of the hover list ([addHover], [removeHover], [clearHover])
    are taken together: any list of mirrors that carry their back reference.
    The discipline: the client gives no layer object to [insertLayer] twice,
    so that no object is registered under two keys, and does not write to
    the fields of layer objects itself. *)
Inductive reachable (now : nat → Z) (timsort : list Mirror → list Mirror)
  : Painter → Prop :=
| reach_new (singleCanvas : bool) :
    reachable now timsort (CanvasPainter singleCanvas)
| reach_refresh p els (paintAll : bool) random p' :
    reachable now timsort p →
    refresh now timsort els paintAll random p = Some p' →
    reachable now timsort p'
| reach_frame p els p' :
    reachable now timsort p → run_frame now els p = Some p' →
    reachable now timsort p'
| reach_getLayer p zl (virt : bool) :
    reachable now timsort p → reachable now timsort (getLayer zl virt p).1
| reach_insertLayer p zl (layer : Layer) :
    reachable now timsort p → __builtin__ layer = false →
    reachable now timsort (insertLayer zl (Some (alloc layer p).2) (alloc layer p).1)
| reach_delLayer p zl :
    reachable now timsort p →
    (∀ l, _layers p !! zl = Some l → virtual (deref p l) = false) →
    reachable now timsort (delLayer zl p)
| reach_configLayer p zl config :
    reachable now timsort p → reachable now timsort (configLayer zl config p)
| reach_hover p (mirrors : list Mirror) :
    reachable now timsort p → Forall (λ m, is_Some (__from m)) mirrors →
    reachable now timsort (set_hoverElements mirrors p)
| reach_clear p p' :
    reachable now timsort p → clear p = Some p' → reachable now timsort p'
| reach_clearLayer p zl :
    reachable now timsort p → reachable now timsort (clearLayer zl p).

(** ** Runs of keys *)

(** In the list [keys], the indices [s, e) are the last maximal run of the
    key [k]: a non-empty stretch of [k] that is not preceded by [k] and after
    which [k] does not occur again. *)
Definition last_run (keys : list Z) (k : Z) (s e : Z) : Prop :=
  0 ≤ s < e ∧ e ≤ Z.of_nat (length keys)
  ∧ (∀ j, s ≤ j < e → keys !! Z.to_nat j = Some k)
  ∧ (0 < s → keys !! Z.to_nat (s - 1) ≠ Some k)
  ∧ (∀ j, e ≤ j → keys !! Z.to_nat j ≠ Some k).

(** The occurrences of every key are contiguous. *)
Definition grouped (keys : list Z) : Prop :=
  ∀ (i j l : nat) k, (i ≤ j ≤ l)%nat →
    keys !! i = Some k → keys !! l = Some k → keys !! j = Some k.

(** The elements of a list with indices in [s, e). *)
Definition range_of {A} (s e : Z) (l : list A) : list A :=
  take (Z.to_nat (e - s)) (drop (Z.to_nat s) l).

(** The layer object that classification finds under a key: the registered
    one or, when there is none, the one that [getLayer] builds. *)
Definition found_layer (p : Painter) (k : Z) : Layer :=
  default (created_layer p k (_needsManuallyCompositing p)) (layer_at p k).

(** The draw index that the walk leaves on a layer whose elements are [run],
    starting at index [s]: on a layer that is incremental when the walk
    enters it, the index of the first dirty element, or the sentinel; on any
    other layer the start. *)
Definition walked_drawIndex (inc : bool) (s : Z) (run : list Element) : Z :=
  if inc || match run with x :: _ => el_incremental x | [] => false end
  then match list_find (λ x, el_dirty x = true) run with
       | Some (j, _) => s + Z.of_nat j
       | None => -1
       end
  else s.

(** The invariant of the walk behind the dirty marks, for a layer [L] that
    the walk found as [V] and whose elements so far are those of the list
    [seen] from the layer's start on ([open]: the layer is the one visited
    last, its end index is still to be written). *)
Definition walked_layer (V : Layer) (seen : list Element) (open : bool) (L : Layer)
  : Prop :=
  let e := if open then Z.of_nat (length seen) else __endIndex L in
  let run := range_of (__startIndex L) e seen in
  __builtin__ L = __builtin__ V
  ∧ incremental L = incremental V || existsb el_incremental run
  ∧ __dirty L
    = __dirty V || negb (__startIndex V =? __startIndex L)
      || (negb open && negb (__endIndex V =? __endIndex L))
      || existsb el_dirty run
  ∧ (open = true → __endIndex L = __endIndex V)
  ∧ __drawIndex L = walked_drawIndex (incremental V) (__startIndex L) run.

(** The state of the walk after the elements [seen], started in [w0]: the
    stored configurations are as they were, the layers of the keys not yet
    visited are untouched, the layer of every key visited is in use with the
    last run of its key as its range, and, when the keys seen so far are
    grouped, every such layer carries the marks of [walked_layer]. *)
Definition walk_marks (w0 : Walk) (seen : list Element) (w : Walk) : Prop :=
  let done := walk_keys seen w0 in
  _layerConfig (w_painter w) = _layerConfig (w_painter w0)
  ∧ (∀ k, k ∉ done → layer_at (w_painter w) k = layer_at (w_painter w0) k)
  ∧ (∀ k L, layer_at (w_painter w) k = Some L → k ∈ done →
            __used L = true
            ∧ last_run done k (__startIndex L)
                (if decide (last done = Some k) then Z.of_nat (length done)
                 else __endIndex L))
  ∧ (grouped done →
     ∀ k L, layer_at (w_painter w) k = Some L → k ∈ done →
            walked_layer (found_layer (w_painter w0) k) seen
              (bool_decide (last done = Some k)) L).


(** Whether the key [k] of a painter holds a layer that the engine has not
    built. *)
Definition host_layer (p : Painter) (k : Z) : bool :=
  match layer_at p k with
  | Some L => negb (__builtin__ L)
  | None => false
  end.

(** The errors that classification logs for a list: one for each element
    whose key holds a layer that the engine has not built, in the order of
    the list, with the z-level of the element. *)
Definition unknown_layer_log (keys : list Z) (els : list Element) (p : Painter)
    : list Event :=
  mjoin (zip_with (λ k e, if host_layer p k
                          then [LogError (ZLevelUnknownLayer (el_zlevel e))]
                          else [])
           keys els).

(** A painter on several canvases with a layer of the host registered under
    the z-level 5. *)
Definition host_layer_painter : Painter :=
  insertLayer 5000 (Some (alloc new_Layer (CanvasPainter false)).2)
    (alloc new_Layer (CanvasPainter false)).1.

(** A single-canvas painter whose client has removed the main layer. *)
Definition mainless_painter : Painter := delLayer CANVAS_ZLEVEL (CanvasPainter true).

(** What the layer loop of [_doPaintList] journals for a layer [l] that it
    finds as [p] has it: at most one clear (one if the range is empty), the
    error message if the start index it reads is the sentinel, then the
    [brush] calls of [k] consecutive elements from the start index on, where
    [k] is the rest of the range unless the timer of an incremental layer
    stops the loop. *)
Definition layer_painted (paintAll : bool) (p : Painter) (l : loc)
    (evs : list Event) : Prop :=
  let L := deref p l in
  let start0 := if paintAll then __startIndex L else __drawIndex L in
  let start := if start0 =? -1 then __startIndex L else start0 in
  ∃ (clr : list Event) (k : nat),
    evs = clr ++ (if start0 =? -1 then [LogError DrawIndexSentinel] else [])
              ++ (if __dirty L || paintAll
                  then brushes l (__endIndex L) start k else [])
    ∧ (clr = [] ∨ ∃ bg, clr = [Clear l bg])
    ∧ (__startIndex L = __endIndex L → clr ≠ [])
    ∧ (Z.of_nat k = Z.max 0 (__endIndex L - start)
       ∨ negb paintAll && incremental L = true ∧ (0 < k)%nat).

(** A clean incremental element followed by a dirty plain one, classified
    twice: the incremental layer (address 0) is left with the sentinel draw
    index, the layer of the plain element (address 1) is dirty.  In
    [two_layer_sentinel_painter] the incremental layer is nevertheless marked
    dirty, the inconsistent state that the paint pass guards against. *)
Definition incremental_then_plain : list Element := [el 0 true false; el 1 false true].

Definition two_layer_sentinel_painter : Painter :=
  modify 0%nat (set_dirty true)
    (default (CanvasPainter false)
       (_updateLayerStatus incremental_then_plain (CanvasPainter false)
          ≫= _updateLayerStatus incremental_then_plain)).

(** * Properties *)

(** The composite operations stay folded under [simpl]. *)
Arguments insertLayer : simpl never.
Arguments getLayer : simpl never.
Arguments walk_step : simpl never.
Arguments updatePrevLayer : simpl never.
Arguments paint_layer : simpl never.
Arguments _updateLayerStatus : simpl never.
Arguments _doPaintList : simpl never.
Arguments _compositeManually : simpl never.
Arguments _paintList : simpl never.
Arguments refreshHover : simpl never.

(** ** Elementary facts about the store and the journal *)

Lemma deref_store_eq l v p : (l < length (heap p))%nat → deref (store l v p) l = v.
Proof.
  intros Hl. unfold deref, store. simpl.
  apply list_lookup_total_correct. by apply list_lookup_insert_eq.
Qed.

Lemma deref_store_ne l l' v p : l ≠ l' → deref (store l v p) l' = deref p l'.
Proof.
  intros Hne. unfold deref, store. simpl.
  rewrite !list_lookup_total_alt. by rewrite list_lookup_insert_ne.
Qed.

Lemma heap_lookup_deref p l L : heap p !! l = Some L → deref p l = L.
Proof. intros H. unfold deref. by apply list_lookup_total_correct. Qed.

(** ** Claim C6: rejected insertions *)

(** C6.  When a layer is already registered under the key, or the supplied
    layer is not engine-built and lacks a [resize] or a [refresh] function,
    [insertLayer] logs one error and changes nothing else: the layer map,
    the z-level list and the layer objects are as before. *)
Theorem insertLayer_rejected (zl : Z) (layer : option loc) (p : Painter) :
  (is_Some (_layers p !! zl)
   ∨ ∃ l, layer = Some l ∧ __builtin__ (deref p l) = false
          ∧ (resize_fn (deref p l) = false ∨ refresh_fn (deref p l) = false)) →
  ∃ m, (m = ZLevelUsed zl ∨ m = LayerInvalid zl)
       ∧ insertLayer zl layer p = emit (LogError m) p
       ∧ _layers (insertLayer zl layer p) = _layers p
       ∧ _zlevelList (insertLayer zl layer p) = _zlevelList p
       ∧ heap (insertLayer zl layer p) = heap p.
Proof.
  intros H. unfold insertLayer.
  destruct (_layers p !! zl) as [l0|] eqn:Hreg.
  - exists (ZLevelUsed zl). auto.
  - destruct H as [[? ?]|(l & -> & Hb & Hf)]; [done|].
    exists (LayerInvalid zl). simpl. rewrite Hb.
    destruct Hf as [-> | ->]; simpl; rewrite ?orb_true_r; auto.
Qed.

Lemma insertLayer_rejected_witness :
  is_Some (_layers (CanvasPainter true) !! CANVAS_ZLEVEL)
  ∧ ∃ m, (m = ZLevelUsed CANVAS_ZLEVEL ∨ m = LayerInvalid CANVAS_ZLEVEL)
       ∧ insertLayer CANVAS_ZLEVEL (Some 0%nat) (CanvasPainter true)
         = emit (LogError m) (CanvasPainter true)
       ∧ _layers (insertLayer CANVAS_ZLEVEL (Some 0%nat) (CanvasPainter true))
         = _layers (CanvasPainter true)
       ∧ _zlevelList (insertLayer CANVAS_ZLEVEL (Some 0%nat) (CanvasPainter true))
         = _zlevelList (CanvasPainter true)
       ∧ heap (insertLayer CANVAS_ZLEVEL (Some 0%nat) (CanvasPainter true))
         = heap (CanvasPainter true).
Proof.
  assert (H : is_Some (_layers (CanvasPainter true) !! CANVAS_ZLEVEL)).
  { exists 0%nat. vm_compute. reflexivity. }
  split; [exact H|].
  apply (insertLayer_rejected CANVAS_ZLEVEL (Some 0%nat) (CanvasPainter true)).
  left. exact H.
Defined.

(** ** Fields that only the constructor and [refresh] write *)

Lemma static_emit e p : static (emit e p) = static p.
Proof. reflexivity. Qed.

Lemma static_store l v p : static (store l v p) = static p.
Proof. reflexivity. Qed.

Lemma static_modify l f p : static (modify l f p) = static p.
Proof. reflexivity. Qed.

Lemma static_insertLayer zl layer p : static (insertLayer zl layer p) = static p.
Proof.
  unfold insertLayer. destruct (_layers p !! zl); [done|].
  destruct (negb _); [done|]. by destruct layer.
Qed.

Lemma static_getLayer zl virt p : static (getLayer zl virt p).1 = static p.
Proof.
  unfold getLayer. destruct (_layers p !! _); [done|].
  simpl. by rewrite static_insertLayer.
Qed.

Lemma static_each_builtin cb zs p p' :
  (∀ l q, static (cb l q) = static q) →
  each_builtin cb zs p = Some p' → static p' = static p.
Proof.
  intros Hcb. revert p. induction zs as [|z zs IH]; intros p H; simpl in H.
  - by inversion H.
  - destruct (_layers p !! z) as [l|]; [|done].
    apply IH in H. rewrite H. destruct (__builtin__ _); [apply Hcb|done].
Qed.

Lemma static_updatePrevLayer prev idx p : static (updatePrevLayer prev idx p) = static p.
Proof. by destruct prev. Qed.

Lemma static_detect_compositing els p : static (detect_compositing els p) = static p.
Proof.
  unfold detect_compositing. destruct (_singleCanvas p) eqn:?; [|done].
  destruct els; [done|]. by destruct (needs_compositing _ _).
Qed.

Lemma static_walk_step i e w :
  static (w_painter (walk_step i e w)) = static (w_painter w).
Proof.
  unfold walk_step.
  destruct (getLayer _ _ _) as [p1 l] eqn:Hg.
  assert (Hs : static p1 = static (w_painter w))
    by (rewrite <- (static_getLayer (requested_zlevel e (incrementalLayerCount w))
          (_needsManuallyCompositing (w_painter w)) (w_painter w)); by rewrite Hg).
  destruct (el_incremental e); simpl;
    repeat (match goal with |- context [if ?b then _ else _] => destruct b end; simpl);
    rewrite ?static_modify, ?static_updatePrevLayer, ?static_modify, ?static_emit,
      ?static_modify; done.
Qed.

Lemma static_walk els i w :
  static (w_painter (walk els i w).1) = static (w_painter w).
Proof.
  revert i w. induction els as [|e els IH]; intros i w; simpl; [done|].
  by rewrite IH, static_walk_step.
Qed.

Lemma static_updateLayerStatus els p p' :
  _updateLayerStatus els p = Some p' → static p' = static p.
Proof.
  unfold _updateLayerStatus, eachBuiltinLayer. intros H.
  destruct (each_builtin _ (_zlevelList p) p) as [p1|] eqn:H1; [|done]. simpl in H.
  apply static_each_builtin in H1; [|intros; apply static_modify].
  destruct (walk els 0 _) as [w i] eqn:Hw.
  apply static_each_builtin in H; [|intros; apply static_modify].
  rewrite H, static_updatePrevLayer.
  pose proof (static_walk els 0 {| w_painter := detect_compositing els p1;
    prevLayer := None; incrementalLayerCount := 0 |}) as Hs.
  rewrite Hw in Hs. simpl in Hs.
  by rewrite Hs, static_detect_compositing.
Qed.

Lemma static_paint_loop now n i layer paintAll useTimer startTime p :
  static (paint_loop now n i layer paintAll useTimer startTime p).1 = static p.
Proof.
  revert i p. induction n as [|n IH]; intros i p; simpl; [done|].
  unfold _doPaintEl.
  destruct useTimer; simpl.
  - destruct (15 <? _); simpl; [|rewrite IH; simpl];
      by destruct (__dirty _ || paintAll).
  - rewrite IH. by destruct (__dirty _ || paintAll).
Qed.

Lemma static_paint_layer now els paintAll layer p fin p' fin' :
  paint_layer now els paintAll layer (p, fin) = Some (p', fin') →
  static p' = static p.
Proof.
  unfold paint_layer. intros H.
  destruct (negb paintAll && incremental (deref p layer)); simpl in H.
  all: destruct (__startIndex (deref p layer) =? __endIndex (deref p layer));
    simpl in H.
  all: repeat match type of H with
       | context [if ?b then _ else _] => destruct b; simpl in H
       | context [at_index ?l ?i] => destruct (at_index l i); simpl in H; [|done]
       end.
  all: match type of H with
       | context [paint_loop ?a ?b ?c ?d ?e ?f ?g ?h] =>
           pose proof (static_paint_loop a b c d e f g h) as Hl;
           destruct (paint_loop a b c d e f g h) as [q j]
       end; simpl in *; inversion H; subst; rewrite static_modify, Hl; reflexivity.
Qed.

Lemma static_paint_layers now els paintAll layerList p fin p' fin' :
  paint_layers now els paintAll layerList (p, fin) = Some (p', fin') →
  static p' = static p.
Proof.
  revert p fin. induction layerList as [|l ls IH]; intros p fin H; simpl in H.
  - by inversion H.
  - destruct (paint_layer now els paintAll l (p, fin)) as [[q f]|] eqn:Hq; simpl in H; [|done]. apply IH in H. apply static_paint_layer in Hq. congruence.
Qed.

Lemma static_doPaintList now els paintAll p p' fin :
  _doPaintList now els paintAll p = Some (p', fin) → static p' = static p.
Proof.
  unfold _doPaintList. intros H.
  destruct (collect_layers _ _ _); simpl in H; [|done].
  by apply static_paint_layers in H.
Qed.

Lemma static_compositeManually p p' :
  _compositeManually p = Some p' → static p' = static p.
Proof.
  unfold _compositeManually, eachBuiltinLayer. intros H.
  pose proof (static_getLayer CANVAS_ZLEVEL false p) as Hg.
  destruct (getLayer CANVAS_ZLEVEL false p) as [q main]. simpl in *.
  apply static_each_builtin in H.
  - by rewrite H, static_emit.
  - intros l r. by destruct (virtual _).
Qed.

Lemma static_paintList now els paintAll redrawId p p' :
  _paintList now els paintAll redrawId p = Some p' → static p' = static p.
Proof.
  unfold _paintList. intros H.
  destruct (negb _); [by inversion H|].
  destruct (_updateLayerStatus els p) as [p1|] eqn:H1; simpl in H; [|done].
  destruct (_doPaintList now els paintAll p1) as [[p2 fin]|] eqn:H2; simpl in H; [|done].
  apply static_updateLayerStatus in H1. apply static_doPaintList in H2.
  destruct (_needsManuallyCompositing p2).
  - destruct (_compositeManually p2) as [p3|] eqn:H3; simpl in H; [|done].
    apply static_compositeManually in H3.
    inversion H; subst.
    transitivity (static p3); [by destruct (negb fin)|congruence].
  - simpl in H. inversion H; subst.
    transitivity (static p2); [by destruct (negb fin)|congruence].
Qed.

Lemma static_refresh_custom zs i p p' :
  refresh_custom zs i p = Some p' → static p' = static p.
Proof.
  revert i p. induction zs as [|z zs IH]; intros i p H; simpl in H.
  - by inversion H.
  - destruct (_layers p !! z); simpl in H; [|done]. apply IH in H.
    rewrite H. by destruct (negb _ && _).
Qed.

Lemma static_hover_loop rest i len kept hl p p' kept' :
  hover_loop rest i len kept hl p = Some (p', kept') → static p' = static p.
Proof.
  revert i len kept p. induction rest as [|m rest IH]; intros i len kept p H;
    simpl in H.
  - by inversion H.
  - destruct (__from m) as [o|]; [|done].
    destruct (negb (__zr o)); apply IH in H; [done|].
    rewrite H. by destruct (negb (invisible o)).
Qed.

Lemma static_refreshHover timsort p p' :
  refreshHover timsort p = Some p' → static p' = static p.
Proof.
  unfold refreshHover.
  set (p0 := match _hoverlayer p with Some hl => emit (Clear hl false) p | None => p end).
  assert (H0 : static p0 = static p) by (subst p0; by destruct (_hoverlayer p)).
  destruct (_hoverElements p) as [|m ms]; [intros H; by inversion H|].
  set (p1 := set_hoverElements (timsort (m :: ms)) p0).
  assert (H1 : static p1 = static p) by (by rewrite <- H0).
  destruct (_hoverlayer p1) as [hl|].
  - intros H.
    destruct (hover_loop _ _ _ _ _ _) as [[q kept]|] eqn:Hq; simpl in H; [|done].
    inversion H; subst p'. apply static_hover_loop in Hq.
    change (static q = static p). congruence.
  - pose proof (static_getLayer HOVER_LAYER_ZLEVEL false p1) as Hg.
    destruct (getLayer HOVER_LAYER_ZLEVEL false p1) as [q hl]. intros H.
    destruct (hover_loop _ _ _ _ _ _) as [[q' kept]|] eqn:Hq; simpl in H; [|done].
    inversion H; subst p'. apply static_hover_loop in Hq.
    change (static q' = static p). rewrite Hq.
    change (static q = static p). simpl in Hg. congruence.
Qed.

Lemma redrawId_refresh now timsort els paintAll random p p' :
  refresh now timsort els paintAll random p = Some p' →
  _redrawId p' = Some random.
Proof.
  unfold refresh. intros H.
  destruct (_paintList _ _ _ _ _) as [p1|] eqn:H1; simpl in H; [|done].
  destruct (refresh_custom _ _ _) as [p2|] eqn:H2; simpl in H; [|done].
  apply static_paintList in H1. apply static_refresh_custom in H2.
  apply static_refreshHover in H.
  assert (Hs : static p' = static (set_redrawId (Some random) p)) by congruence.
  by inversion Hs.
Qed.

(** ** Claim C3: cancellation of stale continuations *)

(** C3.  After a top-level [refresh] has stamped the generation token
    [random], every pending continuation whose captured token is a different
    one returns immediately when it runs: the painter is left exactly as it
    is, so no classification is done and nothing is painted. *)
Theorem stale_continuation_abandoned (now : nat → Z) (timsort : list Mirror → list Mirror)
    (els : list Element) (paintAll : bool) (random : Z) (p p' : Painter) (f : Frame) :
  refresh now timsort els paintAll random p = Some p' →
  f ∈ frames p' →
  fr_redrawId f ≠ Some random →
  _redrawId p' = Some random
  ∧ _paintList now (fr_list f) (fr_paintAll f) (fr_redrawId f) p' = Some p'.
Proof.
  intros H _ Hne. apply redrawId_refresh in H. split; [done|].
  unfold _paintList. rewrite H.
  rewrite bool_decide_false; [done|congruence].
Qed.

Lemma stale_continuation_abandoned_witness :
  ∃ p', refresh slow_clock id three_incremental false 2 pending_painter = Some p'
        ∧ mkFrame three_incremental false (Some 1) ∈ frames p'
        ∧ Some 1 ≠ Some 2
        ∧ _redrawId p' = Some 2
        ∧ _paintList slow_clock three_incremental false (Some 1) p' = Some p'.
Proof.
  eexists.
  assert (H : refresh slow_clock id three_incremental false 2 pending_painter = Some _)
    by (vm_compute; reflexivity).
  split; [exact H|].
  assert (Hin : mkFrame three_incremental false (Some 1)
                ∈ frames (default (CanvasPainter false)
                            (refresh slow_clock id three_incremental false 2 pending_painter))).
  { apply list_elem_of_lookup. exists 0%nat. vm_compute. reflexivity. }
  rewrite H in Hin. simpl in Hin.
  split; [exact Hin|]. split; [congruence|].
  exact (stale_continuation_abandoned slow_clock id three_incremental false 2
           pending_painter _ (mkFrame three_incremental false (Some 1)) H Hin
           ltac:(simpl; congruence)).
Defined.

(** ** Claim C9: [getLayer] on a single canvas *)

(** The constructor on a single canvas registers the main layer, an
    engine-built object, under [CANVAS_ZLEVEL]. *)
Lemma CanvasPainter_single :
  _singleCanvas (CanvasPainter true) = true
  ∧ _needsManuallyCompositing (CanvasPainter true) = false
  ∧ _layers (CanvasPainter true) !! CANVAS_ZLEVEL = Some 0%nat
  ∧ __builtin__ (deref (CanvasPainter true) 0%nat) = true
  ∧ _zlevelList (CanvasPainter true) = [CANVAS_ZLEVEL].
Proof. repeat split; vm_compute; reflexivity. Qed.

(** C9, as amended.  On a painter built on a single canvas, as long as
    manual compositing is off and the main layer is still registered under
    [CANVAS_ZLEVEL], [getLayer] ignores the z-level and the virtual flag: it
    returns that layer and leaves the painter as it is, so no layer is
    created and the z-level list does not change. *)
Theorem getLayer_single_canvas (p : Painter) (main : loc) (zl : Z) (virt : bool) :
  _singleCanvas p = true →
  _needsManuallyCompositing p = false →
  _layers p !! CANVAS_ZLEVEL = Some main →
  getLayer zl virt p = (p, main).
Proof.
  intros Hs Hn Hm. unfold getLayer. rewrite Hs, Hn. simpl. by rewrite Hm.
Qed.

Lemma getLayer_single_canvas_witness :
  _singleCanvas (CanvasPainter true) = true
  ∧ _needsManuallyCompositing (CanvasPainter true) = false
  ∧ _layers (CanvasPainter true) !! CANVAS_ZLEVEL = Some 0%nat
  ∧ getLayer 5000 true (CanvasPainter true) = (CanvasPainter true, 0%nat).
Proof.
  destruct CanvasPainter_single as (Hs & Hn & Hm & _).
  split; [exact Hs|]. split; [exact Hn|]. split; [exact Hm|].
  exact (getLayer_single_canvas (CanvasPainter true) 0%nat 5000 true Hs Hn Hm).
Defined.

(** C9 as it was stated fails once the client has removed the main layer
    with [delLayer]: the painter is still a single-canvas painter without
    manual compositing, but [getLayer] finds nothing under [CANVAS_ZLEVEL],
    so it builds a layer object, registers it under that key and gives it
    the virtual flag of the call.  The painter changes, the store and the
    z-level list grow, and the flag is not ignored. *)
Lemma getLayer_single_canvas_counterexample :
  _singleCanvas mainless_painter = true
  ∧ _needsManuallyCompositing mainless_painter = false
  ∧ (getLayer 5000 true mainless_painter).1 ≠ mainless_painter
  ∧ _zlevelList mainless_painter = []
  ∧ _zlevelList (getLayer 5000 true mainless_painter).1 = [CANVAS_ZLEVEL]
  ∧ length (heap (getLayer 5000 true mainless_painter).1)
    = S (length (heap mainless_painter))
  ∧ (getLayer 5000 true mainless_painter).2 = length (heap mainless_painter)
  ∧ virtual (deref (getLayer 5000 true mainless_painter).1
               (getLayer 5000 true mainless_painter).2) = true
  ∧ virtual (deref (getLayer 5000 false mainless_painter).1
               (getLayer 5000 false mainless_painter).2) = false.
Proof.
  split; [reflexivity|]. split; [reflexivity|]. split.
  - intros H. apply (f_equal _zlevelList) in H. vm_compute in H. discriminate H.
  - repeat split; vm_compute; reflexivity.
Qed.

(** ** Claim C10: the footprint of [configLayer] *)

Lemma merge_layer_idemp c L : merge_layer c (merge_layer c L) = merge_layer c L.
Proof.
  unfold merge_layer, merge, set_props. simpl. f_equal.
  by rewrite (assoc_L (∪)), (idemp_L (∪)).
Qed.


Lemma config_target_dec zl zs (m : gmap Z loc) l :
  config_target zl zs m l ∨ ¬ config_target zl zs m l.
Proof.
  destruct (decide (Exists (λ k, (k = zl ∨ k = zl + EL_AFTER_INCREMENTAL_INC)
                                 ∧ m !! k = Some l) zs)) as [H|H].
  - left. apply Exists_exists in H as (k & ? & ? & ?). by exists k.
  - right. intros (k & ? & ? & ?). apply H, Exists_exists. by exists k.
Qed.

Lemma config_loop zl stored zs q :
  let q' := foldl (config_step zl stored) q zs in
  _layers q' = _layers q ∧ _zlevelList q' = _zlevelList q
  ∧ _layerConfig q' = _layerConfig q
  ∧ length (heap q') = length (heap q)
  ∧ ∀ l L, heap q !! l = Some L →
      (config_target zl zs (_layers q) l → heap q' !! l = Some (merge_layer stored L))
      ∧ (¬ config_target zl zs (_layers q) l → heap q' !! l = Some L).
Proof.
  revert q. induction zs as [|k zs IH]; intros q; simpl.
  { repeat split; try done. intros (k & Hk & _). by apply elem_of_nil in Hk. }
  specialize (IH (config_step zl stored q k)).
  destruct IH as (IH1 & IH2 & IH3 & IH4 & IH5).
  assert (Hreg : _layers (config_step zl stored q k) = _layers q
                 ∧ _zlevelList (config_step zl stored q k) = _zlevelList q
                 ∧ _layerConfig (config_step zl stored q k) = _layerConfig q
                 ∧ length (heap (config_step zl stored q k)) = length (heap q)).
  { unfold config_step. destruct (_ || _); [|done].
    destruct (_layers q !! k); [|done]. simpl. by rewrite length_insert. }
  destruct Hreg as (R1 & R2 & R3 & R4).
  rewrite R1 in IH1, IH5.
  split; [done|]. split; [congruence|]. split; [congruence|]. split; [congruence|].
  intros l L H. split.
  - intros (k' & Hk' & Hz & Hl).
    destruct (decide ((k = zl ∨ k = zl + EL_AFTER_INCREMENTAL_INC)
                      ∧ _layers q !! k = Some l)) as [[Hk Hkl]|Hnot].
    + (* the head key writes to [l] *)
      assert (Hstep : heap (config_step zl stored q k) !! l
                      = Some (merge_layer stored L)).
      { unfold config_step.
        replace ((k =? zl) || (k =? zl + EL_AFTER_INCREMENTAL_INC)) with true
          by (symmetry; destruct Hk as [-> | ->]; rewrite Z.eqb_refl;
              [done|apply orb_true_r]).
        rewrite Hkl. unfold modify, store. simpl.
        rewrite (heap_lookup_deref _ _ _ H).
        apply list_lookup_insert_eq. by eapply lookup_lt_Some. }
      destruct (IH5 l _ Hstep) as [Hyes Hno].
      destruct (config_target_dec zl zs (_layers q) l) as [Ht|Ht].
      * rewrite (Hyes Ht). by rewrite merge_layer_idemp.
      * by apply Hno.
    + (* the head key leaves [l] alone *)
      assert (Hstep : heap (config_step zl stored q k) !! l = Some L).
      { unfold config_step. destruct (_ || _) eqn:Hb; [|done].
        destruct (_layers q !! k) as [l0|] eqn:Hl0; [|done].
        unfold modify, store. simpl. rewrite list_lookup_insert_ne; [done|].
        intros ->. apply Hnot. split; [|done].
        apply orb_true_iff in Hb. destruct Hb as [Hb|Hb]; apply Z.eqb_eq in Hb; auto. }
      destruct (IH5 l _ Hstep) as [Hyes _]. apply Hyes.
      exists k'. repeat split; try done.
      apply elem_of_cons in Hk' as [->|?]; [|done].
      exfalso. apply Hnot. by split.
  - intros Hnt.
    assert (Hstep : heap (config_step zl stored q k) !! l = Some L).
    { unfold config_step. destruct (_ || _) eqn:Hb; [|done].
      destruct (_layers q !! k) as [l0|] eqn:Hl0; [|done].
      unfold modify, store. simpl. rewrite list_lookup_insert_ne; [done|].
      intros ->. apply Hnt. exists k. split; [apply list_elem_of_here|].
      split; [|done].
      apply orb_true_iff in Hb. destruct Hb as [Hb|Hb]; apply Z.eqb_eq in Hb; auto. }
    destruct (IH5 l _ Hstep) as [_ Hno]. apply Hno.
    intros (k' & Hk' & Hz & Hl). apply Hnt. exists k'. repeat split; try done.
    by apply list_elem_of_further.
Qed.



(** ** Claim C5: the z-level list stays sorted *)

Lemma scan_from_split zl a zs i0 :
  StronglySorted Z.lt (a :: zs) → a < zl → zl ∉ a :: zs →
  ∃ l1 l2, a :: zs = l1 ++ l2
           ∧ Z.of_nat (length l1) = scan_from zl (a :: zs) i0 - i0 + 1
           ∧ Forall (λ x, x < zl) l1 ∧ Forall (λ x, zl < x) l2.
Proof.
  revert a i0. induction zs as [|b zs IH]; intros a i0 Hs Ha Hin.
  - exists [a], []. simpl. repeat split; auto with lia.
  - simpl. destruct ((a <? zl) && (zl <? b)) eqn:Hc.
    + apply andb_true_iff in Hc as [_ Hb%Z.ltb_lt].
      exists [a], (b :: zs). simpl. repeat split; auto with lia.
      apply StronglySorted_cons in Hs as [_ Hs].
      apply StronglySorted_cons in Hs as [Hall _].
      constructor; [done|]. eapply Forall_impl; [exact Hall|]. simpl. lia.
    + assert (Hb : b < zl).
      { apply andb_false_iff in Hc as [Hc|Hc].
        - apply Z.ltb_ge in Hc. lia.
        - apply Z.ltb_ge in Hc.
          assert (b ≠ zl)
            by (intros ->; apply Hin, list_elem_of_further, list_elem_of_here).
          lia. }
      apply StronglySorted_cons in Hs as [_ Hs].
      destruct (IH b (i0 + 1) Hs Hb) as (l1 & l2 & Heq & Hlen & H1 & H2).
      { intros H. apply Hin. by apply list_elem_of_further. }
      exists (a :: l1), l2. rewrite Heq. simpl in *.
      repeat split; auto with lia.
Qed.

Lemma splice_in_split zl zs :
  StronglySorted Z.lt zs → zl ∉ zs →
  ∃ l1 l2, zs = l1 ++ l2
           ∧ splice_in (predecessor_index zl zs + 1) zl zs = l1 ++ zl :: l2
           ∧ Forall (λ x, x < zl) l1 ∧ Forall (λ x, zl < x) l2.
Proof.
  intros Hs Hin. destruct zs as [|a zs].
  - exists [], []. by repeat split.
  - unfold predecessor_index. destruct (a <? zl) eqn:Ha.
    + apply Z.ltb_lt in Ha.
      destruct (scan_from_split zl a zs 0 Hs Ha Hin) as (l1 & l2 & Heq & Hlen & H1 & H2).
      exists l1, l2. repeat split; try done.
      unfold splice_in.
      replace (Z.to_nat (scan_from zl (a :: zs) 0 + 1)) with (length l1) by lia.
      by rewrite Heq, take_app_length, drop_app_length.
    + apply Z.ltb_ge in Ha.
      assert (a ≠ zl) by (intros ->; apply Hin, list_elem_of_here).
      exists [], (a :: zs). repeat split; try done.
      apply StronglySorted_cons in Hs as [Hall _].
      constructor; [lia|]. eapply Forall_impl; [exact Hall|]. simpl. lia.
Qed.

Lemma splice_in_sorted zl zs :
  StronglySorted Z.lt zs → zl ∉ zs →
  StronglySorted Z.lt (splice_in (predecessor_index zl zs + 1) zl zs).
Proof.
  intros Hs Hin.
  destruct (splice_in_split zl zs Hs Hin) as (l1 & l2 & Heq & -> & H1 & H2).
  subst zs. apply StronglySorted_app in Hs as (Hx & Hs1 & Hs2).
  apply StronglySorted_app. split; [|split; [done|]].
  - intros x1 x2 Hx1 Hx2. apply elem_of_cons in Hx2 as [-> | Hx2].
    + by eapply Forall_forall in H1.
    + by apply Hx.
  - by apply StronglySorted_cons.
Qed.

Lemma splice_in_perm i x zs : splice_in i x zs ≡ₚ x :: zs.
Proof.
  unfold splice_in. rewrite <- Permutation_middle. by rewrite take_drop.
Qed.

Lemma indexOf_split zl l1 l2 i0 :
  zl ∉ l1 → indexOf (l1 ++ zl :: l2) zl i0 = i0 + Z.of_nat (length l1).
Proof.
  revert i0. induction l1 as [|a l1 IH]; intros i0 Hin; simpl.
  - rewrite Z.eqb_refl. lia.
  - destruct (a =? zl) eqn:Ha.
    + apply Z.eqb_eq in Ha. subst. exfalso. apply Hin, list_elem_of_here.
    + rewrite IH; [lia|]. intros H. by apply Hin, list_elem_of_further.
Qed.

Lemma splice_out_indexOf zl l1 l2 :
  zl ∉ l1 → splice_out (indexOf (l1 ++ zl :: l2) zl 0) (l1 ++ zl :: l2) = l1 ++ l2.
Proof.
  intros Hin. rewrite indexOf_split by done. unfold splice_out.
  replace (0 + Z.of_nat (length l1) <? 0) with false by (symmetry; apply Z.ltb_ge; lia).
  replace (Z.to_nat (0 + Z.of_nat (length l1))) with (length l1) by lia.
  rewrite take_app_length.
  replace (S (length l1)) with (length (l1 ++ [zl])) by (rewrite length_app; simpl; lia).
  rewrite (cons_middle zl l1 l2), (assoc_L (++)). by rewrite drop_app_length.
Qed.

Lemma registry_ok_insertLayer zl layer p :
  registry_ok p → registry_ok (insertLayer zl layer p).
Proof.
  intros [Hs Hk]. unfold insertLayer.
  destruct (_layers p !! zl) eqn:Hz; [done|].
  destruct (negb _); [done|]. destruct layer as [l|]; [|done].
  assert (Hin : zl ∉ _zlevelList p).
  { intros H. apply Hk in H. rewrite Hz in H. by destruct H. }
  split; simpl.
  - by apply splice_in_sorted.
  - intros k. rewrite splice_in_perm, elem_of_cons, Hk.
    destruct (decide (k = zl)) as [->|Hne].
    + rewrite lookup_insert_eq. split; [by eauto|by left].
    + rewrite lookup_insert_ne by done. split; [by intros [?|?]|by right].
Qed.

Lemma registry_ok_delLayer zl p : registry_ok p → registry_ok (delLayer zl p).
Proof.
  intros [Hs Hk]. unfold delLayer.
  destruct (_layers p !! zl) eqn:Hz; [|done].
  assert (Hin : zl ∈ _zlevelList p) by (apply Hk; by rewrite Hz).
  apply list_elem_of_split in Hin as (l1 & l2 & Heq).
  rewrite Heq in Hs. pose proof Hs as Hs'.
  apply StronglySorted_app in Hs' as (Hx & Hs1 & Hs2).
  apply StronglySorted_cons in Hs2 as [Hgt Hs2].
  assert (Hn1 : zl ∉ l1).
  { intros H. specialize (Hx zl zl H (list_elem_of_here _ _)). lia. }
  assert (Hn2 : zl ∉ l2).
  { intros H. eapply Forall_forall in Hgt; [|exact H]. lia. }
  split; simpl; rewrite Heq, splice_out_indexOf by done.
  - apply StronglySorted_app. split; [|done].
    intros x1 x2 H1 H2. apply Hx; [done|by apply list_elem_of_further].
  - intros k. destruct (decide (k = zl)) as [->|Hne].
    + rewrite lookup_delete_eq. split; [|by intros []].
      intros H. apply elem_of_app in H as [?|?]; done.
    + rewrite lookup_delete_ne by done. rewrite <- Hk, Heq.
      rewrite !elem_of_app, elem_of_cons.
      split; [tauto|intros [?|[?|?]]; [by left|done|by right]].
Qed.

(** C5.  With a strictly ascending z-level list that agrees with the layer
    map, inserting a valid layer under a key that is not registered yields a
    list that is again strictly ascending and holds the old keys and the new
    one, each once; and every [insertLayer] and every [delLayer] preserves
    the invariant. *)
Theorem insertLayer_keeps_sorted (p : Painter) :
  registry_ok p →
  (∀ zl l, _layers p !! zl = None → isLayerValid (Some (deref p l)) = true →
     StronglySorted Z.lt (_zlevelList (insertLayer zl (Some l) p))
     ∧ _zlevelList (insertLayer zl (Some l) p) ≡ₚ zl :: _zlevelList p
     ∧ _layers (insertLayer zl (Some l) p) = <[zl := l]> (_layers p))
  ∧ (∀ zl layer, registry_ok (insertLayer zl layer p))
  ∧ (∀ zl, registry_ok (delLayer zl p)).
Proof.
  intros Hok. split; [|split].
  - intros zl l Hz Hv.
    split; [apply (registry_ok_insertLayer zl (Some l) p Hok)|].
    unfold insertLayer. rewrite Hz.
    change (deref p <$> Some l) with (Some (deref p l)). rewrite Hv. simpl.
    split; [apply splice_in_perm|done].
  - intros. by apply registry_ok_insertLayer.
  - intros. by apply registry_ok_delLayer.
Qed.

Lemma registry_ok_CanvasPainter b : registry_ok (CanvasPainter b).
Proof.
  destruct b; split; simpl.
  - repeat constructor.
  - intros k. rewrite list_elem_of_singleton.
    destruct (decide (k = CANVAS_ZLEVEL)) as [->|Hne].
    + rewrite lookup_insert_eq. split; [by eauto|done].
    + rewrite lookup_insert_ne by done. rewrite lookup_empty.
      split; [done|]. by intros [].
  - constructor.
  - intros k. rewrite lookup_empty. split; [by intros ?%elem_of_nil|by intros []].
Qed.

Lemma insertLayer_keeps_sorted_witness :
  registry_ok custom_layer_painter
  ∧ _layers custom_layer_painter !! 5000 = None
  ∧ isLayerValid (Some (deref custom_layer_painter 1%nat)) = true
  ∧ StronglySorted Z.lt (_zlevelList (insertLayer 5000 (Some 1%nat) custom_layer_painter))
  ∧ _zlevelList (insertLayer 5000 (Some 1%nat) custom_layer_painter)
    ≡ₚ 5000 :: _zlevelList custom_layer_painter
  ∧ _layers (insertLayer 5000 (Some 1%nat) custom_layer_painter)
    = <[5000 := 1%nat]> (_layers custom_layer_painter).
Proof.
  assert (Hok : registry_ok custom_layer_painter) by exact (registry_ok_CanvasPainter true).
  assert (Hz : _layers custom_layer_painter !! 5000 = None) by (vm_compute; reflexivity).
  assert (Hv : isLayerValid (Some (deref custom_layer_painter 1%nat)) = true)
    by (vm_compute; reflexivity).
  split; [exact Hok|]. split; [exact Hz|]. split; [exact Hv|].
  destruct (insertLayer_keeps_sorted custom_layer_painter Hok) as [H _].
  exact (H 5000 1%nat Hz Hv).
Defined.

(** ** The element loop *)

Lemma brushes_0 layer e i : brushes layer e i 0 = [].
Proof. reflexivity. Qed.

Lemma brushes_S layer e i k :
  brushes layer e i (S k) = Brush layer i (i =? e - 1) :: brushes layer e (i + 1) k.
Proof.
  unfold brushes. rewrite (seqZ_cons i (Z.of_nat (S k))) by lia.
  replace (Z.pred (Z.of_nat (S k))) with (Z.of_nat k) by lia.
  by replace (Z.succ i) with (i + 1) by lia.
Qed.

Lemma painter_eta p : set_ticks (ticks p) (set_journal (journal p) p) = p.
Proof. by destruct p. Qed.

(** The loop paints [k] consecutive elements and touches nothing but the
    journal and the clock.  It ends either at the end of the range or, under
    the timer, through [break], and then the index it returns is the index
    of the element painted last. *)
Lemma paint_loop_spec now n i layer paintAll useTimer startTime p :
  ∃ k : nat,
    (k ≤ n)%nat
    ∧ (paint_loop now n i layer paintAll useTimer startTime p).1
      = set_ticks (ticks p + (if useTimer then k else 0))%nat
          (set_journal
             (journal p ++ (if __dirty (deref p layer) || paintAll
                            then brushes layer (__endIndex (deref p layer)) i k
                            else [])) p)
    ∧ ((k = n ∧ (paint_loop now n i layer paintAll useTimer startTime p).2
                = i + Z.of_nat k)
       ∨ (useTimer = true ∧ (0 < k)%nat
          ∧ 15 < now (ticks p + k - 1)%nat - startTime
          ∧ (paint_loop now n i layer paintAll useTimer startTime p).2
            = i + Z.of_nat k - 1)).
Proof.
  revert i p. induction n as [|n IH]; intros i p.
  { exists 0%nat. simpl. split; [lia|]. split.
    - replace (if useTimer then 0%nat else 0%nat) with 0%nat by (by destruct useTimer).
      rewrite Nat.add_0_r, brushes_0.
      replace (if __dirty (deref p layer) || paintAll then [] else [])
        with (@nil Event) by (by destruct (_ || _)).
      by rewrite app_nil_r, painter_eta.
    - left. split; [done|lia]. }
  simpl.
  set (p1 := _doPaintEl i layer paintAll (i =? __endIndex (deref p layer) - 1) p).
  assert (Hp1 : p1 = set_journal (journal p ++ (if __dirty (deref p layer) || paintAll
                   then brushes layer (__endIndex (deref p layer)) i 1 else [])) p).
  { subst p1. unfold _doPaintEl, emit.
    destruct (__dirty (deref p layer) || paintAll); [by rewrite brushes_S, brushes_0|].
    rewrite app_nil_r. by destruct p. }
  clearbody p1.
  assert (Hd : deref p1 layer = deref p layer) by (by rewrite Hp1).
  assert (Ht1 : ticks p1 = ticks p) by (by rewrite Hp1).
  assert (Hj1 : ∀ k t, set_ticks t (set_journal
             (journal p1 ++ (if __dirty (deref p layer) || paintAll
                            then brushes layer (__endIndex (deref p layer)) (i + 1) k
                            else [])) p1)
           = set_ticks t (set_journal
             (journal p ++ (if __dirty (deref p layer) || paintAll
                            then brushes layer (__endIndex (deref p layer)) i (S k)
                            else [])) p)).
  { intros k t. rewrite Hp1. unfold set_ticks, set_journal. simpl. f_equal.
    rewrite <- (assoc_L (++)). f_equal.
    destruct (__dirty (deref p layer) || paintAll); [|done].
    by rewrite (brushes_S _ _ i k), brushes_S, brushes_0. }
  destruct useTimer.
  - unfold Date_now.
    destruct (15 <? now (ticks p1) - startTime) eqn:Ht.
    + exists 1%nat. cbn [fst snd]. split; [lia|]. split.
      * rewrite Ht1, Nat.add_1_r. by rewrite Hp1.
      * right. repeat split; try lia.
        apply Z.ltb_lt in Ht. rewrite Ht1 in Ht.
        by replace (ticks p + 1 - 1)%nat with (ticks p) by lia.
    + destruct (IH (i + 1) (set_ticks (S (ticks p1)) p1)) as (k & Hk & Hst & Hend).
      exists (S k). split; [lia|]. split.
      * rewrite Hst. change (deref (set_ticks (S (ticks p1)) p1) layer) with (deref p1 layer).
        rewrite Hd. change (journal (set_ticks (S (ticks p1)) p1)) with (journal p1).
        change (ticks (set_ticks (S (ticks p1)) p1)) with (S (ticks p1)).
        rewrite Ht1. rewrite <- (Hj1 k).
        replace (ticks p + S k)%nat with (S (ticks p) + k)%nat by lia. reflexivity.
      * destruct Hend as [[-> He]|(_ & Hk0 & Hlate & He)].
        -- left. split; [done|]. rewrite He. lia.
        -- right. split; [done|]. split; [lia|]. split.
           ++ simpl in Hlate. rewrite Ht1 in Hlate.
              by replace (ticks p + S k - 1)%nat with (S (ticks p) + k - 1)%nat by lia.
           ++ rewrite He. lia.
  - destruct (IH (i + 1) p1) as (k & Hk & Hst & Hend).
    exists (S k). split; [lia|]. split.
    + rewrite Hst, Hd, Ht1. rewrite <- (Hj1 k). by rewrite Nat.add_0_r.
    + destruct Hend as [[-> He]|(? & _)]; [|done].
      left. split; [done|]. rewrite He. lia.
Qed.

(** ** Claim C2: where the timer leaves the draw index *)

(** Whenever the element loop is left through [break], the index it hands
    to [__drawIndex] is the index of the element painted last, one short of
    the first element not painted yet. *)
Lemma paint_loop_break_index now n i layer paintAll startTime p :
  (paint_loop now n i layer paintAll true startTime p).2 < i + Z.of_nat n →
  ∃ k : nat, (0 < k)%nat
    ∧ (paint_loop now n i layer paintAll true startTime p).2 = i + Z.of_nat k - 1
    ∧ journal (paint_loop now n i layer paintAll true startTime p).1
      = journal p ++ (if __dirty (deref p layer) || paintAll
                      then brushes layer (__endIndex (deref p layer)) i k else []).
Proof.
  intros Hlt.
  destruct (paint_loop_spec now n i layer paintAll true startTime p)
    as (k & Hk & Hst & [[-> He]|(_ & Hk0 & _ & He)]); [lia|].
  exists k. split; [done|]. split; [done|]. by rewrite Hst.
Qed.

(** C2, evaluated.  Three dirty incremental elements share one layer and the
    clock advances by 16 at every reading.  The first pass clears the layer,
    paints element 0 and stops; it leaves [__drawIndex] at 0, the element it
    has just painted, not at 1.  With a single element the pass paints the
    whole range and still reports that it has not finished. *)
Theorem break_leaves_draw_index_on_painted_element :
  (∃ p1 p2,
      _updateLayerStatus three_incremental (CanvasPainter false) = Some p1
      ∧ _doPaintList slow_clock three_incremental false p1 = Some (p2, false)
      ∧ journal p2 = [Clear 0%nat true; Brush 0%nat 0 false]
      ∧ __startIndex (deref p2 0%nat) = 0
      ∧ __endIndex (deref p2 0%nat) = 3
      ∧ __drawIndex (deref p2 0%nat) = 0)
  ∧ (∃ p1 p2,
      _updateLayerStatus [el 0 true true] (CanvasPainter false) = Some p1
      ∧ _doPaintList slow_clock [el 0 true true] false p1 = Some (p2, false)
      ∧ journal p2 = [Clear 0%nat true; Brush 0%nat 0 true]
      ∧ __endIndex (deref p2 0%nat) = 1
      ∧ __drawIndex (deref p2 0%nat) = 0).
Proof.
  split.
  - eexists _, _. split; [vm_compute; reflexivity|].
    split; [vm_compute; reflexivity|]. repeat split; vm_compute; reflexivity.
  - eexists _, _. split; [vm_compute; reflexivity|].
    split; [vm_compute; reflexivity|]. repeat split; vm_compute; reflexivity.
Qed.

(** ** [getLayer]: lookup and creation *)

Lemma getLayer_found zl virt p l :
  _layers p !! resolve p zl = Some l → getLayer zl virt p = (p, l).
Proof. intros H. unfold getLayer. fold (resolve p zl). by rewrite H. Qed.

Lemma created_layer_builtin p zl virt : __builtin__ (created_layer p zl virt) = true.
Proof.
  unfold created_layer. destruct virt, (_layerConfig p !! zl); reflexivity.
Qed.

Lemma getLayer_fresh zl virt p :
  _layers p !! resolve p zl = None →
  getLayer zl virt p
  = (set_layers (<[resolve p zl := length (heap p)]> (_layers p))
       (set_zlevelList
          (splice_in (predecessor_index (resolve p zl) (_zlevelList p) + 1)
             (resolve p zl) (_zlevelList p))
          (set_heap (heap p ++ [created_layer p (resolve p zl) virt]) p)),
     length (heap p)).
Proof.
  intros H. unfold getLayer. fold (resolve p zl). rewrite H.
  fold (created_layer p (resolve p zl) virt).
  unfold alloc, insertLayer. cbn [_layers set_heap]. rewrite H.
  replace (isLayerValid _) with true; [reflexivity|].
  symmetry. unfold deref. cbn [fmap option_fmap option_map heap set_heap].
  rewrite lookup_total_app_r by lia. rewrite Nat.sub_diag. simpl.
  by rewrite created_layer_builtin.
Qed.

Lemma resolve_getLayer zl virt p k : resolve (getLayer zl virt p).1 k = resolve p k.
Proof.
  unfold resolve. destruct (_layers p !! resolve p zl) as [l|] eqn:H.
  - by rewrite (getLayer_found _ _ _ _ H).
  - by rewrite (getLayer_fresh _ _ _ H).
Qed.

(** [getLayer] is a lookup with creation on demand.  The layer it returns is
    registered under the resolved key, so a second call (with any virtual
    flag) returns the same layer and changes nothing; no other key and no
    existing layer object is touched; and a layer it creates is a new,
    engine-built object that carries the resolved key. *)
Theorem getLayer_registers (zl : Z) (virt : bool) (p : Painter) :
  let p' := (getLayer zl virt p).1 in
  let l := (getLayer zl virt p).2 in
  _layers p' !! resolve p zl = Some l
  ∧ (∀ virt', getLayer zl virt' p' = (p', l))
  ∧ (∀ k, k ≠ resolve p zl → _layers p' !! k = _layers p !! k)
  ∧ (∀ l0 L, heap p !! l0 = Some L → heap p' !! l0 = Some L)
  ∧ (_layers p !! resolve p zl = None →
       heap p !! l = None
       ∧ __builtin__ (deref p' l) = true
       ∧ zlevel (deref p' l) = resolve p zl
       ∧ virtual (deref p' l) = virt).
Proof.
  intros p' l.
  assert (H1 : _layers p' !! resolve p zl = Some l).
  { subst p' l. destruct (_layers p !! resolve p zl) as [l|] eqn:H.
    - by rewrite (getLayer_found _ _ _ _ H).
    - rewrite (getLayer_fresh _ _ _ H). cbn. apply lookup_insert_eq. }
  split; [exact H1|]. split.
  { intros virt'. apply getLayer_found. subst p'. by rewrite resolve_getLayer. }
  subst p' l. destruct (_layers p !! resolve p zl) as [l|] eqn:H.
  - rewrite (getLayer_found _ _ _ _ H). cbn. repeat split; try done.
  - rewrite (getLayer_fresh _ _ _ H). cbn. split; [|split].
    + intros k Hk. by rewrite lookup_insert_ne.
    + intros l0 L HL. by apply lookup_app_l_Some.
    + intros _. split; [by apply lookup_ge_None_2|].
      unfold deref. cbn. rewrite lookup_total_app_r by lia.
      rewrite Nat.sub_diag. cbn.
      unfold created_layer.
      destruct virt, (_layerConfig p !! resolve p zl); by repeat split.
Qed.

(** ** Insertion and deletion compose *)

Lemma splice_in_take_drop i x zs :
  splice_in i x zs = take (Z.to_nat i) zs ++ x :: drop (Z.to_nat i) zs.
Proof. reflexivity. Qed.

Lemma not_elem_of_take (x : Z) n zs : x ∉ zs → x ∉ take n zs.
Proof.
  intros H Hin. apply H. apply elem_of_take in Hin as (i & Hi & _).
  by eapply list_elem_of_lookup_2.
Qed.

Lemma painter_registry_eta p :
  set_zlevelList (_zlevelList p) (set_layers (_layers p) p) = p.
Proof. by destruct p. Qed.

(** Deleting a layer right after inserting it restores the painter: the
    layer map and the z-level list are exactly as before the insertion.
    (The key must be unused, in the map and in the list, and the layer
    valid, for the insertion to take place; the layer is not virtual, so
    that it has a DOM node in the document for [delLayer] to remove.) *)
Theorem delLayer_insertLayer (zl : Z) (l : loc) (p : Painter) :
  _layers p !! zl = None →
  zl ∉ _zlevelList p →
  isLayerValid (Some (deref p l)) = true →
  virtual (deref p l) = false →
  delLayer zl (insertLayer zl (Some l) p) = p.
Proof.
  intros Hz Hin Hv _. unfold insertLayer. rewrite Hz.
  change (deref p <$> Some l) with (Some (deref p l)). rewrite Hv. cbn [negb].
  unfold delLayer. cbn [_layers set_layers set_zlevelList _zlevelList].
  rewrite lookup_insert_eq. rewrite delete_insert_id by done.
  rewrite splice_in_take_drop, splice_out_indexOf by (by apply not_elem_of_take).
  rewrite take_drop. rewrite <- (painter_registry_eta p) at 3. by destruct p.
Qed.

Lemma delLayer_insertLayer_witness :
  _layers custom_layer_painter !! 5000 = None
  ∧ (5000 ∉ _zlevelList custom_layer_painter)
  ∧ isLayerValid (Some (deref custom_layer_painter 1%nat)) = true
  ∧ virtual (deref custom_layer_painter 1%nat) = false
  ∧ delLayer 5000 (insertLayer 5000 (Some 1%nat) custom_layer_painter)
    = custom_layer_painter.
Proof.
  assert (Hz : _layers custom_layer_painter !! 5000 = None) by (vm_compute; reflexivity).
  assert (Hin : 5000 ∉ _zlevelList custom_layer_painter).
  { intros H. apply list_elem_of_singleton in H. discriminate. }
  assert (Hv : isLayerValid (Some (deref custom_layer_painter 1%nat)) = true)
    by (vm_compute; reflexivity).
  assert (Hnv : virtual (deref custom_layer_painter 1%nat) = false)
    by (vm_compute; reflexivity).
  split; [exact Hz|]. split; [exact Hin|]. split; [exact Hv|]. split; [exact Hnv|].
  exact (delLayer_insertLayer 5000 1%nat custom_layer_painter Hz Hin Hv Hnv).
Defined.

(** ** Layers seen through their keys *)

Lemma layer_at_Some p k L :
  layer_at p k = Some L ↔ ∃ l, _layers p !! k = Some l ∧ heap p !! l = Some L.
Proof.
  unfold layer_at. destruct (_layers p !! k) as [l|]; simpl.
  - split; [by eauto|]. by intros (l' & [= <-] & ?).
  - split; [done|]. by intros (l' & ? & ?).
Qed.

Lemma layer_at_deref p k l :
  closed p → _layers p !! k = Some l → layer_at p k = Some (deref p l).
Proof.
  intros Hc Hk. apply layer_at_Some. exists l. split; [done|]. unfold loc in *.
  destruct (lookup_lt_is_Some_2 (heap p) l (Hc _ _ Hk)) as [L HL].
  by rewrite HL, (heap_lookup_deref _ _ _ HL).
Qed.

Lemma layer_at_modify p k l f k' :
  closed p → distinct p → _layers p !! k = Some l →
  layer_at (modify l f p) k'
  = if decide (k' = k) then f <$> layer_at p k else layer_at p k'.
Proof.
  intros Hc Hd Hk.
  destruct (decide (k' = k)) as [->|Hne].
  - rewrite (layer_at_deref p k l Hc Hk). simpl. apply layer_at_Some.
    exists l. split; [done|]. unfold modify, store. cbn [heap set_heap].
    apply list_lookup_insert_eq. by eapply Hc.
  - unfold layer_at, modify, store. cbn [_layers heap set_heap].
    destruct (_layers p !! k') as [l'|] eqn:Hk'; [|done]. simpl.
    apply list_lookup_insert_ne. intros ->. apply Hne. by eapply Hd.
Qed.

Lemma wf_modify l f p : wf p → wf (modify l f p).
Proof.
  intros (Ho & Hc & Hd). split; [exact Ho|]. split; [|exact Hd].
  intros k l' H. unfold modify, store. cbn. rewrite length_insert. by eapply Hc.
Qed.

Lemma wf_emit e p : wf p → wf (emit e p).
Proof. by intros (Ho & Hc & Hd). Qed.

Lemma layer_at_emit e p k : layer_at (emit e p) k = layer_at p k.
Proof. reflexivity. Qed.

Lemma mode_modify l f p : mode (modify l f p) = mode p.
Proof. reflexivity. Qed.

Lemma resolve_mode p q k : mode p = mode q → resolve p k = resolve q k.
Proof. unfold mode, resolve. by intros [= -> ->]. Qed.

Lemma registry_ok_NoDup p : registry_ok p → NoDup (_zlevelList p).
Proof.
  intros [Hs _]. induction Hs as [|a l Hs IH Ha]; constructor; [|done].
  intros Hin. eapply Forall_forall in Ha; [|exact Hin]. lia.
Qed.

Lemma getLayer_wf zl virt p :
  wf p →
  let k := resolve p zl in
  let p' := (getLayer zl virt p).1 in
  let l := (getLayer zl virt p).2 in
  wf p'
  ∧ mode p' = mode p
  ∧ journal p' = journal p
  ∧ _layers p' !! k = Some l
  ∧ (∀ k' l', _layers p !! k' = Some l' → _layers p' !! k' = Some l')
  ∧ (∀ k', k' ≠ k → _layers p' !! k' = _layers p !! k')
  ∧ layer_at p' k = Some (default (created_layer p k virt) (layer_at p k))
  ∧ (∀ k', k' ≠ k → layer_at p' k' = layer_at p k').
Proof.
  intros Hwf. cbv zeta. pose proof Hwf as (Hok & Hc & Hd).
  remember (resolve p zl) as k eqn:Ek.
  destruct (_layers p !! k) as [l|] eqn:Hk.
  - rewrite (getLayer_found zl virt p l) by (by rewrite <- Ek). cbn [fst snd].
    split; [done|]. split; [done|]. split; [done|]. split; [done|].
    split; [done|]. split; [done|]. split; [|done].
    by rewrite (layer_at_deref _ _ _ Hc Hk).
  - rewrite (getLayer_fresh zl virt p) by (by rewrite <- Ek).
    rewrite <- Ek. cbn [fst snd].
    assert (Hin : k ∉ _zlevelList p).
    { intros H. apply Hok in H. rewrite Hk in H. by destruct H. }
    split; [|split; [done|split; [done|split; [apply lookup_insert_eq|]]]].
    { split; [|split].
      - split; cbn.
        + apply splice_in_sorted; [apply Hok|done].
        + intros k'. rewrite splice_in_perm, elem_of_cons.
          destruct (decide (k' = k)) as [->|Hne].
          * rewrite lookup_insert_eq. split; [by eauto|by left].
          * rewrite lookup_insert_ne by done.
            destruct Hok as [_ Hag]. rewrite Hag. split; [by intros [?|?]|by right].
      - intros k' l'. cbn. rewrite length_app. cbn.
        destruct (decide (k' = k)) as [->|Hne].
        + rewrite lookup_insert_eq. intros [= <-]. lia.
        + rewrite lookup_insert_ne by done. intros H. apply Hc in H. lia.
      - intros k1 k2 l'. cbn.
        destruct (decide (k1 = k)) as [->|Hne1], (decide (k2 = k)) as [->|Hne2];
          rewrite ?lookup_insert_eq, ?lookup_insert_ne by done; try done.
        + intros [= <-] H. apply Hc in H. lia.
        + intros H [= <-]. apply Hc in H. lia.
        + apply Hd. }
    split; [|split; [|split]].
    + intros k' l' H. cbn. rewrite lookup_insert_ne; [done|]. intros ->. congruence.
    + intros k' Hne. cbn. by rewrite lookup_insert_ne.
    + unfold layer_at at 1. cbn. rewrite lookup_insert_eq. cbn.
      unfold loc in *. rewrite lookup_app_r by lia. rewrite Nat.sub_diag. cbn.
      unfold layer_at. unfold loc in *. rewrite Hk. reflexivity.
    + intros k' Hne. unfold layer_at.
      cbn [_layers set_layers set_zlevelList set_heap heap].
      rewrite lookup_insert_ne by done.
      unfold loc in *.
      match goal with |- context [@lookup ?K ?A ?M ?I k' ?m] =>
        destruct (@lookup K A M I k' m) as [l'|] eqn:Hk' end; simpl; [|done].
      apply lookup_app_l. exact (Hc _ _ Hk').
Qed.

(** ** The sweeps over the engine-built layers *)

Lemma each_builtin_modify f zs p :
  wf p → NoDup zs → (∀ k, k ∈ zs → is_Some (_layers p !! k)) →
  ∃ p', each_builtin (λ l, modify l f) zs p = Some p'
        ∧ wf p'
        ∧ _layers p' = _layers p
        ∧ _zlevelList p' = _zlevelList p
        ∧ mode p' = mode p
        ∧ journal p' = journal p
        ∧ ∀ k, layer_at p' k
               = if decide (k ∈ zs)
                 then (λ L, if __builtin__ L then f L else L) <$> layer_at p k
                 else layer_at p k.
Proof.
  revert p. induction zs as [|z zs IH]; intros p Hwf Hnd Hreg.
  { exists p. do 6 (split; [done|]). intros k.
    rewrite decide_False; [done|]. apply not_elem_of_nil. }
  apply NoDup_cons in Hnd as [Hz Hnd].
  destruct (Hreg z (list_elem_of_here _ _)) as [l Hl].
  cbn [each_builtin]. rewrite Hl.
  set (q := if __builtin__ (deref p l) then modify l f p else p).
  assert (Hq : wf q ∧ _layers q = _layers p ∧ _zlevelList q = _zlevelList p
               ∧ mode q = mode p ∧ journal q = journal p
               ∧ ∀ k, layer_at q k
                      = if decide (k = z)
                        then (λ L, if __builtin__ L then f L else L) <$> layer_at p k
                        else layer_at p k).
  { pose proof Hwf as (Hok & Hc & Hd). subst q.
    destruct (__builtin__ (deref p l)) eqn:Hb.
    - split; [by apply wf_modify|]. do 4 (split; [done|]).
      intros k. rewrite (layer_at_modify p z l f k Hc Hd Hl).
      destruct (decide (k = z)) as [->|]; [|done].
      rewrite (layer_at_deref p z l Hc Hl). simpl. by rewrite Hb.
    - do 5 (split; [done|]). intros k.
      destruct (decide (k = z)) as [->|]; [|done].
      rewrite (layer_at_deref p z l Hc Hl). simpl. by rewrite Hb. }
  destruct Hq as (Hwq & Hlq & Hzq & Hmq & Hjq & Hvq). clearbody q.
  destruct (IH q Hwq Hnd) as (p' & Hp' & Hwp & Hlp & Hzp & Hmp & Hjp & Hvp).
  { intros k Hk. rewrite Hlq. apply Hreg. by apply list_elem_of_further. }
  exists p'. split; [exact Hp'|]. split; [exact Hwp|].
  split; [congruence|]. split; [congruence|]. split; [congruence|].
  split; [congruence|].
  intros k. rewrite Hvp, Hvq.
  destruct (decide (k = z)) as [->|Hne].
  - rewrite decide_False by done. rewrite decide_True by apply list_elem_of_here. done.
  - destruct (decide (k ∈ zs)) as [Hin|Hin].
    + rewrite decide_True by (by apply list_elem_of_further). done.
    + rewrite decide_False; [done|]. intros [?|?]%elem_of_cons; done.
Qed.

(** ** One iteration of the walk *)

Lemma walk_step_eq i e w :
  walk_step i e w =
  let p := w_painter w in
  let gl := getLayer (requested_zlevel e (incrementalLayerCount w))
              (_needsManuallyCompositing p) p in
  let l := gl.2 in
  let p1 := if el_incremental e then modify l (set_incremental true) gl.1 else gl.1 in
  let p2 := if negb (__builtin__ (deref p1 l))
            then emit (LogError (ZLevelUnknownLayer (el_zlevel e))) p1 else p1 in
  let p3 := if negb (bool_decide (Some l = prevLayer w))
            then updatePrevLayer (prevLayer w) i (modify l (enter_layer i) p2)
            else p2 in
  let p4 := if el_dirty e then modify l (touch_layer i) p3 else p3 in
  {| w_painter := p4;
     prevLayer := if negb (bool_decide (Some l = prevLayer w))
                  then Some l else prevLayer w;
     incrementalLayerCount := if el_incremental e then 1
                              else incrementalLayerCount w |}.
Proof.
  unfold walk_step. cbv zeta.
  destruct (getLayer _ _ _) as [q l]. cbn [fst snd].
  destruct (el_incremental e); cbv iota beta;
    destruct (negb (bool_decide (Some l = prevLayer w))); reflexivity.
Qed.

Lemma updatePrevLayer_Some l i p :
  updatePrevLayer (Some l) i p = modify l (close_layer i) p.
Proof. reflexivity. Qed.

Lemma walk_step_view i e w kp :
  wf (w_painter w) →
  prevLayer w = (kp ≫= λ k, _layers (w_painter w) !! k) →
  (∀ k0, kp = Some k0 → is_Some (_layers (w_painter w) !! k0)) →
  let p := w_painter w in
  let k := resolve p (requested_zlevel e (incrementalLayerCount w)) in
  let p' := w_painter (walk_step i e w) in
  wf p' ∧ mode p' = mode p
  ∧ prevLayer (walk_step i e w) = _layers p' !! k
  ∧ is_Some (_layers p' !! k)
  ∧ incrementalLayerCount (walk_step i e w)
    = (if el_incremental e then 1 else incrementalLayerCount w)
  ∧ (∀ k' l', _layers p !! k' = Some l' → _layers p' !! k' = Some l')
  ∧ (∀ k', k' ≠ k → _layers p' !! k' = _layers p !! k')
  ∧ layer_at p' k
    = Some (visit_layer i e (bool_decide (kp = Some k))
              (default (created_layer p k (_needsManuallyCompositing p))
                 (layer_at p k)))
  ∧ (∀ k0, kp = Some k0 → k0 ≠ k → layer_at p' k0 = close_layer i <$> layer_at p k0)
  ∧ (∀ k', k' ≠ k → kp ≠ Some k' → layer_at p' k' = layer_at p k').
Proof.
  intros Hwf Hprev Hkp. cbv zeta.
  remember (w_painter w) as p eqn:Ep.
  remember (resolve p (requested_zlevel e (incrementalLayerCount w))) as k eqn:Ek.
  rewrite walk_step_eq. cbv zeta. rewrite <- Ep.
  destruct (getLayer_wf (requested_zlevel e (incrementalLayerCount w))
              (_needsManuallyCompositing p) p Hwf)
    as (Hw0 & Hm0 & _ & Hl0 & Hgrow0 & Hoth0 & Hv0 & Hvo0).
  rewrite <- Ek in Hl0, Hoth0, Hv0, Hvo0.
  destruct (getLayer _ _ p) as [p0 l]. cbn [fst snd] in *.
  set (L0 := default (created_layer p k (_needsManuallyCompositing p)) (layer_at p k)) in *.
  (* the incremental flag *)
  set (p1 := if el_incremental e then modify l (set_incremental true) p0 else p0).
  set (L1 := if el_incremental e then set_incremental true L0 else L0).
  assert (H1 : wf p1 ∧ mode p1 = mode p ∧ _layers p1 = _layers p0
               ∧ layer_at p1 k = Some L1
               ∧ ∀ k', k' ≠ k → layer_at p1 k' = layer_at p k').
  { subst p1 L1. destruct (el_incremental e); [|done].
    pose proof Hw0 as (_ & Hc & Hd).
    split; [by apply wf_modify|]. do 2 (split; [done|]). split.
    - rewrite (layer_at_modify p0 k l _ k Hc Hd Hl0), decide_True by done.
      by rewrite Hv0.
    - intros k' Hne.
      rewrite (layer_at_modify p0 k l _ k' Hc Hd Hl0), decide_False by done.
      by apply Hvo0. }
  destruct H1 as (Hw1 & Hm1 & Hl1 & Hv1 & Hvo1). clearbody p1.
  (* the error message *)
  set (p2 := if negb (__builtin__ (deref p1 l))
             then emit (LogError (ZLevelUnknownLayer (el_zlevel e))) p1 else p1).
  assert (H2 : wf p2 ∧ mode p2 = mode p ∧ _layers p2 = _layers p0
               ∧ layer_at p2 k = Some L1
               ∧ ∀ k', k' ≠ k → layer_at p2 k' = layer_at p k').
  { subst p2. destruct (negb _); [|done]. split; [by apply wf_emit|done]. }
  clear Hw1 Hm1 Hl1 Hv1 Hvo1.
  destruct H2 as (Hw2 & Hm2 & Hl2 & Hv2 & Hvo2). clearbody p2.
  assert (Hl2' : _layers p2 !! k = Some l) by (by rewrite Hl2).
  (* entering the layer and closing the previous one *)
  assert (Hsame : bool_decide (Some l = prevLayer w) = bool_decide (kp = Some k)).
  { apply bool_decide_ext. rewrite Hprev. destruct kp as [k0|]; simpl.
    - destruct (Hkp k0 eq_refl) as [l0 Hk0]. rewrite Hk0.
      pose proof (Hgrow0 _ _ Hk0) as Hk0'.
      split.
      + intros [= ->]. f_equal. destruct Hw0 as (_ & _ & Hd). by eapply Hd.
      + intros [= ->]. congruence.
    - split; intros; discriminate. }
  rewrite Hsame.
  set (p3 := if negb (bool_decide (kp = Some k))
             then updatePrevLayer (prevLayer w) i (modify l (enter_layer i) p2)
             else p2).
  set (L3 := if bool_decide (kp = Some k) then L1 else enter_layer i L1).
  assert (H3 : wf p3 ∧ mode p3 = mode p ∧ _layers p3 = _layers p0
               ∧ layer_at p3 k = Some L3
               ∧ (∀ k0, kp = Some k0 → k0 ≠ k →
                    layer_at p3 k0 = close_layer i <$> layer_at p k0)
               ∧ ∀ k', k' ≠ k → kp ≠ Some k' → layer_at p3 k' = layer_at p k').
  { subst p3 L3. destruct (bool_decide (kp = Some k)) eqn:Hb; cbn [negb].
    - apply bool_decide_eq_true in Hb.
      do 4 (split; [done|]). split.
      + intros k0 -> Hne. congruence.
      + intros k' Hne _. by apply Hvo2.
    - apply bool_decide_eq_false in Hb.
      pose proof Hw2 as (_ & Hc2 & Hd2).
      set (q := modify l (enter_layer i) p2).
      assert (Hwq : wf q) by (by apply wf_modify).
      assert (Hvq : ∀ k', layer_at q k'
                = if decide (k' = k) then Some (enter_layer i L1) else layer_at p2 k').
      { intros k'. subst q. rewrite (layer_at_modify p2 k l _ k' Hc2 Hd2 Hl2').
        destruct (decide (k' = k)); [by rewrite Hv2|done]. }
      destruct kp as [k0|]; simpl in Hprev.
      + destruct (Hkp k0 eq_refl) as [l0 Hk0]. rewrite Hk0 in Hprev.
        rewrite Hprev, updatePrevLayer_Some.
        assert (Hne0 : k0 ≠ k) by congruence.
        assert (Hk0q : _layers q !! k0 = Some l0).
        { subst q. cbn. rewrite Hl2. by apply Hgrow0. }
        pose proof Hwq as (_ & Hcq & Hdq).
        split; [by apply wf_modify|]. do 2 (split; [done|]).
        split; [|split].
        * rewrite (layer_at_modify q k0 l0 _ k Hcq Hdq Hk0q), decide_False by done.
          by rewrite Hvq, decide_True.
        * intros k0' [= <-] _.
          rewrite (layer_at_modify q k0 l0 _ k0 Hcq Hdq Hk0q), decide_True by done.
          rewrite Hvq, decide_False by done. by rewrite Hvo2.
        * intros k' Hne Hne'.
          rewrite (layer_at_modify q k0 l0 _ k' Hcq Hdq Hk0q), decide_False
            by congruence.
          rewrite Hvq, decide_False by done. by apply Hvo2.
      + rewrite Hprev. unfold updatePrevLayer.
        split; [done|]. do 2 (split; [done|]). split; [|split].
        * by rewrite Hvq, decide_True.
        * intros k0 Hk0. discriminate.
        * intros k' Hne _. rewrite Hvq, decide_False by done. by apply Hvo2. }
  clear Hw2 Hm2 Hl2' Hv2 Hvo2.
  destruct H3 as (Hw3 & Hm3 & Hl3 & Hv3 & Hvp3 & Hvo3). clearbody p3.
  assert (Hl3' : _layers p3 !! k = Some l) by (by rewrite Hl3).
  (* the element's own dirty flag *)
  set (p4 := if el_dirty e then modify l (touch_layer i) p3 else p3).
  assert (H4 : wf p4 ∧ mode p4 = mode p ∧ _layers p4 = _layers p0
               ∧ layer_at p4 k = Some (if el_dirty e then touch_layer i L3 else L3)
               ∧ (∀ k0, kp = Some k0 → k0 ≠ k →
                    layer_at p4 k0 = close_layer i <$> layer_at p k0)
               ∧ ∀ k', k' ≠ k → kp ≠ Some k' → layer_at p4 k' = layer_at p k').
  { subst p4. destruct (el_dirty e); [|done].
    pose proof Hw3 as (_ & Hc3 & Hd3).
    split; [by apply wf_modify|]. do 2 (split; [done|]). split; [|split].
    - rewrite (layer_at_modify p3 k l _ k Hc3 Hd3 Hl3'), decide_True by done.
      by rewrite Hv3.
    - intros k0 Hk0 Hne.
      rewrite (layer_at_modify p3 k l _ k0 Hc3 Hd3 Hl3'), decide_False by done.
      by apply Hvp3.
    - intros k' Hne Hne'.
      rewrite (layer_at_modify p3 k l _ k' Hc3 Hd3 Hl3'), decide_False by done.
      by apply Hvo3. }
  destruct H4 as (Hw4 & Hm4 & Hl4 & Hv4 & Hvp4 & Hvo4). clearbody p4.
  cbn [w_painter prevLayer incrementalLayerCount].
  split; [done|]. split; [done|]. split.
  { rewrite Hl4, Hl0. destruct (bool_decide (kp = Some k)) eqn:Hb; cbn [negb]; [|done].
    apply bool_decide_eq_true in Hb. rewrite Hprev, Hb. simpl.
    destruct (Hkp k Hb) as [l0 Hk0]. rewrite Hk0. f_equal.
    pose proof (Hgrow0 _ _ Hk0). congruence. }
  split; [rewrite Hl4, Hl0; by eexists|]. split; [done|].
  split; [intros k' l' H; rewrite Hl4; by apply Hgrow0|].
  split; [intros k' Hne; rewrite Hl4; by apply Hoth0|].
  split; [|done].
  rewrite Hv4. unfold visit_layer. subst L3 L1. done.
Qed.

(** ** Invariants of the walk *)

Lemma last_snoc_Z (l : list Z) x : last (l ++ [x]) = Some x.
Proof. apply last_snoc. Qed.

(** A property of the keys visited so far and of the state of the walk that
    every iteration preserves holds when the walk ends. *)
Lemma walk_invariant (I : list Z → Walk → Prop) :
  (∀ done w e,
     linked (last done) w → I done w →
     I (done ++ [resolve (w_painter w) (requested_zlevel e (incrementalLayerCount w))])
       (walk_step (Z.of_nat (length done)) e w)) →
  ∀ els done w,
    linked (last done) w → I done w →
    linked (last (done ++ walk_keys els w)) (walk els (Z.of_nat (length done)) w).1
    ∧ I (done ++ walk_keys els w) (walk els (Z.of_nat (length done)) w).1
    ∧ (walk els (Z.of_nat (length done)) w).2 = Z.of_nat (length done + length els)
    ∧ mode (w_painter (walk els (Z.of_nat (length done)) w).1) = mode (w_painter w).
Proof.
  intros Hstep els. induction els as [|e els IH]; intros done w Hl HI.
  { unfold walk_keys. cbn. rewrite app_nil_r, Nat.add_0_r. done. }
  cbn [walk].
  set (k := resolve (w_painter w) (requested_zlevel e (incrementalLayerCount w))).
  destruct Hl as (Hwf & Hprev & Hkp).
  destruct (walk_step_view (Z.of_nat (length done)) e w (last done) Hwf Hprev Hkp)
    as (Hw' & Hm' & Hp' & Hk' & Hc' & _).
  fold k in Hp', Hk'.
  assert (Hl' : linked (last (done ++ [k])) (walk_step (Z.of_nat (length done)) e w)).
  { rewrite last_snoc_Z. split; [done|]. split; [done|]. by intros k0 [= <-]. }
  assert (HI' : I (done ++ [k]) (walk_step (Z.of_nat (length done)) e w)).
  { apply Hstep; [by split|done]. }
  destruct (IH (done ++ [k]) _ Hl' HI') as (IH1 & IH2 & IH3 & IH4).
  assert (Hks : (done ++ [k]) ++ walk_keys els (walk_step (Z.of_nat (length done)) e w)
                = done ++ walk_keys (e :: els) w).
  { rewrite <- (assoc_L (++)). f_equal. unfold walk_keys. cbn [requested_keys fmap list_fmap].
    fold k. cbn. f_equal. rewrite Hc'.
    apply list_fmap_ext. intros _ x _. by apply resolve_mode. }
  rewrite Hks in IH1, IH2.
  replace (Z.of_nat (length done) + 1) with (Z.of_nat (length (done ++ [k])))
    by (rewrite length_app; cbn; lia).
  split; [done|]. split; [done|]. split.
  - rewrite IH3, length_app. cbn. lia.
  - by rewrite IH4.
Qed.

(** ** The classification pass as a whole *)

Lemma layer_at_None p k : _layers p !! k = None → layer_at p k = None.
Proof.
  intros H. destruct (layer_at p k) as [L|] eqn:HL; [|done].
  apply layer_at_Some in HL as (l & Hl & _). congruence.
Qed.

Lemma mode_detect_compositing els p q :
  mode p = mode q → mode (detect_compositing els p) = mode (detect_compositing els q).
Proof.
  unfold mode, detect_compositing. intros [= Hs Hn]. rewrite <- Hs.
  destruct (_singleCanvas p) eqn:Hp; [|by rewrite Hp, <- Hs, Hn].
  destruct els as [|e0 rest]; [by rewrite Hp, <- Hs, Hn|].
  destruct (needs_compositing e0 rest); cbn; by rewrite Hp, <- Hs, ?Hn.
Qed.

Lemma detect_compositing_frame els p :
  (wf p → wf (detect_compositing els p))
  ∧ _layers (detect_compositing els p) = _layers p
  ∧ _zlevelList (detect_compositing els p) = _zlevelList p
  ∧ journal (detect_compositing els p) = journal p
  ∧ heap (detect_compositing els p) = heap p
  ∧ ∀ k, layer_at (detect_compositing els p) k = layer_at p k.
Proof.
  unfold detect_compositing. destruct (_singleCanvas p); [|done].
  destruct els as [|e0 rest]; [done|]. by destruct (needs_compositing e0 rest).
Qed.

Lemma walk_linked els w :
  linked None w →
  linked (last (walk_keys els w)) (walk els 0 w).1
  ∧ (walk els 0 w).2 = Z.of_nat (length els)
  ∧ mode (w_painter (walk els 0 w).1) = mode (w_painter w).
Proof.
  intros Hl.
  destruct (walk_invariant (λ _ _, True) (λ _ _ _ _ _, I) els [] w Hl I)
    as (H1 & _ & H2 & H3).
  done.
Qed.

(** The classification pass on a well-formed painter: it returns, the
    painter stays well-formed, and every registered layer is what the walk
    left, closed at the end of the list if it is the last layer visited, and
    settled by the final sweep. *)
Lemma updateLayerStatus_spec els p :
  wf p →
  ∃ p_r p',
    each_builtin (λ l, modify l reset_status) (_zlevelList p) p = Some p_r
    ∧ wf p_r ∧ _layers p_r = _layers p ∧ mode p_r = mode p
    ∧ journal p_r = journal p
    ∧ (∀ k, layer_at p_r k = reset_view <$> layer_at p k)
    ∧ _updateLayerStatus els p = Some p'
    ∧ wf p'
    ∧ _layers p' = _layers (w_painter (walk els 0 (walk_start els p_r)).1)
    ∧ mode p' = mode (detect_compositing els p)
    ∧ journal p' = journal (w_painter (walk els 0 (walk_start els p_r)).1)
    ∧ ∀ k, layer_at p' k
           = settle_view
             <$> ((λ L, if decide (last (layer_keys els p) = Some k)
                        then close_layer (Z.of_nat (length els)) L else L)
                  <$> layer_at (w_painter (walk els 0 (walk_start els p_r)).1) k).
Proof.
  intros Hwf. pose proof Hwf as (Hok & Hc & Hd).
  destruct (each_builtin_modify reset_status (_zlevelList p) p Hwf
              (registry_ok_NoDup p Hok))
    as (p_r & Hr & Hwr & Hlr & Hzr & Hmr & Hjr & Hvr).
  { intros k Hk. by apply Hok. }
  exists p_r.
  assert (Hvr' : ∀ k, layer_at p_r k = reset_view <$> layer_at p k).
  { intros k. rewrite Hvr. destruct (decide (k ∈ _zlevelList p)) as [|Hn]; [done|].
    destruct (_layers p !! k) as [l|] eqn:Hk.
    - exfalso. apply Hn, Hok. by rewrite Hk.
    - by rewrite (layer_at_None _ _ Hk). }
  destruct (detect_compositing_frame els p_r) as (Hwd & Hld & Hzd & Hjd & Hhd & Hvd).
  assert (Hl0 : linked None (walk_start els p_r)).
  { split; [by apply Hwd|]. split; [done|]. by intros k0 [=]. }
  destruct (walk_linked els (walk_start els p_r) Hl0) as (Hlw & Hi & Hmw).
  assert (Hkeys : walk_keys els (walk_start els p_r) = layer_keys els p).
  { unfold walk_keys, layer_keys, walk_start. cbn.
    apply list_fmap_ext. intros _ x _. apply resolve_mode.
    by apply mode_detect_compositing. }
  rewrite Hkeys in Hlw.
  unfold _updateLayerStatus, eachBuiltinLayer. rewrite Hr. cbn [mbind option_bind].
  fold (walk_start els p_r).
  destruct (walk els 0 (walk_start els p_r)) as [w i] eqn:Hw. cbn [fst snd] in *.
  subst i. destruct Hlw as (Hww & Hprev & Hkp).
  set (p_c := updatePrevLayer (prevLayer w) (Z.of_nat (length els)) (w_painter w)).
  assert (Hpc : wf p_c ∧ _layers p_c = _layers (w_painter w)
                ∧ _zlevelList p_c = _zlevelList (w_painter w)
                ∧ mode p_c = mode (w_painter w)
                ∧ journal p_c = journal (w_painter w)
                ∧ ∀ k, layer_at p_c k
                       = (λ L, if decide (last (layer_keys els p) = Some k)
                               then close_layer (Z.of_nat (length els)) L else L)
                         <$> layer_at (w_painter w) k).
  { subst p_c. rewrite Hprev.
    destruct (last (layer_keys els p)) as [k0|] eqn:Hk0; cbn [mbind option_bind].
    - destruct (Hkp k0 eq_refl) as [l0 Hl0k]. rewrite Hl0k, updatePrevLayer_Some.
      split; [by apply wf_modify|]. do 4 (split; [done|]).
      intros k. pose proof Hww as (_ & Hcw & Hdw).
      rewrite (layer_at_modify _ k0 l0 _ k Hcw Hdw Hl0k).
      destruct (decide (k = k0)) as [->|Hne];
        destruct (layer_at (w_painter w) _) as [L|]; cbn; try done.
      + by rewrite decide_True.
      + by rewrite decide_False by congruence.
    - unfold updatePrevLayer. do 5 (split; [done|]).
      intros k. destruct (layer_at (w_painter w) k) as [L|]; cbn; [|done].
      by rewrite decide_False. }
  destruct Hpc as (Hwc & Hlc & Hzc & Hmc & Hjc & Hvc). clearbody p_c.
  pose proof Hwc as (Hokc & Hcc & Hdc).
  destruct (each_builtin_modify settle_status (_zlevelList p_c) p_c Hwc
              (registry_ok_NoDup p_c Hokc))
    as (p' & Hs & Hws & Hls & Hzs & Hms & Hjs & Hvs).
  { intros k Hk. by apply Hokc. }
  exists p'. do 6 (split; [done|]).
  split; [exact Hs|]. split; [done|]. split; [congruence|]. split.
  { rewrite Hms, Hmc, Hmw. unfold walk_start. cbn.
    by apply mode_detect_compositing. }
  split; [congruence|].
  intros k. rewrite Hvs, Hvc.
  destruct (decide (k ∈ _zlevelList p_c)) as [|Hn]; [done|].
  destruct (_layers (w_painter w) !! k) as [l|] eqn:Hk.
  - exfalso. apply Hn, Hokc. rewrite Hlc, Hk. by eexists.
  - by rewrite (layer_at_None _ _ Hk).
Qed.

Lemma wf_CanvasPainter b : wf (CanvasPainter b).
Proof.
  split; [apply registry_ok_CanvasPainter|].
  assert (Ht : _layers (CanvasPainter true) = <[CANVAS_ZLEVEL := 0%nat]> ∅
               ∧ length (heap (CanvasPainter true)) = 1%nat) by done.
  assert (Hf : _layers (CanvasPainter false) = ∅) by done.
  destruct b; unfold closed, distinct.
  - destruct Ht as [-> ->]. split.
    + intros k l. destruct (decide (k = CANVAS_ZLEVEL)) as [->|Hne].
      * rewrite lookup_insert_eq. intros [= <-]. lia.
      * rewrite lookup_insert_ne by done. by rewrite lookup_empty.
    + intros k1 k2 l.
      destruct (decide (k1 = CANVAS_ZLEVEL)) as [->|Hne1];
        destruct (decide (k2 = CANVAS_ZLEVEL)) as [->|Hne2];
        rewrite ?lookup_insert_eq, ?lookup_insert_ne, ?lookup_empty by done; done.
  - rewrite Hf. split.
    + intros k l. by rewrite lookup_empty.
    + intros k1 k2 l. by rewrite lookup_empty.
Qed.

Lemma elem_of_snoc (l : list Z) x y : y ∈ l ++ [x] ↔ y ∈ l ∨ y = x.
Proof. rewrite elem_of_app, list_elem_of_singleton. done. Qed.

(** The registry during the walk: nothing registered is lost or moved, every
    key visited is registered, and nothing else is added. *)
Lemma walk_registry els p0 w :
  linked None w → _layers (w_painter w) = _layers p0 →
  let w' := (walk els 0 w).1 in
  (∀ k l, _layers p0 !! k = Some l → _layers (w_painter w') !! k = Some l)
  ∧ (∀ k, k ∈ walk_keys els w → is_Some (_layers (w_painter w') !! k))
  ∧ (∀ k, is_Some (_layers (w_painter w') !! k) →
          is_Some (_layers p0 !! k) ∨ k ∈ walk_keys els w).
Proof.
  intros Hl H0.
  set (I := λ (done : list Z) (w : Walk),
         (∀ k l, _layers p0 !! k = Some l → _layers (w_painter w) !! k = Some l)
         ∧ (∀ k, k ∈ done → is_Some (_layers (w_painter w) !! k))
         ∧ (∀ k, is_Some (_layers (w_painter w) !! k) →
                 is_Some (_layers p0 !! k) ∨ k ∈ done)).
  assert (Hstep : ∀ done w e, linked (last done) w → I done w →
            I (done ++ [resolve (w_painter w)
                          (requested_zlevel e (incrementalLayerCount w))])
              (walk_step (Z.of_nat (length done)) e w)).
  { clear. intros done w e (Hwf & Hprev & Hkp) (I1 & I2 & I3).
    destruct (walk_step_view (Z.of_nat (length done)) e w (last done) Hwf Hprev Hkp)
      as (_ & _ & _ & Hk & _ & Hgrow & Hoth & _).
    set (k := resolve (w_painter w) (requested_zlevel e (incrementalLayerCount w))) in *.
    split; [|split].
    + intros k' l' H. by apply Hgrow, I1.
    + intros k' [Hin| ->]%elem_of_snoc; [|done].
      destruct (I2 k' Hin) as [l' Hl']. exists l'. by apply Hgrow.
    + intros k' Hk'. destruct (decide (k' = k)) as [->|Hne].
      * right. apply elem_of_snoc. by right.
      * rewrite (Hoth k' Hne) in Hk'. destruct (I3 k' Hk') as [?|?]; [by left|].
        right. apply elem_of_snoc. by left. }
  destruct (walk_invariant I Hstep els [] w Hl) as (_ & H & _); [|exact H].
  split; [|split].
  - intros k l. by rewrite H0.
  - intros k Hk. by apply elem_of_nil in Hk.
  - intros k Hk. left. by rewrite <- H0.
Qed.

(** The classification pass never throws on a well-formed painter and leaves
    it well-formed.  Layers are only ever added: every registered layer
    keeps its key and its object, afterwards the key of every element of the
    list is registered, and no other key is new. *)
Theorem updateLayerStatus_total (els : list Element) (p : Painter) :
  wf p →
  ∃ p', _updateLayerStatus els p = Some p'
        ∧ wf p'
        ∧ (∀ k l, _layers p !! k = Some l → _layers p' !! k = Some l)
        ∧ (∀ k, k ∈ layer_keys els p → is_Some (_layers p' !! k))
        ∧ (∀ k, is_Some (_layers p' !! k) →
                is_Some (_layers p !! k) ∨ k ∈ layer_keys els p).
Proof.
  intros Hwf.
  destruct (updateLayerStatus_spec els p Hwf)
    as (p_r & p' & Hr & Hwr & Hlr & Hmr & _ & _ & Hp' & Hw' & Hl' & _).
  exists p'. split; [done|]. split; [done|].
  destruct (detect_compositing_frame els p_r) as (Hwd & Hld & _).
  assert (Hl0 : linked None (walk_start els p_r)).
  { split; [by apply Hwd|]. split; [done|]. by intros k0 [=]. }
  assert (Hkeys : walk_keys els (walk_start els p_r) = layer_keys els p).
  { unfold walk_keys, layer_keys, walk_start. cbn.
    apply list_fmap_ext. intros _ x _. apply resolve_mode.
    by apply mode_detect_compositing. }
  destruct (walk_registry els p (walk_start els p_r) Hl0) as (H1 & H2 & H3).
  { cbn. by rewrite Hld. }
  rewrite Hkeys in H2, H3. rewrite Hl'. done.
Qed.

Lemma updateLayerStatus_total_witness :
  wf (CanvasPainter true)
  ∧ ∃ p', _updateLayerStatus three_incremental (CanvasPainter true) = Some p'
        ∧ wf p'
        ∧ (∀ k l, _layers (CanvasPainter true) !! k = Some l → _layers p' !! k = Some l)
        ∧ (∀ k, k ∈ layer_keys three_incremental (CanvasPainter true) →
                is_Some (_layers p' !! k))
        ∧ (∀ k, is_Some (_layers p' !! k) →
                is_Some (_layers (CanvasPainter true) !! k)
                ∨ k ∈ layer_keys three_incremental (CanvasPainter true)).
Proof.
  split; [apply wf_CanvasPainter|].
  exact (updateLayerStatus_total three_incremental (CanvasPainter true)
           (wf_CanvasPainter true)).
Defined.

(** ** Index ranges *)

Ltac split_ifs :=
  repeat (match goal with
          | |- context [if ?b then _ else _] => destruct b eqn:?
          end; cbn).

Ltac bool_hyps :=
  repeat match goal with
         | H : _ && _ = true |- _ => apply andb_true_iff in H as [? ?]
         | H : _ || _ = false |- _ => apply orb_false_iff in H as [? ?]
         | H : negb _ = true |- _ => apply negb_true_iff in H
         | H : negb _ = false |- _ => apply negb_false_iff in H
         | H : (_ <? _) = true |- _ => apply Z.ltb_lt in H
         | H : (_ <? _) = false |- _ => apply Z.ltb_ge in H
         | H : (_ =? _) = true |- _ => apply Z.eqb_eq in H
         | H : (_ =? _) = false |- _ => apply Z.eqb_neq in H
         end.

Lemma visit_layer_builtin i e same L :
  __builtin__ (visit_layer i e same L) = __builtin__ L.
Proof.
  unfold visit_layer, enter_layer, touch_layer.
  repeat (match goal with |- context [if ?b then _ else _] => destruct b end; cbn);
    reflexivity.
Qed.

Lemma close_layer_fields i L :
  __builtin__ (close_layer i L) = __builtin__ L
  ∧ __used (close_layer i L) = __used L
  ∧ __startIndex (close_layer i L) = __startIndex L
  ∧ __endIndex (close_layer i L) = i
  ∧ __drawIndex (close_layer i L) = __drawIndex L
  ∧ incremental (close_layer i L) = incremental L.
Proof. unfold close_layer. by destruct (negb _). Qed.

Lemma visit_layer_same i e L :
  __used (visit_layer i e true L) = __used L
  ∧ __startIndex (visit_layer i e true L) = __startIndex L
  ∧ __endIndex (visit_layer i e true L) = __endIndex L
  ∧ (__drawIndex (visit_layer i e true L) = __drawIndex L
     ∨ __drawIndex L < 0 ∧ __drawIndex (visit_layer i e true L) = i).
Proof.
  unfold visit_layer, touch_layer. split_ifs; bool_hyps;
    (split; [reflexivity|]; split; [reflexivity|]; split; [reflexivity|]);
    first [by left | by right].
Qed.

Lemma visit_layer_enter i e L :
  __used (visit_layer i e false L) = true
  ∧ __startIndex (visit_layer i e false L) = i
  ∧ __endIndex (visit_layer i e false L) = __endIndex L
  ∧ (__drawIndex (visit_layer i e false L) = i
     ∨ __drawIndex (visit_layer i e false L) = -1).
Proof.
  unfold visit_layer, enter_layer, touch_layer.
  repeat (match goal with |- context [if ?b then _ else _] => destruct b end; cbn);
    auto.
Qed.

Lemma created_layer_fields p zl virt :
  __used (created_layer p zl virt) = false
  ∧ __startIndex (created_layer p zl virt) = 0
  ∧ __endIndex (created_layer p zl virt) = 0
  ∧ __drawIndex (created_layer p zl virt) = 0.
Proof. unfold created_layer. by destruct virt, (_layerConfig p !! zl). Qed.

Lemma walking_layer_step done w e :
  linked (last done) w →
  (∀ k L, layer_at (w_painter w) k = Some L → __builtin__ L = true →
          walking_layer done k L) →
  ∀ k L,
    layer_at (w_painter (walk_step (Z.of_nat (length done)) e w)) k = Some L →
    __builtin__ L = true →
    walking_layer
      (done ++ [resolve (w_painter w) (requested_zlevel e (incrementalLayerCount w))])
      k L.
Proof.
  intros (Hwf & Hprev & Hkp) HI k' L' HL' Hb'.
  destruct (walk_step_view (Z.of_nat (length done)) e w (last done) Hwf Hprev Hkp)
    as (_ & _ & _ & _ & _ & _ & _ & Hcur & Hold & Hoth).
  set (k := resolve (w_painter w) (requested_zlevel e (incrementalLayerCount w))) in *.
  set (i := Z.of_nat (length done)) in *.
  assert (Hi : 0 ≤ i) by (subst i; lia).
  unfold walking_layer. rewrite length_app, last_snoc_Z. cbn [length].
  replace (Z.of_nat (length done + 1)) with (i + 1) by (subst i; lia).
  destruct (decide (k' = k)) as [->|Hne].
  - (* the layer of the element *)
    rewrite Hcur in HL'. injection HL' as <-.
    rewrite visit_layer_builtin in Hb'.
    split; [|split; [|by intros []]].
    { destruct (bool_decide (last done = Some k)) eqn:Hs.
      - apply bool_decide_eq_true in Hs.
        destruct (Hkp k Hs) as [l Hl].
        rewrite (layer_at_deref _ _ _ (proj1 (proj2 Hwf)) Hl) in Hb' |- *. cbn in Hb' |- *.
        destruct (visit_layer_same i e (deref (w_painter w) l)) as (-> & _).
        destruct (HI k _ (layer_at_deref _ _ _ (proj1 (proj2 Hwf)) Hl) Hb') as (Hu & _).
        rewrite Hu, elem_of_snoc. split; [by left|]. intros _.
        apply last_Some in Hs as (l' & ->). apply elem_of_snoc. by right.
      - destruct (visit_layer_enter i e
                    (default (created_layer (w_painter w) k
                                (_needsManuallyCompositing (w_painter w)))
                       (layer_at (w_painter w) k))) as (-> & _).
        rewrite elem_of_snoc. split; [by right|done]. }
    intros _.
    destruct (bool_decide (last done = Some k)) eqn:Hs.
    + apply bool_decide_eq_true in Hs.
      destruct (Hkp k Hs) as [l Hl].
      rewrite (layer_at_deref _ _ _ (proj1 (proj2 Hwf)) Hl) in Hb' |- *. cbn in Hb' |- *.
      destruct (HI k _ (layer_at_deref _ _ _ (proj1 (proj2 Hwf)) Hl) Hb')
        as (_ & Hp & _).
      destruct (Hp Hs) as (H1 & H2).
      destruct (visit_layer_same i e (deref (w_painter w) l)) as (_ & -> & _ & [-> | [? ->]]);
        lia.
    + destruct (visit_layer_enter i e
                  (default (created_layer (w_painter w) k
                              (_needsManuallyCompositing (w_painter w)))
                     (layer_at (w_painter w) k))) as (_ & -> & _ & [-> | ->]); lia.
  - (* another layer *)
    split; [|split; [intros [= ->]; done|intros _]].
    + rewrite elem_of_snoc.
      destruct (decide (last done = Some k')) as [Hlast|Hlast].
      * rewrite (Hold k' Hlast Hne) in HL'.
        destruct (layer_at (w_painter w) k') as [L0|] eqn:HL0; [|done].
        injection HL' as <-.
        destruct (close_layer_fields i L0) as (Hb0 & -> & _). rewrite Hb0 in Hb'.
        destruct (HI k' L0 HL0 Hb') as (Hu & _). rewrite Hu.
        split; [by left|]. by intros [?|?].
      * rewrite (Hoth k' Hne Hlast) in HL'.
        destruct (HI k' L' HL' Hb') as (Hu & _). rewrite Hu.
        split; [by left|]. by intros [?|?].
    + destruct (decide (last done = Some k')) as [Hlast|Hlast].
      * rewrite (Hold k' Hlast Hne) in HL'.
        destruct (layer_at (w_painter w) k') as [L0|] eqn:HL0; [|done].
        injection HL' as <-.
        destruct (close_layer_fields i L0) as (Hb0 & _ & Hs0 & He0 & Hd0 & _).
        rewrite Hb0 in Hb'.
        destruct (HI k' L0 HL0 Hb') as (_ & Hp & _).
        destruct (Hp Hlast) as (H1 & H2).
        unfold ok_range. rewrite Hs0, He0, Hd0. lia.
      * rewrite (Hoth k' Hne Hlast) in HL'.
        destruct (HI k' L' HL' Hb') as (_ & _ & Hq).
        destruct (Hq Hlast) as (H1 & H2). split; [done|]. intros Hu.
        specialize (H2 Hu). lia.
Qed.

Lemma settle_status_classified keys n k L :
  ok_range L →
  (__used L = true ↔ k ∈ keys) →
  (__used L = true → __startIndex L < __endIndex L ≤ n) →
  classified_layer keys n k (settle_status L)
  ∧ __builtin__ (settle_status L) = __builtin__ L.
Proof.
  intros ((H1 & H2) & H3) Hu Hn.
  unfold classified_layer, ok_range, settle_status, getElementCount.
  destruct (__used L) eqn:HuL; cbn [negb andb].
  - specialize (Hn eq_refl).
    destruct (__dirty L) eqn:Hdirty, (__drawIndex L <? 0) eqn:Hd; bool_hyps;
      cbn; rewrite ?HuL, ?Hdirty;
      (split; [|reflexivity]);
      (split; [lia|]); (split; [done|]); (split; [intros; lia|]);
      (split; [intros; lia|]); intros; congruence.
  - destruct (0 <? __endIndex L - __startIndex L) eqn:Hc; bool_hyps.
    + cbn. rewrite ?HuL. split; [|reflexivity].
      split; [lia|]. split; [done|]. split; [intros; lia|].
      split; [intros; congruence|]. done.
    + destruct (__dirty L) eqn:Hdirty, (__drawIndex L <? 0) eqn:Hd; bool_hyps;
        cbn; rewrite ?HuL, ?Hdirty;
        (split; [|reflexivity]);
        (split; [lia|]); (split; [done|]); (split; [intros; lia|]);
        (split; [intros; congruence|]); intros; lia.
Qed.

Lemma reset_status_fields L :
  __builtin__ (reset_status L) = __builtin__ L
  ∧ __used (reset_status L) = false
  ∧ __dirty (reset_status L) = false
  ∧ __startIndex (reset_status L) = __startIndex L
  ∧ __endIndex (reset_status L) = __endIndex L
  ∧ __drawIndex (reset_status L) = __drawIndex L
  ∧ incremental (reset_status L) = incremental L.
Proof. done. Qed.

(** The classification pass on a well-formed painter with well-shaped
    ranges: every registered engine-built layer comes out classified. *)
Lemma updateLayerStatus_classified els p :
  wf p → ranges_ok p →
  ∃ p', _updateLayerStatus els p = Some p'
        ∧ wf p'
        ∧ ∀ k L, layer_at p' k = Some L → __builtin__ L = true →
                 classified_layer (layer_keys els p) (Z.of_nat (length els)) k L.
Proof.
  intros Hwf Hro.
  destruct (updateLayerStatus_spec els p Hwf)
    as (p_r & p' & Hr & Hwr & Hlr & Hmr & _ & Hvr & Hp' & Hw' & _ & _ & _ & Hv').
  exists p'. split; [done|]. split; [done|].
  destruct (detect_compositing_frame els p_r) as (Hwd & Hld & _ & _ & _ & Hvd).
  assert (Hl0 : linked None (walk_start els p_r)).
  { split; [by apply Hwd|]. split; [done|]. by intros k0 [=]. }
  assert (Hkeys : walk_keys els (walk_start els p_r) = layer_keys els p).
  { unfold walk_keys, layer_keys, walk_start. cbn.
    apply list_fmap_ext. intros _ x _. apply resolve_mode.
    by apply mode_detect_compositing. }
  set (I := λ (done : list Z) (w : Walk),
         ∀ k L, layer_at (w_painter w) k = Some L → __builtin__ L = true →
                walking_layer done k L).
  destruct (walk_invariant I walking_layer_step els [] (walk_start els p_r) Hl0)
    as (_ & HI & _).
  { intros k L HL Hb. cbn in HL. rewrite Hvd, Hvr in HL.
    destruct (layer_at p k) as [L0|] eqn:HL0; [|done]. injection HL as <-.
    unfold reset_view in *. destruct (__builtin__ L0) eqn:Hb0; [|congruence].
    destruct (Hro k L0 HL0 Hb0) as (? & ?).
    split; [|split; [done|]].
    - cbn. split; [done|]. by intros ?%elem_of_nil.
    - intros _. split; [done|]. done. }
  cbn [app length] in HI. rewrite Hkeys in HI.
  change (Z.of_nat 0) with 0 in HI.
  set (w := (walk els 0 (walk_start els p_r)).1) in *.
  assert (Hlen : length (layer_keys els p) = length els).
  { unfold layer_keys. rewrite length_fmap. clear.
    generalize 0. induction els as [|e els IH]; intros c; [done|].
    cbn. by rewrite IH. }
  intros k L HL Hb. rewrite Hv' in HL.
  destruct (layer_at (w_painter w) k) as [Lw|] eqn:HLw; [|done].
  cbn in HL. injection HL as <-.
  set (L1 := if decide (last (layer_keys els p) = Some k)
             then close_layer (Z.of_nat (length els)) Lw else Lw) in *.
  assert (Hb1 : __builtin__ L1 = __builtin__ Lw).
  { subst L1. destruct (decide _); [|done]. apply close_layer_fields. }
  unfold settle_view in *. destruct (__builtin__ L1) eqn:HbL1; [|congruence].
  destruct (HI k Lw HLw) as (Hu & Hlast & Hother); [congruence|].
  rewrite Hlen in Hlast, Hother.
  apply settle_status_classified.
  - subst L1. destruct (decide (last (layer_keys els p) = Some k)) as [Hl|Hl].
    + destruct (Hlast Hl) as (H1 & H2).
      destruct (close_layer_fields (Z.of_nat (length els)) Lw)
        as (_ & _ & Hs & He & Hd & _).
      unfold ok_range. rewrite Hs, He, Hd. lia.
    + by apply Hother.
  - subst L1. destruct (decide _); [|done].
    destruct (close_layer_fields (Z.of_nat (length els)) Lw) as (_ & -> & _). done.
  - subst L1. destruct (decide (last (layer_keys els p) = Some k)) as [Hl|Hl].
    + destruct (Hlast Hl) as (H1 & H2).
      destruct (close_layer_fields (Z.of_nat (length els)) Lw)
        as (_ & _ & Hs & He & Hd & _).
      rewrite Hs, He. lia.
    + by apply Hother.
Qed.

(** ** The paint pass, layer by layer *)

Lemma deref_modify_eq l f p :
  (l < length (heap p))%nat → deref (modify l f p) l = f (deref p l).
Proof. intros H. unfold modify. by apply deref_store_eq. Qed.

(** What painting one layer does.  Unless the first element of a non-empty
    range is missing from the list, the layer is painted: an optional clear,
    the error message if the start index is the sentinel, then [k]
    consecutive elements.  Only the journal, the clock and the layer's
    [__drawIndex] change. *)
Lemma paint_layer_spec now els (paintAll : bool) (layer : loc) (p : Painter) (fin : bool) :
  (layer < length (heap p))%nat →
  let L := deref p layer in
  let start0 := if paintAll then __startIndex L else __drawIndex L in
  let start := if start0 =? -1 then __startIndex L else start0 in
  let useTimer := negb paintAll && incremental L in
  (__startIndex L = __endIndex L ∨ start0 ≠ __startIndex L
   ∨ is_Some (at_index els start0)) →
  ∃ (clr : list Event) (k : nat) (i : Z),
    paint_layer now els paintAll layer (p, fin)
    = Some (set_ticks (ticks p + (if useTimer then S k else 0))%nat
              (set_journal
                 (journal p ++ clr
                  ++ (if start0 =? -1 then [LogError DrawIndexSentinel] else [])
                  ++ (if __dirty L || paintAll
                      then brushes layer (__endIndex L) start k else []))
                 (set_heap (<[layer := set_drawIndex i L]> (heap p)) p)),
            if i <? __endIndex L then false else fin)
    ∧ (clr = [] ∨ ∃ bg, clr = [Clear layer bg])
    ∧ (__startIndex L = __endIndex L → clr ≠ [])
    ∧ ((Z.of_nat k = Z.max 0 (__endIndex L - start) ∧ i = start + Z.of_nat k)
       ∨ (useTimer = true ∧ (0 < k)%nat ∧ Z.of_nat k ≤ __endIndex L - start
          ∧ i = start + Z.of_nat k - 1)).
Proof.
  intros Hlt L start0 start useTimer Hel.
  set (p0 := (if useTimer then Date_now now p else (0, p)).2).
  set (t0 := (if useTimer then Date_now now p else (0, p)).1).
  assert (Hp0 : (if useTimer then Date_now now p else (0, p)) = (t0, p0))
    by (subst t0 p0; by destruct useTimer).
  assert (Hp0' : p0 = set_ticks (ticks p + (if useTimer then 1 else 0))%nat p).
  { subst p0. destruct useTimer; cbn.
    - unfold Date_now. cbn. by rewrite Nat.add_1_r.
    - rewrite Nat.add_0_r. by destruct p. }
  clearbody p0 t0.
  set (bg := bool_decide (Some (zlevel L) = head (_zlevelList p0))).
  set (clr := if __startIndex L =? __endIndex L then [Clear layer bg]
              else if start0 =? __startIndex L
                   then match at_index els start0 with
                        | Some firstEl =>
                            if negb (el_incremental firstEl)
                               || negb (el_notClear firstEl) || paintAll
                            then [Clear layer bg] else []
                        | None => []
                        end
                   else []).
  set (err := if start0 =? -1 then [LogError DrawIndexSentinel] else []).
  set (p1 := set_journal (journal p0 ++ clr ++ err) p0).
  assert (Hd1 : deref p1 layer = L) by (subst p1; rewrite Hp0'; reflexivity).
  destruct (paint_loop_spec now (Z.to_nat (__endIndex L - start)) start layer
              paintAll useTimer t0 p1) as (k & Hk & Hst & Hend).
  rewrite Hd1 in Hst.
  assert (Hpl : paint_layer now els paintAll layer (p, fin)
    = let '(q, j) := paint_loop now (Z.to_nat (__endIndex L - start)) start layer
                       paintAll useTimer t0 p1 in
      Some (modify layer (set_drawIndex j) q,
            if __drawIndex (deref (modify layer (set_drawIndex j) q) layer)
               <? __endIndex (deref (modify layer (set_drawIndex j) q) layer)
            then false else fin)).
  { unfold paint_layer. fold L. fold start0. fold useTimer.
    rewrite Hp0. cbv iota beta. fold bg.
    assert (Hclear : (if __startIndex L =? __endIndex L
                      then Some (emit (Clear layer bg) p0)
                      else if start0 =? __startIndex L
                           then firstEl ← at_index els start0;
                                Some (if negb (el_incremental firstEl)
                                         || negb (el_notClear firstEl) || paintAll
                                      then emit (Clear layer bg) p0 else p0)
                           else Some p0)
                     = Some (set_journal (journal p0 ++ clr) p0)).
    { subst clr. destruct (__startIndex L =? __endIndex L) eqn:Hse; [done|].
      apply Z.eqb_neq in Hse.
      destruct (start0 =? __startIndex L) eqn:Hss.
      - apply Z.eqb_eq in Hss.
        destruct Hel as [?|[?|[firstEl Hf]]]; [done|done|].
        rewrite Hf. cbn [mbind option_bind].
        destruct (negb (el_incremental firstEl) || negb (el_notClear firstEl)
                  || paintAll); [done|].
        rewrite app_nil_r. by destruct p0.
      - rewrite app_nil_r. by destruct p0. }
    rewrite Hclear. cbn [mbind option_bind].
    assert (Herr : (if start0 =? -1
                    then (emit (LogError DrawIndexSentinel)
                            (set_journal (journal p0 ++ clr) p0), __startIndex L)
                    else (set_journal (journal p0 ++ clr) p0, start0))
                   = (p1, start)).
    { subst p1 err start. destruct (start0 =? -1).
      - unfold emit. cbn. by rewrite <- (assoc_L (++)).
      - by rewrite app_nil_r. }
    rewrite Herr. reflexivity. }
  destruct (paint_loop now _ _ _ _ _ _ _) as [q j]. cbn [fst snd] in Hst, Hend.
  exists (if __startIndex L =? __endIndex L then [Clear layer bg] else clr), k, j.
  assert (Hclr : (if __startIndex L =? __endIndex L then [Clear layer bg] else clr) = clr).
  { subst clr. by destruct (__startIndex L =? __endIndex L). }
  rewrite Hclr.
  assert (Hlq : (layer < length (heap q))%nat).
  { rewrite Hst. subst p1. rewrite Hp0'. exact Hlt. }
  split; [|split; [|split]].
  - rewrite Hpl. rewrite (deref_modify_eq _ _ _ Hlq).
    assert (Hdq : deref q layer = L) by (rewrite Hst; exact Hd1).
    rewrite Hdq. cbn [__drawIndex __endIndex set_drawIndex]. f_equal. f_equal.
    unfold modify, store. rewrite Hdq, Hst. subst p1. rewrite Hp0'.
    unfold set_ticks, set_journal, set_heap. cbn. f_equal.
    + destruct useTimer; lia.
    + by rewrite <- !(assoc_L (++)).
  - subst clr. destruct (__startIndex L =? __endIndex L); [right; by eexists|].
    destruct (start0 =? __startIndex L); [|by left].
    destruct (at_index els start0) as [f|]; [|by left].
    destruct (_ || _); [right; by eexists|by left].
  - intros Hse. subst clr. apply Z.eqb_eq in Hse. by rewrite Hse.
  - destruct Hend as [[-> He]|(Hu & Hk0 & _ & He)].
    + left. split; [lia|done].
    + right. split; [done|]. split; [done|]. split; [lia|done].
Qed.

Lemma set_drawIndex_eta L : set_drawIndex (__drawIndex L) L = L.
Proof. by destruct L. Qed.

Lemma set_drawIndex_twice d d' L : set_drawIndex d (set_drawIndex d' L) = set_drawIndex d L.
Proof. reflexivity. Qed.

Lemma painted_from_refl p : painted_from p p.
Proof.
  split; [exists (heap p); by destruct p|]. split; [done|].
  intros l L H. exists (__drawIndex L). by rewrite set_drawIndex_eta.
Qed.

Lemma painted_from_trans p q r : painted_from p q → painted_from q r → painted_from p r.
Proof.
  intros ([h1 E1] & Hl1 & H1) ([h2 E2] & Hl2 & H2).
  split; [|split; [congruence|]].
  - exists h2. rewrite E2 at 1. rewrite E1. reflexivity.
  - intros l L HL. destruct (H1 l L HL) as [d Hd].
    destruct (H2 l _ Hd) as [d' Hd']. exists d'. by rewrite Hd'.
Qed.

Lemma painted_from_store l d t j p :
  painted_from p (set_ticks t (set_journal j
                    (set_heap (<[l := set_drawIndex d (deref p l)]> (heap p)) p))).
Proof.
  split; [by eexists|]. split; [cbn; by rewrite length_insert|].
  intros l' L HL. cbn. destruct (decide (l = l')) as [->|Hne].
  - exists d. rewrite (heap_lookup_deref _ _ _ HL).
    apply list_lookup_insert_eq. by eapply lookup_lt_Some.
  - exists (__drawIndex L). rewrite set_drawIndex_eta.
    by rewrite list_lookup_insert_ne.
Qed.

Lemma painted_from_wf p q : painted_from p q → wf p → wf q.
Proof.
  intros ([h E] & Hl & _) (Ho & Hc & Hd). rewrite E.
  split; [exact Ho|]. split; [|exact Hd].
  intros k l Hk. cbn in Hk |- *.
  assert (Hlen : length h = length (heap p)).
  { rewrite <- Hl. rewrite E. reflexivity. }
  rewrite Hlen. by eapply Hc.
Qed.

Lemma painted_from_registry p q :
  painted_from p q →
  _layers q = _layers p ∧ _zlevelList q = _zlevelList p ∧ mode q = mode p
  ∧ static q = static p ∧ frames q = frames p ∧ _hoverlayer q = _hoverlayer p
  ∧ _layerConfig q = _layerConfig p ∧ _hoverElements q = _hoverElements p.
Proof. intros ([h E] & _). rewrite E. done. Qed.

Lemma painted_from_layer_at p q k L :
  painted_from p q → layer_at p k = Some L →
  ∃ d, layer_at q k = Some (set_drawIndex d L).
Proof.
  intros Hpq HL. apply layer_at_Some in HL as (l & Hl & HL).
  destruct Hpq as (HE & _ & Hh). destruct (Hh l L HL) as [d Hd].
  exists d. apply layer_at_Some. exists l. split; [|done].
  destruct HE as [h E]. rewrite E. exact Hl.
Qed.

(** Painting a layer, whatever the outcome of its guards: what is written
    is the journal, the clock and the layer's [__drawIndex].  Without the
    timer the clock is not read and the whole range is painted. *)
Lemma paint_layer_shape now els (paintAll : bool) (layer : loc) (p : Painter)
    (fin : bool) p' fin' :
  paint_layer now els paintAll layer (p, fin) = Some (p', fin') →
  let L := deref p layer in
  let start0 := if paintAll then __startIndex L else __drawIndex L in
  let start := if start0 =? -1 then __startIndex L else start0 in
  ∃ i t j,
    p' = set_ticks t (set_journal j
           (set_heap (<[layer := set_drawIndex i L]> (heap p)) p))
    ∧ fin' = (if __drawIndex (deref p' layer) <? __endIndex (deref p' layer)
              then false else fin)
    ∧ (negb paintAll && incremental L = false →
       t = ticks p ∧ i = start + Z.of_nat (Z.to_nat (__endIndex L - start))).
Proof.
  intros H L start0 start. unfold paint_layer in H. fold L in H. fold start0 in H.
  set (useTimer := negb paintAll && incremental L) in *.
  set (p0 := (if useTimer then Date_now now p else (0, p)).2).
  set (t0 := (if useTimer then Date_now now p else (0, p)).1).
  assert (Hp0 : (if useTimer then Date_now now p else (0, p)) = (t0, p0))
    by (subst t0 p0; by destruct useTimer).
  assert (Hp0' : p0 = set_ticks (ticks p + (if useTimer then 1 else 0))%nat p).
  { subst p0. destruct useTimer; cbn.
    - unfold Date_now. cbn. by rewrite Nat.add_1_r.
    - rewrite Nat.add_0_r. by destruct p. }
  rewrite Hp0 in H. cbv iota beta in H. clearbody p0 t0.
  match type of H with
  | (?c ≫= _) = _ => destruct c as [p1|] eqn:Hc; cbn [mbind option_bind] in H; [|done]
  end.
  assert (Hp1 : ∃ j1, p1 = set_journal j1 p0).
  { destruct (__startIndex L =? __endIndex L).
    - injection Hc as <-. by eexists.
    - destruct (start0 =? __startIndex L).
      + destruct (at_index els start0) as [f|]; cbn in Hc; [|done].
        injection Hc as <-. destruct (_ || _); [by eexists|].
        exists (journal p0). by destruct p0.
      + injection Hc as <-. exists (journal p0). by destruct p0. }
  destruct Hp1 as [j1 ->].
  assert (Herr : ∃ j2, (if start0 =? -1
                        then (emit (LogError DrawIndexSentinel) (set_journal j1 p0),
                              __startIndex L)
                        else (set_journal j1 p0, start0))
                       = (set_journal j2 p0, start)).
  { subst start. destruct (start0 =? -1); by eexists. }
  destruct Herr as [j2 Herr]. rewrite Herr in H.
  assert (Hd2 : deref (set_journal j2 p0) layer = L) by (rewrite Hp0'; reflexivity).
  destruct (paint_loop_spec now (Z.to_nat (__endIndex L - start)) start layer
              paintAll useTimer t0 (set_journal j2 p0)) as (k & Hk & Hst & Hend).
  rewrite Hd2 in Hst.
  destruct (paint_loop now _ _ _ _ _ _ _) as [q i]. cbn [fst snd] in Hst, Hend.
  injection H as <- <-.
  assert (Hdq : deref q layer = L) by (rewrite Hst; exact Hd2).
  exists i. eexists _, _. split; [|split; [reflexivity|]].
  - unfold modify, store. rewrite Hdq, Hst, Hp0'.
    unfold set_ticks, set_journal, set_heap. cbn. reflexivity.
  - intros Hu. rewrite Hu in *. cbn. rewrite Nat.add_0_r.
    destruct Hend as [[-> He]|(? & _)]; [|done]. split; [|done].
    cbn. lia.
Qed.

Lemma paint_layer_frame now els paintAll layer p fin p' fin' :
  paint_layer now els paintAll layer (p, fin) = Some (p', fin') → painted_from p p'.
Proof.
  intros H. destruct (paint_layer_shape _ _ _ _ _ _ _ _ H) as (i & t & j & -> & _).
  apply painted_from_store.
Qed.

Lemma paint_layers_frame now els paintAll layerList p fin p' fin' :
  paint_layers now els paintAll layerList (p, fin) = Some (p', fin') →
  painted_from p p'.
Proof.
  revert p fin. induction layerList as [|l ls IH]; intros p fin H; cbn in H.
  - injection H as <- <-. apply painted_from_refl.
  - destruct (paint_layer now els paintAll l (p, fin)) as [[q f]|] eqn:Hq;
      cbn in H; [|done].
    eapply painted_from_trans; [by eapply paint_layer_frame|by eapply IH].
Qed.

(** The paint pass writes nothing but the journal, the clock and the
    [__drawIndex] of layer objects: the registry, the stored configuration,
    the flags, the hover state, the queue of frame callbacks and every other
    field of every layer object come out as they went in. *)
Theorem doPaintList_frame (now : nat → Z) (els : list Element) (paintAll : bool)
    (p p' : Painter) (fin : bool) :
  _doPaintList now els paintAll p = Some (p', fin) →
  (∃ h, p' = set_ticks (ticks p') (set_journal (journal p') (set_heap h p)))
  ∧ length (heap p') = length (heap p)
  ∧ ∀ l L, heap p !! l = Some L → ∃ d, heap p' !! l = Some (set_drawIndex d L).
Proof.
  unfold _doPaintList. intros H.
  destruct (collect_layers paintAll (_zlevelList p) p) as [ls|]; cbn in H; [|done].
  by apply paint_layers_frame in H.
Qed.

Lemma doPaintList_frame_witness :
  ∃ p p',
    _doPaintList slow_clock three_incremental false p = Some (p', false)
    ∧ (∃ h, p' = set_ticks (ticks p') (set_journal (journal p') (set_heap h p)))
    ∧ length (heap p') = length (heap p)
    ∧ ∀ l L, heap p !! l = Some L → ∃ d, heap p' !! l = Some (set_drawIndex d L).
Proof.
  eexists (default (CanvasPainter false)
             (_updateLayerStatus three_incremental (CanvasPainter false))), _.
  assert (H : _doPaintList slow_clock three_incremental false
                (default (CanvasPainter false)
                   (_updateLayerStatus three_incremental (CanvasPainter false)))
              = Some (_, false)) by (vm_compute; reflexivity).
  split; [exact H|].
  exact (doPaintList_frame slow_clock three_incremental false _ _ false H).
Defined.

Lemma paint_layer_untimed now els (paintAll : bool) (layer : loc) (p : Painter)
    (fin : bool) p' fin' :
  paint_layer now els paintAll layer (p, fin) = Some (p', fin') →
  negb paintAll && incremental (deref p layer) = false →
  fin' = fin ∧ ticks p' = ticks p.
Proof.
  intros H Hu.
  destruct (paint_layer_shape _ _ _ _ _ _ _ _ H) as (i & t & j & Hp' & Hf & Hi).
  destruct (Hi Hu) as (-> & Hi'). clear Hi. split; [|by rewrite Hp'].
  rewrite Hf. clear Hf.
  destruct (decide (layer < length (heap p))%nat) as [Hlt|Hge].
  - assert (Hd : deref p' layer = set_drawIndex i (deref p layer)).
    { rewrite Hp'. unfold deref. cbn. apply list_lookup_total_correct.
      by apply list_lookup_insert_eq. }
    rewrite Hd. cbn.
    replace (i <? __endIndex (deref p layer)) with false; [done|].
    symmetry. apply Z.ltb_ge. rewrite Hi'.
    destruct (if paintAll then __startIndex (deref p layer)
              else __drawIndex (deref p layer)) eqn:?; try lia;
      destruct (_ =? _); lia.
  - assert (Hd : deref p' layer = new_Layer).
    { rewrite Hp'. unfold deref. cbn. rewrite list_insert_ge by lia.
      rewrite list_lookup_total_alt, lookup_ge_None_2 by lia. reflexivity. }
    by rewrite Hd.
Qed.

Lemma paint_layers_untimed now els (paintAll : bool) layerList p fin p' fin' :
  paint_layers now els paintAll layerList (p, fin) = Some (p', fin') →
  (paintAll = true ∨ ∀ l L, heap p !! l = Some L → incremental L = false) →
  fin' = fin ∧ ticks p' = ticks p.
Proof.
  revert p fin. induction layerList as [|l ls IH]; intros p fin H Hno; cbn in H.
  - by injection H as <- <-.
  - destruct (paint_layer now els paintAll l (p, fin)) as [[q f]|] eqn:Hq;
      cbn in H; [|done].
    assert (Hu : negb paintAll && incremental (deref p l) = false).
    { destruct Hno as [->|Hno]; [done|]. apply andb_false_iff. right.
      destruct (heap p !! l) as [L|] eqn:HL.
      - rewrite (heap_lookup_deref _ _ _ HL). exact (Hno l L HL).
      - unfold deref, loc in *. by rewrite list_lookup_total_alt, HL. }
    destruct (paint_layer_untimed _ _ _ _ _ _ _ _ Hq Hu) as (-> & Ht).
    destruct (IH q fin H) as (-> & Ht'); [|by rewrite Ht', Ht].
    destruct Hno as [?|Hno]; [by left|right].
    intros l' L' HL'. apply paint_layer_frame in Hq as (_ & Hlen & Hh).
    destruct (lookup_lt_is_Some_2 (heap p) l') as [L0 HL0].
    { rewrite <- Hlen. by eapply lookup_lt_Some. }
    destruct (Hh l' L0 HL0) as [d Hd]. rewrite Hd in HL'. injection HL' as <-.
    cbn. by eapply Hno.
Qed.

(** Only incremental layers are time-sliced.  When the paint is forced, or
    when no layer object is incremental, the paint pass does not read the
    clock and reports that it has finished. *)
Theorem doPaintList_untimed_finishes (now : nat → Z) (els : list Element)
    (paintAll : bool) (p p' : Painter) (fin : bool) :
  _doPaintList now els paintAll p = Some (p', fin) →
  (paintAll = true ∨ ∀ l L, heap p !! l = Some L → incremental L = false) →
  fin = true ∧ ticks p' = ticks p.
Proof.
  unfold _doPaintList. intros H Hno.
  destruct (collect_layers paintAll (_zlevelList p) p) as [ls|]; cbn in H; [|done].
  by eapply paint_layers_untimed.
Qed.

Lemma doPaintList_untimed_finishes_witness :
  ∃ p p',
    _doPaintList slow_clock three_incremental true p = Some (p', true)
    ∧ (true = true ∨ ∀ l L, heap p !! l = Some L → incremental L = false)
    ∧ true = true ∧ ticks p' = ticks p.
Proof.
  eexists (default (CanvasPainter false)
             (_updateLayerStatus three_incremental (CanvasPainter false))), _.
  assert (H : _doPaintList slow_clock three_incremental true
                (default (CanvasPainter false)
                   (_updateLayerStatus three_incremental (CanvasPainter false)))
              = Some (_, true)) by (vm_compute; reflexivity).
  split; [exact H|]. split; [by left|].
  exact (doPaintList_untimed_finishes slow_clock three_incremental true _ _ true H
           (or_introl eq_refl)).
Defined.

(** ** Which layers the paint pass visits *)

Lemma collect_layers_spec (paintAll : bool) zs p :
  (∀ k, k ∈ zs → is_Some (_layers p !! k)) →
  ∃ ls, collect_layers paintAll zs p = Some ls
        ∧ ∀ l, l ∈ ls ↔
               ∃ k, k ∈ zs ∧ _layers p !! k = Some l
                    ∧ __builtin__ (deref p l) = true
                    ∧ Some l ≠ _hoverlayer p
                    ∧ (__dirty (deref p l) = true ∨ paintAll = true).
Proof.
  induction zs as [|z zs IH]; intros Hreg.
  { exists []. split; [done|]. intros l. split; [by intros ?%elem_of_nil|].
    by intros (k & ?%elem_of_nil & _). }
  destruct (Hreg z (list_elem_of_here _ _)) as [l0 Hl0].
  destruct IH as (ls & Hls & Hin).
  { intros k Hk. apply Hreg. by apply list_elem_of_further. }
  cbn [collect_layers]. rewrite Hl0, Hls. cbn [mbind option_bind].
  eexists. split; [reflexivity|]. intros l.
  set (c := __builtin__ (deref p l0)
            && negb (bool_decide (Some l0 = _hoverlayer p))
            && (__dirty (deref p l0) || paintAll)).
  assert (Hc : c = true ↔ __builtin__ (deref p l0) = true
                          ∧ Some l0 ≠ _hoverlayer p
                          ∧ (__dirty (deref p l0) = true ∨ paintAll = true)).
  { subst c. rewrite !andb_true_iff, negb_true_iff, bool_decide_eq_false,
      orb_true_iff. tauto. }
  split.
  - intros Hl.
    assert (Hcase : (c = true ∧ l = l0) ∨ l ∈ ls).
    { destruct c; [|by right].
      apply elem_of_cons in Hl as [->|?]; [by left|by right]. }
    destruct Hcase as [[Hct ->]|Hl'].
    + exists z. split; [apply list_elem_of_here|]. split; [done|]. by apply Hc.
    + apply Hin in Hl' as (k & Hk & ?). exists k. split; [|done].
      by apply list_elem_of_further.
  - intros (k & Hk & Hkl & Hb & Hh & Hd).
    apply elem_of_cons in Hk as [->|Hk].
    + assert (l = l0) as -> by congruence.
      replace c with true by (symmetry; by apply Hc). apply list_elem_of_here.
    + assert (l ∈ ls) by (apply Hin; by exists k).
      destruct c; [by apply list_elem_of_further|done].
Qed.

Lemma at_index_is_Some {A} (l : list A) i :
  0 ≤ i < Z.of_nat (length l) → is_Some (at_index l i).
Proof.
  intros H. unfold at_index.
  replace (i <? 0) with false by (symmetry; apply Z.ltb_ge; lia).
  apply lookup_lt_is_Some_2. lia.
Qed.

Lemma brushes_paint_events layer e i k : Forall is_paint_event (brushes layer e i k).
Proof. unfold brushes. apply Forall_fmap, Forall_true. done. Qed.

(** Painting a paintable layer succeeds, logs nothing and leaves the layer
    with its draw index inside its range. *)
Lemma paint_layer_ok now els (paintAll : bool) k l p fin :
  wf p → _layers p !! k = Some l →
  paintable (Z.of_nat (length els)) paintAll (deref p l) →
  (__dirty (deref p l) = true ∨ paintAll = true) →
  ∃ p' fin' evs i,
    paint_layer now els paintAll l (p, fin) = Some (p', fin')
    ∧ painted_from p p'
    ∧ journal p' = journal p ++ evs ∧ Forall is_paint_event evs
    ∧ deref p' l = set_drawIndex i (deref p l)
    ∧ __startIndex (deref p l) ≤ i ≤ __endIndex (deref p l)
    ∧ __drawIndex (deref p l) ≤ i
    ∧ ∀ l', l' ≠ l → deref p' l' = deref p l'.
Proof.
  intros (_ & Hc & _) Hk (((Hs0 & Hse) & Hdr) & Hn & Hd) Hdp.
  pose proof (Hc _ _ Hk) as Hlt.
  set (L := deref p l) in *.
  set (start0 := if paintAll then __startIndex L else __drawIndex L).
  assert (Hstart0 : __startIndex L ≤ start0 ≤ __endIndex L).
  { subst start0. destruct paintAll; [lia|].
    destruct Hdp as [Hdirty|?]; [|done]. specialize (Hd eq_refl Hdirty). lia. }
  assert (Hns : (start0 =? -1) = false) by (apply Z.eqb_neq; lia).
  destruct (paint_layer_spec now els paintAll l p fin Hlt)
    as (clr & n & i & Hp & Hclr & _ & Hend).
  { fold L. fold start0.
    destruct (decide (__startIndex L = __endIndex L)) as [?|Hne]; [by left|].
    destruct (decide (start0 = __startIndex L)) as [->|?]; [|right; by left].
    right. right. apply at_index_is_Some. specialize (Hn Hne). lia. }
  fold L in Hp, Hend. fold start0 in Hp, Hend. rewrite Hns in Hp, Hend.
  eexists _, _, _, i. split; [exact Hp|].
  split; [apply painted_from_store|].
  split; [cbn; reflexivity|]. split.
  { apply Forall_app. split.
    - destruct Hclr as [->|[bg ->]]; [done|]. by repeat constructor.
    - cbn [app]. destruct (__dirty L || paintAll); [|done].
      apply brushes_paint_events. }
  split.
  { unfold deref. cbn. apply list_lookup_total_correct.
    by apply list_lookup_insert_eq. }
  split; [|split].
  - destruct Hend as [[Hn' ->]|(_ & ? & ? & ->)]; lia.
  - subst start0. destruct paintAll.
    + destruct Hend as [[Hn' ->]|(Hu & _)]; [lia|done].
    + destruct Hend as [[Hn' ->]|(_ & ? & ? & ->)]; lia.
  - intros l' Hne. unfold deref. cbn.
    rewrite !list_lookup_total_alt. by rewrite list_lookup_insert_ne.
Qed.

Lemma paint_layers_ok now els (paintAll : bool) ls p fin :
  wf p → all_paintable (Z.of_nat (length els)) paintAll p →
  (∀ l, l ∈ ls → ∃ k, _layers p !! k = Some l
                      ∧ __builtin__ (deref p l) = true
                      ∧ (__dirty (deref p l) = true ∨ paintAll = true)) →
  ∃ p' fin' evs,
    paint_layers now els paintAll ls (p, fin) = Some (p', fin')
    ∧ painted_from p p'
    ∧ all_paintable (Z.of_nat (length els)) paintAll p'
    ∧ journal p' = journal p ++ evs ∧ Forall is_paint_event evs
    ∧ (∀ l0, __drawIndex (deref p l0) ≤ __drawIndex (deref p' l0))
    ∧ (∀ l0, __startIndex (deref p l0) ≤ __drawIndex (deref p l0)
                                        ≤ __endIndex (deref p l0) →
             __startIndex (deref p' l0) ≤ __drawIndex (deref p' l0)
                                         ≤ __endIndex (deref p' l0))
    ∧ ∀ l, l ∈ ls →
           __startIndex (deref p' l) ≤ __drawIndex (deref p' l) ≤ __endIndex (deref p' l).
Proof.
  revert p fin. induction ls as [|l ls IH]; intros p fin Hwf HQ Hls.
  { exists p, fin, []. split; [done|]. split; [apply painted_from_refl|].
    split; [done|]. split; [by rewrite app_nil_r|]. split; [done|].
    split; [done|]. split; [done|]. by intros l ?%elem_of_nil. }
  destruct (Hls l (list_elem_of_here _ _)) as (k & Hk & Hb & Hd).
  destruct (paint_layer_ok now els paintAll k l p fin Hwf Hk (HQ _ _ Hk Hb) Hd)
    as (q & f & evs & i & Hq & Hpq & Hj & Hev & Hdl & Hi & Hmono & Hoth).
  pose proof (painted_from_wf _ _ Hpq Hwf) as Hwq.
  destruct (painted_from_registry _ _ Hpq) as (Hlq & _).
  assert (Hfields : ∀ l', __builtin__ (deref q l') = __builtin__ (deref p l')
                          ∧ __dirty (deref q l') = __dirty (deref p l')
                          ∧ __startIndex (deref q l') = __startIndex (deref p l')
                          ∧ __endIndex (deref q l') = __endIndex (deref p l')).
  { intros l'. destruct (decide (l' = l)) as [->|Hne].
    - by rewrite Hdl.
    - by rewrite (Hoth l' Hne). }
  assert (HQq : all_paintable (Z.of_nat (length els)) paintAll q).
  { intros k' l' Hk' Hb'. rewrite Hlq in Hk'.
    destruct (Hfields l') as (Hfb & Hfd & Hfs & Hfe). rewrite Hfb in Hb'.
    destruct (decide (l' = l)) as [->|Hne].
    - destruct (HQ _ _ Hk' Hb') as ((Hs0 & Hdr) & Hn & Hdd).
      rewrite Hdl. unfold paintable, ok_range. cbn. repeat split; try lia; try done.
    - rewrite (Hoth l' Hne). by eapply HQ. }
  destruct (IH q f Hwq HQq)
    as (p' & fin' & evs' & Hp' & Hqp & HQp & Hj' & Hev' & Hmono' & Hkeep' & Hin').
  { intros l' Hl'.
    destruct (Hls l' (list_elem_of_further _ _ _ Hl')) as (k' & Hk' & Hb' & Hd').
    destruct (Hfields l') as (Hfb & Hfd & _). exists k'.
    rewrite Hlq, Hfb, Hfd. done. }
  exists p', fin', (evs ++ evs'). cbn [paint_layers]. rewrite Hq. cbn [mbind option_bind].
  split; [exact Hp'|]. split; [by eapply painted_from_trans|]. split; [done|].
  split; [by rewrite Hj', Hj, (assoc_L (++))|]. split; [by apply Forall_app|].
  assert (Hql : __startIndex (deref q l) ≤ __drawIndex (deref q l) ≤ __endIndex (deref q l))
    by (rewrite Hdl; cbn; lia).
  split; [|split].
  - intros l0. specialize (Hmono' l0). destruct (decide (l0 = l)) as [->|Hnl].
    + rewrite Hdl in Hmono'. cbn in Hmono'. lia.
    + by rewrite (Hoth l0 Hnl) in Hmono'.
  - intros l0 H0. apply Hkeep'. destruct (decide (l0 = l)) as [->|Hnl]; [done|].
    by rewrite (Hoth l0 Hnl).
  - intros l' [->|Hl']%elem_of_cons; [by apply Hkeep'|by apply Hin'].
Qed.

(** ** The pass as a whole: [_paintList] *)

Lemma journal_getLayer zl virt p : journal (getLayer zl virt p).1 = journal p.
Proof.
  destruct (_layers p !! resolve p zl) as [l|] eqn:H.
  - by rewrite (getLayer_found _ _ _ _ H).
  - by rewrite (getLayer_fresh _ _ _ H).
Qed.

Lemma journal_updatePrevLayer prev i p : journal (updatePrevLayer prev i p) = journal p.
Proof. by destruct prev. Qed.

Lemma journal_walk_step i e w :
  ∃ evs, journal (w_painter (walk_step i e w)) = journal (w_painter w) ++ evs
         ∧ Forall (λ ev, ev ≠ LogError DrawIndexSentinel) evs.
Proof.
  rewrite walk_step_eq. cbv zeta. cbn [w_painter].
  pose proof (journal_getLayer (requested_zlevel e (incrementalLayerCount w))
                (_needsManuallyCompositing (w_painter w)) (w_painter w)) as Hg.
  destruct (getLayer _ _ _) as [p0 l]. cbn [fst snd] in *.
  set (p1 := if el_incremental e then modify l (set_incremental true) p0 else p0).
  assert (H1 : journal p1 = journal (w_painter w))
    by (subst p1; by destruct (el_incremental e)).
  clearbody p1.
  set (evs := if negb (__builtin__ (deref p1 l))
              then [LogError (ZLevelUnknownLayer (el_zlevel e))] else []).
  exists evs. split.
  - destruct (el_dirty e), (negb (bool_decide _)); cbn;
      rewrite ?journal_updatePrevLayer; cbn; subst evs;
      destruct (negb (__builtin__ _)); cbn; by rewrite ?H1, ?app_nil_r.
  - subst evs. destruct (negb _); by repeat constructor.
Qed.

Lemma journal_walk els i w :
  ∃ evs, journal (w_painter (walk els i w).1) = journal (w_painter w) ++ evs
         ∧ Forall (λ ev, ev ≠ LogError DrawIndexSentinel) evs.
Proof.
  revert i w. induction els as [|e els IH]; intros i w; cbn [walk].
  - exists []. by rewrite app_nil_r.
  - destruct (journal_walk_step i e w) as (evs & Hj & Hev).
    destruct (IH (i + 1) (walk_step i e w)) as (evs' & Hj' & Hev').
    exists (evs ++ evs'). split; [by rewrite Hj', Hj, (assoc_L (++))|].
    by apply Forall_app.
Qed.

Lemma each_builtin_emit (c : Layer → bool) (ev : loc → Event) zs p :
  (∀ k, k ∈ zs → is_Some (_layers p !! k)) →
  ∃ evs, each_builtin (λ l q, if c (deref q l) then emit (ev l) q else q) zs p
         = Some (set_journal (journal p ++ evs) p)
         ∧ Forall (λ e, ∃ l, e = ev l) evs.
Proof.
  revert p. induction zs as [|z zs IH]; intros p Hreg.
  { exists []. split; [|done]. cbn. rewrite app_nil_r. by destruct p. }
  destruct (Hreg z (list_elem_of_here _ _)) as [l Hl].
  cbn [each_builtin]. rewrite Hl.
  set (evs0 := if __builtin__ (deref p l) && c (deref p l) then [ev l] else []).
  assert (Hq : (if __builtin__ (deref p l)
                then if c (deref p l) then emit (ev l) p else p else p)
               = set_journal (journal p ++ evs0) p).
  { subst evs0. destruct (__builtin__ (deref p l)), (c (deref p l)); cbn;
      try done; rewrite app_nil_r; by destruct p. }
  rewrite Hq.
  destruct (IH (set_journal (journal p ++ evs0) p)) as (evs & He & Hev).
  { intros k Hk. cbn. apply Hreg. by apply list_elem_of_further. }
  exists (evs0 ++ evs). split.
  - rewrite He. cbn. by rewrite (assoc_L (++)).
  - apply Forall_app. split; [|done]. subst evs0.
    destruct (_ && _); [|done]. repeat constructor. by eexists.
Qed.

Lemma ranges_ok_getLayer zl virt p :
  wf p → ranges_ok p → ranges_ok (getLayer zl virt p).1.
Proof.
  intros Hwf Hro k L HL Hb.
  destruct (getLayer_wf zl virt p Hwf) as (_ & _ & _ & _ & _ & _ & Hv & Hvo).
  destruct (decide (k = resolve p zl)) as [->|Hne].
  - rewrite Hv in HL. injection HL as <-.
    destruct (layer_at p (resolve p zl)) as [L0|] eqn:HL0; cbn in *.
    + by eapply Hro.
    + destruct (created_layer_fields p (resolve p zl) virt) as (_ & Hs & He & Hd).
      unfold ok_range. rewrite Hs, He, Hd. lia.
  - rewrite (Hvo k Hne) in HL. by eapply Hro.
Qed.

Lemma compositeManually_ok p :
  wf p → ranges_ok p →
  ∃ p' evs, _compositeManually p = Some p' ∧ wf p' ∧ ranges_ok p'
            ∧ journal p' = journal p ++ evs
            ∧ Forall (λ ev, ev ≠ LogError DrawIndexSentinel) evs
            ∧ frames p' = frames (getLayer CANVAS_ZLEVEL false p).1
            ∧ ticks p' = ticks (getLayer CANVAS_ZLEVEL false p).1.
Proof.
  intros Hwf Hro. unfold _compositeManually, eachBuiltinLayer.
  pose proof (getLayer_wf CANVAS_ZLEVEL false p Hwf) as (Hw1 & _).
  pose proof (ranges_ok_getLayer CANVAS_ZLEVEL false p Hwf Hro) as Hr1.
  pose proof (journal_getLayer CANVAS_ZLEVEL false p) as Hj1.
  destruct (getLayer CANVAS_ZLEVEL false p) as [p1 main]. cbn [fst snd] in *.
  destruct (each_builtin_emit virtual DrawImage (_zlevelList p1)
              (emit (CompositeClear main) p1)) as (evs & He & Hev).
  { intros k Hk. cbn. by apply Hw1. }
  cbn [_zlevelList emit set_journal] in He |- *. rewrite He.
  eexists _, (CompositeClear main :: evs). split; [reflexivity|].
  split; [exact Hw1|]. split; [exact Hr1|]. split.
  - cbn. by rewrite Hj1, <- (assoc_L (++)).
  - split; [|done]. constructor; [done|].
    eapply Forall_impl; [exact Hev|]. by intros ev [l ->].
Qed.

Lemma journal_updateLayerStatus els p p' :
  wf p → _updateLayerStatus els p = Some p' →
  ∃ evs, journal p' = journal p ++ evs
         ∧ Forall (λ ev, ev ≠ LogError DrawIndexSentinel) evs.
Proof.
  intros Hwf Hp.
  destruct (updateLayerStatus_spec els p Hwf)
    as (p_r & p'' & _ & _ & _ & _ & Hjr & _ & Hp'' & _ & _ & _ & Hj & _).
  rewrite Hp in Hp''. injection Hp'' as <-.
  destruct (journal_walk els 0 (walk_start els p_r)) as (evs & Hw & Hev).
  exists evs. split; [|done]. rewrite Hj, Hw. cbn.
  destruct (detect_compositing_frame els p_r) as (_ & _ & _ & -> & _).
  by rewrite Hjr.
Qed.

Lemma classified_all_paintable keys n (paintAll : bool) p :
  wf p →
  (∀ k L, layer_at p k = Some L → __builtin__ L = true → classified_layer keys n k L) →
  all_paintable n paintAll p ∧ ranges_ok p.
Proof.
  intros (_ & Hc & _) H. split.
  - intros k l Hk Hb.
    destruct (H k _ (layer_at_deref _ _ _ Hc Hk) Hb) as (Hr & Hu & Hd & Hn & He).
    split; [done|]. split; [|intros _ Hdirty; specialize (Hd Hdirty); lia].
    intros Hne. destruct (__used (deref p l)) eqn:Hused.
    + specialize (Hn eq_refl). lia.
    + by specialize (He eq_refl).
  - intros k L HL Hb. by destruct (H k L HL Hb).
Qed.

Lemma all_paintable_ranges_ok n paintAll p :
  wf p → all_paintable n paintAll p → ranges_ok p.
Proof.
  intros (_ & Hc & _) H k L HL Hb.
  apply layer_at_Some in HL as (l & Hl & HL).
  rewrite <- (heap_lookup_deref _ _ _ HL) in Hb |- *.
  by destruct (H k l Hl Hb).
Qed.

(** [_paintList] on a well-formed painter whose layers have well-shaped
    ranges: the pass never throws, keeps the painter well-formed and the
    ranges well-shaped, and never logs the sentinel error of the paint loop:
    after classification no layer that gets painted has [-1] as its start. *)
Theorem paintList_safe (now : nat → Z) (els : list Element) (paintAll : bool)
    (redrawId : option Z) (p : Painter) :
  wf p → ranges_ok p →
  ∃ p' evs,
    _paintList now els paintAll redrawId p = Some p'
    ∧ wf p' ∧ ranges_ok p'
    ∧ journal p' = journal p ++ evs
    ∧ Forall (λ ev, ev ≠ LogError DrawIndexSentinel) evs.
Proof.
  intros Hwf Hro. unfold _paintList.
  destruct (negb (bool_decide (_redrawId p = redrawId))).
  { exists p, []. by rewrite app_nil_r. }
  destruct (updateLayerStatus_classified els p Hwf Hro) as (p1 & Hp1 & Hw1 & Hcl).
  destruct (journal_updateLayerStatus els p p1 Hwf Hp1) as (evs1 & Hj1 & Hev1).
  rewrite Hp1. cbn [mbind option_bind].
  destruct (classified_all_paintable _ _ paintAll p1 Hw1 Hcl) as (HQ1 & _).
  destruct (collect_layers_spec paintAll (_zlevelList p1) p1) as (ls & Hls & Hin).
  { intros k Hk. by apply Hw1. }
  destruct (paint_layers_ok now els paintAll ls p1 true Hw1 HQ1)
    as (p2 & fin & evs2 & Hp2 & Hfrom & HQ2 & Hj2 & Hev2 & _).
  { intros l Hl. apply Hin in Hl as (k & _ & Hk & Hb & _ & Hd). by exists k. }
  unfold _doPaintList. rewrite Hls. cbn [mbind option_bind]. rewrite Hp2.
  cbn [mbind option_bind].
  pose proof (painted_from_wf _ _ Hfrom Hw1) as Hw2.
  pose proof (all_paintable_ranges_ok _ _ _ Hw2 HQ2) as Hr2.
  assert (Hev2' : Forall (λ ev, ev ≠ LogError DrawIndexSentinel) evs2).
  { eapply Forall_impl; [exact Hev2|]. intros ev Hev ->. exact Hev. }
  destruct (_needsManuallyCompositing p2).
  - destruct (compositeManually_ok p2 Hw2 Hr2)
      as (p3 & evs3 & Hp3 & Hw3 & Hr3 & Hj3 & Hev3 & _).
    rewrite Hp3. cbn [mbind option_bind].
    eexists _, (evs1 ++ evs2 ++ evs3). split; [reflexivity|].
    split; [by destruct (negb fin)|]. split; [by destruct (negb fin)|]. split.
    + transitivity (journal p3); [by destruct (negb fin)|].
      by rewrite Hj3, Hj2, Hj1, <- !(assoc_L (++)).
    + by repeat (apply Forall_app; split).
  - cbn [mbind option_bind].
    eexists _, (evs1 ++ evs2). split; [reflexivity|].
    split; [by destruct (negb fin)|]. split; [by destruct (negb fin)|]. split.
    + transitivity (journal p2); [by destruct (negb fin)|].
      by rewrite Hj2, Hj1, <- !(assoc_L (++)).
    + by apply Forall_app.
Qed.

Lemma ranges_ok_CanvasPainter b : ranges_ok (CanvasPainter b).
Proof.
  intros k L HL _. apply layer_at_Some in HL as (l & Hl & HL).
  destruct b.
  - assert (l = 0%nat) as ->.
    { change (_layers (CanvasPainter true)) with (<[CANVAS_ZLEVEL := 0%nat]> (∅ : gmap Z loc))
        in Hl.
      destruct (decide (k = CANVAS_ZLEVEL)) as [->|Hne].
      - rewrite lookup_insert_eq in Hl. congruence.
      - by rewrite lookup_insert_ne, lookup_empty in Hl. }
    cbn in HL. injection HL as <-. unfold ok_range. cbn. lia.
  - change (_layers (CanvasPainter false)) with (∅ : gmap Z loc) in Hl.
    by rewrite lookup_empty in Hl.
Qed.

Lemma paintList_safe_witness :
  wf (CanvasPainter true) ∧ ranges_ok (CanvasPainter true)
  ∧ ∃ p' evs,
      _paintList slow_clock three_incremental false None (CanvasPainter true) = Some p'
      ∧ wf p' ∧ ranges_ok p'
      ∧ journal p' = journal (CanvasPainter true) ++ evs
      ∧ Forall (λ ev, ev ≠ LogError DrawIndexSentinel) evs.
Proof.
  split; [apply wf_CanvasPainter|]. split; [apply ranges_ok_CanvasPainter|].
  exact (paintList_safe slow_clock three_incremental false None (CanvasPainter true)
           (wf_CanvasPainter true) (ranges_ok_CanvasPainter true)).
Defined.

(** What classification leaves on every registered engine-built layer, on a
    well-formed painter with well-shaped ranges.  The layer is marked used
    exactly when its key is the key of some element of the list.  Its indices
    are well-shaped.  A dirty layer has a proper draw index, inside its
    range; the sentinel is left only on layers that are not dirty.  A used
    layer has a non-empty range inside the list, and a layer that is not used
    has an empty one. *)
Theorem updateLayerStatus_layer_state (els : list Element) (p : Painter) :
  wf p → ranges_ok p →
  ∃ p', _updateLayerStatus els p = Some p'
        ∧ ∀ k L, layer_at p' k = Some L → __builtin__ L = true →
            (__used L = true ↔ k ∈ layer_keys els p)
            ∧ 0 ≤ __startIndex L ≤ __endIndex L
            ∧ (__drawIndex L = -1 ∨ __startIndex L ≤ __drawIndex L ≤ __endIndex L)
            ∧ (__dirty L = true → __startIndex L ≤ __drawIndex L ≤ __endIndex L)
            ∧ (__used L = true →
                 __startIndex L < __endIndex L ≤ Z.of_nat (length els))
            ∧ (__used L = false → __startIndex L = __endIndex L).
Proof.
  intros Hwf Hro.
  destruct (updateLayerStatus_classified els p Hwf Hro) as (p' & Hp' & _ & H).
  exists p'. split; [done|]. intros k L HL Hb.
  destruct (H k L HL Hb) as ((H1 & H2) & H3 & H4 & H5 & H6). done.
Qed.

Lemma updateLayerStatus_layer_state_witness :
  wf (CanvasPainter false) ∧ ranges_ok (CanvasPainter false)
  ∧ ∃ p', _updateLayerStatus three_incremental (CanvasPainter false) = Some p'
        ∧ ∀ k L, layer_at p' k = Some L → __builtin__ L = true →
            (__used L = true ↔ k ∈ layer_keys three_incremental (CanvasPainter false))
            ∧ 0 ≤ __startIndex L ≤ __endIndex L
            ∧ (__drawIndex L = -1 ∨ __startIndex L ≤ __drawIndex L ≤ __endIndex L)
            ∧ (__dirty L = true → __startIndex L ≤ __drawIndex L ≤ __endIndex L)
            ∧ (__used L = true →
                 __startIndex L < __endIndex L ≤ Z.of_nat (length three_incremental))
            ∧ (__used L = false → __startIndex L = __endIndex L).
Proof.
  split; [apply wf_CanvasPainter|]. split; [apply ranges_ok_CanvasPainter|].
  exact (updateLayerStatus_layer_state three_incremental (CanvasPainter false)
           (wf_CanvasPainter false) (ranges_ok_CanvasPainter false)).
Defined.

(** ** Layers that the walk does not visit *)

(** The walk leaves the layer of every key it does not visit as it was. *)
Lemma walk_untouched els w :
  linked None w →
  ∀ k, k ∉ walk_keys els w →
       layer_at (w_painter (walk els 0 w).1) k = layer_at (w_painter w) k.
Proof.
  intros Hl.
  set (I := λ (done : list Z) (w' : Walk),
         ∀ k, k ∉ done → layer_at (w_painter w') k = layer_at (w_painter w) k).
  assert (Hstep : ∀ done w e, linked (last done) w → I done w →
            I (done ++ [resolve (w_painter w)
                          (requested_zlevel e (incrementalLayerCount w))])
              (walk_step (Z.of_nat (length done)) e w)).
  { clear Hl. intros done w1 e (Hwf & Hprev & Hkp) HI k Hk.
    destruct (walk_step_view (Z.of_nat (length done)) e w1 (last done) Hwf Hprev Hkp)
      as (_ & _ & _ & _ & _ & _ & _ & _ & _ & Hoth).
    rewrite elem_of_snoc in Hk.
    rewrite Hoth.
    - apply HI. tauto.
    - intros ->. tauto.
    - intros Hlast. apply Hk. left. apply last_Some in Hlast as [l' ->].
      apply elem_of_snoc. by right. }
  destruct (walk_invariant I Hstep els [] w Hl) as (_ & H & _); [by intros k _|].
  exact H.
Qed.

Lemma wf_sublayer_painter : wf sublayer_painter.
Proof.
  destruct (updateLayerStatus_spec [el 0 false true; el 0 true true; el 0 false true]
              (CanvasPainter false) (wf_CanvasPainter false))
    as (p_r & p' & _ & _ & _ & _ & _ & _ & Hp' & Hw' & _).
  unfold sublayer_painter. by rewrite Hp'.
Qed.

(** A registered engine-built layer whose key no element of the list asks for
    ("used in last frame but not in this frame"): if it still holds elements
    its range is collapsed to [0, 0), its draw index is set to 0 and it is
    marked dirty, so that the coming paint pass clears it; if it holds none it
    is left clean, with its indices as they were.  Either way it is marked
    unused. *)
Theorem updateLayerStatus_abandoned_layer (els : list Element) (p : Painter)
    (k : Z) (L : Layer) :
  wf p → layer_at p k = Some L → __builtin__ L = true →
  k ∉ layer_keys els p →
  ∃ p', _updateLayerStatus els p = Some p'
        ∧ layer_at p' k
          = Some (if 0 <? __endIndex L - __startIndex L
                  then set_drawIndex 0 (set_endIndex 0 (set_startIndex 0
                         (set_dirty true (set_used false L))))
                  else set_dirty false (set_used false L)).
Proof.
  intros Hwf HL Hb Hk.
  destruct (updateLayerStatus_spec els p Hwf)
    as (p_r & p' & _ & Hwr & _ & Hmr & _ & Hvr & Hp' & _ & _ & _ & _ & Hv).
  exists p'. split; [done|].
  destruct (detect_compositing_frame els p_r) as (Hwd & _ & _ & _ & _ & Hvd).
  assert (Hl0 : linked None (walk_start els p_r)).
  { split; [by apply Hwd|]. split; [done|]. by intros k0 [=]. }
  assert (Hkeys : walk_keys els (walk_start els p_r) = layer_keys els p).
  { unfold walk_keys, layer_keys, walk_start. cbn.
    apply list_fmap_ext. intros _ x _. apply resolve_mode.
    by apply mode_detect_compositing. }
  rewrite <- Hkeys in Hk.
  rewrite Hv, (walk_untouched els _ Hl0 k Hk).
  cbn [walk_start w_painter]. rewrite Hvd, Hvr, HL. cbn [fmap option_fmap option_map].
  rewrite decide_False.
  2:{ intros Hlast. apply Hk. rewrite Hkeys. apply last_Some in Hlast as [l' ->].
      apply elem_of_snoc. by right. }
  f_equal. unfold settle_view, reset_view. rewrite Hb. cbn [reset_status].
  unfold settle_status, getElementCount. cbn.
  destruct (0 <? __endIndex L - __startIndex L); cbn; by rewrite Hb.
Qed.

Lemma updateLayerStatus_abandoned_layer_witness :
  ∃ L p',
    layer_at sublayer_painter 0 = Some L ∧ __builtin__ L = true
    ∧ (0 ∉ layer_keys [el 5 false true] sublayer_painter)
    ∧ _updateLayerStatus [el 5 false true] sublayer_painter = Some p'
    ∧ layer_at p' 0
      = Some (if 0 <? __endIndex L - __startIndex L
              then set_drawIndex 0 (set_endIndex 0 (set_startIndex 0
                     (set_dirty true (set_used false L))))
              else set_dirty false (set_used false L)).
Proof.
  assert (HL : layer_at sublayer_painter 0
               = Some (default new_Layer (layer_at sublayer_painter 0)))
    by (vm_compute; reflexivity).
  assert (Hb : __builtin__ (default new_Layer (layer_at sublayer_painter 0)) = true)
    by (vm_compute; reflexivity).
  assert (Hk : 0 ∉ layer_keys [el 5 false true] sublayer_painter).
  { intros H. vm_compute in H. apply list_elem_of_singleton in H. discriminate H. }
  destruct (updateLayerStatus_abandoned_layer [el 5 false true] sublayer_painter 0 _
              wf_sublayer_painter HL Hb Hk) as (p' & Hp' & Hv).
  exists (default new_Layer (layer_at sublayer_painter 0)), p'.
  split; [exact HL|]. split; [exact Hb|]. split; [exact Hk|].
  split; [exact Hp'|exact Hv].
Defined.

(** ** What classification does not write *)

(** Classification writes the store of layer objects, the journal, the
    registry and the compositing flag.  A function of the painter that does
    not depend on the first four is therefore not changed by anything but the
    single-canvas test. *)
Section Projection.

Context {A : Type} (f : Painter → A).
Hypothesis f_heap : ∀ h p, f (set_heap h p) = f p.
Hypothesis f_journal : ∀ j p, f (set_journal j p) = f p.
Hypothesis f_layers : ∀ m p, f (set_layers m p) = f p.
Hypothesis f_zlevelList : ∀ zs p, f (set_zlevelList zs p) = f p.

Lemma proj_modify l g p : f (modify l g p) = f p.
Proof. apply f_heap. Qed.

Lemma proj_emit e p : f (emit e p) = f p.
Proof. apply f_journal. Qed.

Lemma proj_insertLayer zl layer p : f (insertLayer zl layer p) = f p.
Proof.
  unfold insertLayer. destruct (_layers p !! zl); [apply proj_emit|].
  destruct (negb _); [apply proj_emit|]. destruct layer; [|done].
  by rewrite f_layers, f_zlevelList.
Qed.

Lemma proj_getLayer zl virt p : f (getLayer zl virt p).1 = f p.
Proof.
  unfold getLayer. destruct (_layers p !! _); [done|].
  cbn. by rewrite proj_insertLayer, f_heap.
Qed.

Lemma proj_each_builtin cb zs p p' :
  (∀ l q, f (cb l q) = f q) →
  each_builtin cb zs p = Some p' → f p' = f p.
Proof.
  intros Hcb. revert p. induction zs as [|z zs IH]; intros p H; simpl in H.
  - by inversion H.
  - destruct (_layers p !! z) as [l|]; [|done].
    apply IH in H. rewrite H. destruct (__builtin__ _); [apply Hcb|done].
Qed.

Lemma proj_updatePrevLayer prev idx p : f (updatePrevLayer prev idx p) = f p.
Proof. destruct prev; [apply proj_modify|done]. Qed.

Lemma proj_walk_step i e w : f (w_painter (walk_step i e w)) = f (w_painter w).
Proof.
  rewrite walk_step_eq. cbv zeta. cbn [w_painter].
  pose proof (proj_getLayer (requested_zlevel e (incrementalLayerCount w))
                (_needsManuallyCompositing (w_painter w)) (w_painter w)) as Hg.
  destruct (getLayer _ _ _) as [p0 l]. cbn [fst snd] in *.
  destruct (el_incremental e), (el_dirty e), (negb (bool_decide _)),
    (negb (__builtin__ _));
    rewrite ?proj_modify, ?proj_updatePrevLayer, ?proj_modify, ?proj_emit,
      ?proj_modify; done.
Qed.

Lemma proj_walk els i w : f (w_painter (walk els i w).1) = f (w_painter w).
Proof.
  revert i w. induction els as [|e els IH]; intros i w; cbn [walk]; [done|].
  by rewrite IH, proj_walk_step.
Qed.

Lemma proj_updateLayerStatus els p p' :
  _updateLayerStatus els p = Some p' →
  ∃ p_r, f p_r = f p ∧ static p_r = static p ∧ f p' = f (detect_compositing els p_r).
Proof.
  unfold _updateLayerStatus, eachBuiltinLayer. intros H.
  destruct (each_builtin _ (_zlevelList p) p) as [p1|] eqn:H1; [|done]. simpl in H.
  exists p1. split; [|split].
  - eapply proj_each_builtin; [|exact H1]. intros. apply proj_modify.
  - eapply static_each_builtin; [|exact H1]. intros. apply static_modify.
  - destruct (walk els 0 _) as [w i] eqn:Hw.
    apply proj_each_builtin in H; [|intros; apply proj_modify].
    rewrite H, proj_updatePrevLayer.
    pose proof (proj_walk els 0 {| w_painter := detect_compositing els p1;
      prevLayer := None; incrementalLayerCount := 0 |}) as Hs.
    by rewrite Hw in Hs.
Qed.

Lemma proj_compositeManually p p' :
  _compositeManually p = Some p' → f p' = f p.
Proof.
  unfold _compositeManually, eachBuiltinLayer. intros H.
  pose proof (proj_getLayer CANVAS_ZLEVEL false p) as Hg.
  destruct (getLayer CANVAS_ZLEVEL false p) as [q main]. simpl in *.
  apply proj_each_builtin in H.
  - by rewrite H, proj_emit.
  - intros l r. destruct (virtual _); [apply proj_emit|done].
Qed.

End Projection.

(** The single-canvas test, spelled out: some element after the first is
    incremental or has a z-level different from the one of the element
    before it. *)
Lemma needs_compositing_spec prev rest :
  needs_compositing prev rest = true
  ↔ ∃ i e e', (prev :: rest) !! i = Some e ∧ (prev :: rest) !! S i = Some e'
              ∧ (el_zlevel e' ≠ el_zlevel e ∨ el_incremental e' = true).
Proof.
  revert prev. induction rest as [|x rest IH]; intros prev.
  { split; [done|]. intros (i & e & e' & _ & H & _). by destruct i. }
  cbn [needs_compositing].
  destruct (negb (el_zlevel x =? el_zlevel prev) || el_incremental x) eqn:Hc.
  - split; [intros _|done]. exists 0%nat, prev, x. split; [done|]. split; [done|].
    apply orb_true_iff in Hc as [Hc|Hc]; [left|by right].
    apply negb_true_iff, Z.eqb_neq in Hc. done.
  - apply orb_false_iff in Hc as [Hz Hi].
    apply negb_false_iff, Z.eqb_eq in Hz.
    rewrite IH. split.
    + intros (i & e & e' & H1 & H2 & H3). by exists (S i), e, e'.
    + intros (i & e & e' & H1 & H2 & H3). destruct i as [|i].
      * cbn in H1, H2. injection H1 as <-. injection H2 as <-.
        destruct H3 as [H3|H3]; [done|congruence].
      * by exists i, e, e'.
Qed.

(** The compositing flag is a one-way switch that only the single-canvas
    test of classification turns on: after the pass it is set exactly when it
    was set before, or the painter has a single canvas and some element after
    the first is incremental or differs in z-level from the element before
    it. *)
Theorem updateLayerStatus_compositing_switch (els : list Element) (p p' : Painter) :
  _updateLayerStatus els p = Some p' →
  (_needsManuallyCompositing p' = true
   ↔ _needsManuallyCompositing p = true
     ∨ (_singleCanvas p = true
        ∧ ∃ i e e', els !! i = Some e ∧ els !! S i = Some e'
                    ∧ (el_zlevel e' ≠ el_zlevel e ∨ el_incremental e' = true))).
Proof.
  intros H.
  destruct (proj_updateLayerStatus _needsManuallyCompositing
              (λ _ _, eq_refl) (λ _ _, eq_refl) (λ _ _, eq_refl) (λ _ _, eq_refl)
              els p p' H) as (p_r & Hn & [= Hs _] & ->).
  unfold detect_compositing. rewrite Hs.
  destruct (_singleCanvas p); [|rewrite Hn; split; [by left|by intros [?|[? _]]]].
  destruct els as [|e0 rest].
  { rewrite Hn. split; [by left|]. intros [?|[_ (i & e & e' & H1 & _)]]; [done|].
    by destruct i. }
  pose proof (needs_compositing_spec e0 rest) as Hspec.
  destruct (needs_compositing e0 rest).
  - split; [intros _|done]. right. split; [done|]. by apply Hspec.
  - rewrite Hn. split; [by left|]. intros [?|[_ Hex]]; [done|].
    by apply Hspec in Hex.
Qed.

Lemma updateLayerStatus_compositing_switch_witness :
  ∃ p',
    _updateLayerStatus three_incremental (CanvasPainter true) = Some p'
    ∧ (_needsManuallyCompositing p' = true
       ↔ _needsManuallyCompositing (CanvasPainter true) = true
         ∨ (_singleCanvas (CanvasPainter true) = true
            ∧ ∃ i e e', three_incremental !! i = Some e
                        ∧ three_incremental !! S i = Some e'
                        ∧ (el_zlevel e' ≠ el_zlevel e ∨ el_incremental e' = true))).
Proof.
  assert (H : _updateLayerStatus three_incremental (CanvasPainter true)
              = Some (default (CanvasPainter true)
                        (_updateLayerStatus three_incremental (CanvasPainter true))))
    by (vm_compute; reflexivity).
  eexists. split; [exact H|].
  exact (updateLayerStatus_compositing_switch three_incremental (CanvasPainter true) _ H).
Defined.

(** Classification leaves the rest of the painter alone: the canvas mode, the
    stored configurations, the hover layer and its mirrors, the generation
    token, the clock and the queue of frame callbacks come out as they went
    in. *)
Theorem updateLayerStatus_frame (els : list Element) (p p' : Painter) :
  _updateLayerStatus els p = Some p' →
  _singleCanvas p' = _singleCanvas p
  ∧ _layerConfig p' = _layerConfig p
  ∧ _hoverlayer p' = _hoverlayer p
  ∧ _hoverElements p' = _hoverElements p
  ∧ _redrawId p' = _redrawId p
  ∧ ticks p' = ticks p
  ∧ frames p' = frames p.
Proof.
  intros H.
  destruct (proj_updateLayerStatus
              (λ q, (_singleCanvas q, _layerConfig q, _hoverlayer q, _hoverElements q,
                     _redrawId q, ticks q, frames q))
              (λ _ _, eq_refl) (λ _ _, eq_refl) (λ _ _, eq_refl) (λ _ _, eq_refl)
              els p p' H) as (p_r & Hr & _ & Hp).
  assert (Hd : ∀ q, (_singleCanvas (detect_compositing els q),
                     _layerConfig (detect_compositing els q),
                     _hoverlayer (detect_compositing els q),
                     _hoverElements (detect_compositing els q),
                     _redrawId (detect_compositing els q),
                     ticks (detect_compositing els q),
                     frames (detect_compositing els q))
                    = (_singleCanvas q, _layerConfig q, _hoverlayer q, _hoverElements q,
                       _redrawId q, ticks q, frames q)).
  { intros q.
    assert (Hcase : detect_compositing els q = q
                    ∨ detect_compositing els q = set_needsManuallyCompositing true q).
    { unfold detect_compositing. destruct (_singleCanvas q); [|by left].
      destruct els as [|e0 rest]; [by left|].
      destruct (needs_compositing e0 rest); [by right|by left]. }
    by destruct Hcase as [-> | ->]. }
  rewrite Hd, Hr in Hp. by injection Hp as -> -> -> -> -> -> ->.
Qed.

Lemma updateLayerStatus_frame_witness :
  ∃ p',
    _updateLayerStatus three_incremental pending_painter = Some p'
    ∧ _singleCanvas p' = _singleCanvas pending_painter
    ∧ _layerConfig p' = _layerConfig pending_painter
    ∧ _hoverlayer p' = _hoverlayer pending_painter
    ∧ _hoverElements p' = _hoverElements pending_painter
    ∧ _redrawId p' = _redrawId pending_painter
    ∧ ticks p' = ticks pending_painter
    ∧ frames p' = frames pending_painter.
Proof.
  assert (H : _updateLayerStatus three_incremental pending_painter
              = Some (default pending_painter
                        (_updateLayerStatus three_incremental pending_painter)))
    by (vm_compute; reflexivity).
  eexists. split; [exact H|].
  exact (updateLayerStatus_frame three_incremental pending_painter _ H).
Defined.

(** ** What a paint pass paints *)

(** Painting a paintable layer that is dirty or forced, in full: an optional
    clear, then [n] consecutive elements from the start; without the timer
    the layer is painted to its end. *)
Lemma paint_layer_full now els (paintAll : bool) k l p fin :
  wf p → _layers p !! k = Some l →
  paintable (Z.of_nat (length els)) paintAll (deref p l) →
  (__dirty (deref p l) = true ∨ paintAll = true) →
  let L := deref p l in
  let start := if paintAll then __startIndex L else __drawIndex L in
  let useTimer := negb paintAll && incremental L in
  ∃ (clr : list Event) (n : nat) (i : Z),
    paint_layer now els paintAll l (p, fin)
    = Some (set_ticks (ticks p + (if useTimer then S n else 0))%nat
              (set_journal (journal p ++ clr ++ brushes l (__endIndex L) start n)
                 (set_heap (<[l := set_drawIndex i L]> (heap p)) p)),
            if i <? __endIndex L then false else fin)
    ∧ (clr = [] ∨ ∃ bg, clr = [Clear l bg])
    ∧ (__startIndex L = __endIndex L → clr ≠ [])
    ∧ __startIndex L ≤ start ≤ __endIndex L
    ∧ ((Z.of_nat n = __endIndex L - start ∧ i = __endIndex L)
       ∨ (useTimer = true ∧ (0 < n)%nat ∧ Z.of_nat n ≤ __endIndex L - start
          ∧ 15 < now (ticks p + n)%nat - now (ticks p)
          ∧ i = start + Z.of_nat n - 1)).
Proof.
  intros (_ & Hc & _) Hk (((Hs0 & Hse) & Hdr) & Hn & Hd) Hdp L start useTimer.
  pose proof (Hc _ _ Hk) as Hlt. fold L in Hs0, Hse, Hdr, Hn, Hd, Hdp.
  assert (Hstart : __startIndex L ≤ start ≤ __endIndex L).
  { subst start. destruct paintAll; [lia|].
    destruct Hdp as [Hdirty|?]; [|done]. specialize (Hd eq_refl Hdirty). lia. }
  assert (Hns : (start =? -1) = false) by (apply Z.eqb_neq; lia).
  assert (Hdb : __dirty L || paintAll = true).
  { apply orb_true_iff. destruct Hdp; [by left|by right]. }
  unfold paint_layer. fold L. fold start. fold useTimer.
  set (p0 := (if useTimer then Date_now now p else (0, p)).2).
  set (t0 := (if useTimer then Date_now now p else (0, p)).1).
  assert (Hp0 : (if useTimer then Date_now now p else (0, p)) = (t0, p0))
    by (subst t0 p0; by destruct useTimer).
  assert (Hp0' : p0 = set_ticks (ticks p + (if useTimer then 1 else 0))%nat p).
  { subst p0. destruct useTimer; cbn.
    - unfold Date_now. cbn. by rewrite Nat.add_1_r.
    - rewrite Nat.add_0_r. by destruct p. }
  assert (Ht0 : useTimer = true → t0 = now (ticks p)).
  { intros Hu. subst t0. by rewrite Hu. }
  rewrite Hp0. cbv iota beta. clearbody p0 t0.
  set (bg := bool_decide (Some (zlevel L) = head (_zlevelList p0))).
  set (clr := if __startIndex L =? __endIndex L then [Clear l bg]
              else if start =? __startIndex L
                   then match at_index els start with
                        | Some firstEl =>
                            if negb (el_incremental firstEl)
                               || negb (el_notClear firstEl) || paintAll
                            then [Clear l bg] else []
                        | None => []
                        end
                   else []).
  assert (Hclear : (if __startIndex L =? __endIndex L
                    then Some (emit (Clear l bg) p0)
                    else if start =? __startIndex L
                         then firstEl ← at_index els start;
                              Some (if negb (el_incremental firstEl)
                                       || negb (el_notClear firstEl) || paintAll
                                    then emit (Clear l bg) p0 else p0)
                         else Some p0)
                   = Some (set_journal (journal p0 ++ clr) p0)).
  { subst clr. destruct (__startIndex L =? __endIndex L) eqn:Hse'; [done|].
    apply Z.eqb_neq in Hse'.
    destruct (start =? __startIndex L) eqn:Hss.
    - apply Z.eqb_eq in Hss.
      destruct (at_index_is_Some els start) as [firstEl Hf].
      { specialize (Hn Hse'). lia. }
      rewrite Hf. cbn [mbind option_bind].
      destruct (negb (el_incremental firstEl) || negb (el_notClear firstEl)
                || paintAll); [done|].
      rewrite app_nil_r. by destruct p0.
    - rewrite app_nil_r. by destruct p0. }
  rewrite Hclear. cbn [mbind option_bind]. rewrite Hns.
  set (p1 := set_journal (journal p0 ++ clr) p0).
  assert (Hd1 : deref p1 l = L) by (subst p1; rewrite Hp0'; reflexivity).
  destruct (paint_loop_spec now (Z.to_nat (__endIndex L - start)) start l
              paintAll useTimer t0 p1) as (n & Hnle & Hst & Hend).
  rewrite Hd1, Hdb in Hst.
  destruct (paint_loop now _ _ _ _ _ _ _) as [q j]. cbn [fst snd] in Hst, Hend.
  assert (Hdq : deref q l = L) by (rewrite Hst; exact Hd1).
  assert (Hlq : (l < length (heap q))%nat).
  { rewrite Hst. subst p1. rewrite Hp0'. exact Hlt. }
  exists clr, n, j. split; [|split; [|split; [|split]]].
  - rewrite (deref_modify_eq _ _ _ Hlq), Hdq.
    cbn [__drawIndex __endIndex set_drawIndex]. f_equal. f_equal.
    unfold modify, store. rewrite Hdq, Hst. subst p1. rewrite Hp0'.
    unfold set_ticks, set_journal, set_heap. cbn. f_equal.
    + destruct useTimer; lia.
    + by rewrite <- !(assoc_L (++)).
  - subst clr. destruct (__startIndex L =? __endIndex L); [right; by eexists|].
    destruct (start =? __startIndex L); [|by left].
    destruct (at_index els start) as [f|]; [|by left].
    destruct (negb (el_incremental f) || negb (el_notClear f) || paintAll);
      [right; by eexists|by left].
  - intros Hse'. subst clr. apply Z.eqb_eq in Hse'. by rewrite Hse'.
  - exact Hstart.
  - destruct Hend as [[-> He]|(Hu & Hk0 & Ht & He)].
    + left. split; lia.
    + right. split; [done|]. split; [done|]. split; [lia|]. split; [|done].
      rewrite (Ht0 Hu) in Ht. subst p1. rewrite Hp0', Hu in Ht. cbn in Ht.
      replace (ticks p + n)%nat with (ticks p + 1 + n - 1)%nat by lia. exact Ht.
Qed.

Lemma collect_layers_NoDup (paintAll : bool) zs p ls :
  distinct p → NoDup zs → collect_layers paintAll zs p = Some ls → NoDup ls.
Proof.
  intros Hd. revert ls. induction zs as [|z zs IH]; intros ls Hnd H; cbn in H.
  { injection H as <-. constructor. }
  apply NoDup_cons in Hnd as (Hz & Hnd).
  destruct (_layers p !! z) as [l0|] eqn:Hl0; cbn in H; [|done].
  destruct (collect_layers paintAll zs p) as [rest|] eqn:Hrest; cbn in H; [|done].
  injection H as <-. specialize (IH rest Hnd eq_refl).
  destruct (_ && _); [|done]. apply NoDup_cons. split; [|done].
  intros Hin.
  assert (Hreg : ∀ zs' ls', collect_layers paintAll zs' p = Some ls' →
                   ∀ l, l ∈ ls' → ∃ k, k ∈ zs' ∧ _layers p !! k = Some l).
  { clear. induction zs' as [|z' zs' IH']; intros ls' H l Hl; cbn in H.
    - injection H as <-. by apply elem_of_nil in Hl.
    - destruct (_layers p !! z') as [l1|] eqn:Hl1; cbn in H; [|done].
      destruct (collect_layers paintAll zs' p) as [r|] eqn:Hr; cbn in H; [|done].
      injection H as <-.
      assert (Hcase : l = l1 ∨ l ∈ r).
      { destruct (_ && _); [|by right].
        apply elem_of_cons in Hl as [->|?]; [by left|by right]. }
      destruct Hcase as [->|Hl'].
      + exists z'. split; [apply list_elem_of_here|done].
      + destruct (IH' r eq_refl l Hl') as (k & Hk & Hkl). exists k.
        split; [by apply list_elem_of_further|done]. }
  destruct (Hreg zs rest Hrest l0 Hin) as (k & Hk & Hkl).
  assert (k = z) as -> by (by eapply Hd). done.
Qed.

(** A paint pass over distinct paintable layers: each is painted once, from
    its start to a draw index inside its range, short of the end only under
    the timer; the pass reports that it has finished exactly when every
    layer was painted to its end. *)
Lemma paint_layers_finish now els (paintAll : bool) ls p fin :
  wf p → all_paintable (Z.of_nat (length els)) paintAll p → NoDup ls →
  (∀ l, l ∈ ls → ∃ k, _layers p !! k = Some l
                      ∧ __builtin__ (deref p l) = true
                      ∧ (__dirty (deref p l) = true ∨ paintAll = true)) →
  ∃ p' fin',
    paint_layers now els paintAll ls (p, fin) = Some (p', fin')
    ∧ painted_from p p'
    ∧ (∀ l, l ∉ ls → deref p' l = deref p l)
    ∧ (∀ l, l ∈ ls →
         ∃ i, deref p' l = set_drawIndex i (deref p l)
              ∧ __startIndex (deref p l) ≤ i ≤ __endIndex (deref p l)
              ∧ (i < __endIndex (deref p l) →
                 paintAll = false ∧ incremental (deref p l) = true))
    ∧ (fin' = true ↔
       fin = true ∧ ∀ l, l ∈ ls → __drawIndex (deref p' l) = __endIndex (deref p' l))
    ∧ (ticks p ≤ ticks p')%nat
    ∧ (paintAll = true → ticks p' = ticks p).
Proof.
  revert p fin. induction ls as [|l ls IH]; intros p fin Hwf HQ Hnd Hls.
  { exists p, fin. split; [done|]. split; [apply painted_from_refl|].
    split; [done|]. split; [by intros l ?%elem_of_nil|].
    split; [|split; [lia|done]].
    split; [intros ->; split; [done|by intros l ?%elem_of_nil]|by intros [-> _]]. }
  apply NoDup_cons in Hnd as (Hl & Hnd).
  destruct (Hls l (list_elem_of_here _ _)) as (k & Hk & Hb & Hd).
  destruct (paint_layer_full now els paintAll k l p fin Hwf Hk (HQ _ _ Hk Hb) Hd)
    as (clr & n & i & Hq & _ & _ & Hstart & Hend).
  set (L := deref p l) in *.
  set (q := set_ticks (ticks p + (if negb paintAll && incremental L then S n else 0))%nat
              (set_journal (journal p ++ clr ++ brushes l (__endIndex L)
                              (if paintAll then __startIndex L else __drawIndex L) n)
                 (set_heap (<[l := set_drawIndex i L]> (heap p)) p))) in *.
  assert (Hpq : painted_from p q) by apply painted_from_store.
  pose proof Hwf as (_ & Hc & _).
  assert (Hdl : deref q l = set_drawIndex i L).
  { unfold deref. cbn. apply list_lookup_total_correct.
    apply list_lookup_insert_eq. by eapply Hc. }
  assert (Hoth : ∀ l', l' ≠ l → deref q l' = deref p l').
  { intros l' Hne. unfold deref. cbn.
    rewrite !list_lookup_total_alt. by rewrite list_lookup_insert_ne. }
  assert (Hi : __startIndex L ≤ i ≤ __endIndex L).
  { destruct Hend as [[_ ->]|(_ & ? & ? & _ & ->)]; lia. }
  pose proof (painted_from_wf _ _ Hpq Hwf) as Hwq.
  assert (Hlq : _layers q = _layers p) by done.
  assert (Hfields : ∀ l', __builtin__ (deref q l') = __builtin__ (deref p l')
                          ∧ __dirty (deref q l') = __dirty (deref p l')
                          ∧ __startIndex (deref q l') = __startIndex (deref p l')
                          ∧ __endIndex (deref q l') = __endIndex (deref p l')).
  { intros l'. destruct (decide (l' = l)) as [->|Hne].
    - by rewrite Hdl.
    - by rewrite (Hoth l' Hne). }
  assert (HQq : all_paintable (Z.of_nat (length els)) paintAll q).
  { intros k' l' Hk' Hb'. rewrite Hlq in Hk'.
    destruct (Hfields l') as (Hfb & Hfd & Hfs & Hfe). rewrite Hfb in Hb'.
    destruct (decide (l' = l)) as [->|Hne].
    - destruct (HQ _ _ Hk' Hb') as ((Hs0 & Hdr) & Hn & Hdd). fold L in Hs0, Hdr, Hn, Hdd.
      rewrite Hdl. unfold paintable, ok_range. cbn. repeat split; try lia; try done.
    - rewrite (Hoth l' Hne). by eapply HQ. }
  destruct (IH q (if i <? __endIndex L then false else fin) Hwq HQq Hnd)
    as (p' & fin' & Hp' & Hqp & Hout & Hin & Hfin & Ht & Htf).
  { intros l' Hl'.
    destruct (Hls l' (list_elem_of_further _ _ _ Hl')) as (k' & Hk' & Hb' & Hd').
    destruct (Hfields l') as (Hfb & Hfd & _). exists k'.
    rewrite Hlq, Hfb, Hfd. done. }
  exists p', fin'. cbn [paint_layers]. rewrite Hq. cbn [mbind option_bind].
  split; [exact Hp'|]. split; [by eapply painted_from_trans|].
  assert (Hl' : deref p' l = set_drawIndex i L) by (by rewrite (Hout l Hl)).
  split; [|split; [|split; [|split]]].
  - intros l' Hn'. rewrite not_elem_of_cons in Hn'. destruct Hn' as [Hne Hn'].
    by rewrite (Hout l' Hn'), (Hoth l' Hne).
  - intros l' [->|Hl'']%elem_of_cons.
    + exists i. split; [done|]. split; [done|]. fold L. intros Hlt.
      destruct Hend as [[_ ->]|(Hu & _)]; [lia|].
      apply andb_true_iff in Hu as [Hp%negb_true_iff Hinc]. done.
    + assert (l' ≠ l) by (intros ->; done).
      destruct (Hin l' Hl'') as (i' & Hd' & Hi' & Hu').
      rewrite (Hoth l') in Hd', Hi', Hu' by done. by exists i'.
  - rewrite Hfin. split.
    + intros [Hf Hall]. destruct (i <? __endIndex L) eqn:Hlt; [done|].
      apply Z.ltb_ge in Hlt. split; [done|].
      intros l' [->|Hl'']%elem_of_cons; [|by apply Hall].
      rewrite Hl'. cbn. lia.
    + intros [-> Hall]. split.
      * specialize (Hall l (list_elem_of_here _ _)). rewrite Hl' in Hall. cbn in Hall.
        replace (i <? __endIndex L) with false; [done|].
        symmetry. apply Z.ltb_ge. lia.
      * intros l' Hl''. apply Hall. by apply list_elem_of_further.
  - etransitivity; [|exact Ht]. cbn. lia.
  - intros ->. rewrite (Htf eq_refl). cbn. lia.
Qed.

Lemma detect_compositing_cases els q :
  detect_compositing els q = q
  ∨ detect_compositing els q = set_needsManuallyCompositing true q.
Proof.
  unfold detect_compositing. destruct (_singleCanvas q); [|by left].
  destruct els as [|e0 rest]; [by left|].
  destruct (needs_compositing e0 rest); [by right|by left].
Qed.

(** The fields that neither classification nor compositing writes. *)
Lemma updateLayerStatus_host els p p' :
  _updateLayerStatus els p = Some p' →
  frames p' = frames p ∧ ticks p' = ticks p ∧ _hoverlayer p' = _hoverlayer p.
Proof.
  intros H.
  destruct (proj_updateLayerStatus (λ q, (frames q, ticks q, _hoverlayer q))
              (λ _ _, eq_refl) (λ _ _, eq_refl) (λ _ _, eq_refl) (λ _ _, eq_refl)
              els p p' H) as (p_r & Hr & _ & Hp).
  destruct (detect_compositing_cases els p_r) as [E|E]; rewrite E in Hp;
    cbn in Hp; rewrite Hr in Hp; by injection Hp as -> -> ->.
Qed.

(** Compositing adds at most the main canvas layer, freshly built, and
    changes no layer object. *)
Lemma compositeManually_view p :
  wf p →
  ∃ p', _compositeManually p = Some p'
        ∧ wf p'
        ∧ frames p' = frames p ∧ ticks p' = ticks p ∧ _hoverlayer p' = _hoverlayer p
        ∧ (∀ k l, _layers p !! k = Some l → _layers p' !! k = Some l)
        ∧ (∀ k L, layer_at p k = Some L → layer_at p' k = Some L)
        ∧ (∀ k L, layer_at p' k = Some L →
                  layer_at p k = Some L
                  ∨ L = created_layer p (resolve p CANVAS_ZLEVEL) false).
Proof.
  intros Hwf. unfold _compositeManually, eachBuiltinLayer.
  pose proof (getLayer_wf CANVAS_ZLEVEL false p Hwf)
    as (Hw1 & _ & _ & _ & Hgrow & _ & Hv & Hvo).
  pose proof (proj_getLayer (λ q, (frames q, ticks q, _hoverlayer q))
                (λ _ _, eq_refl) (λ _ _, eq_refl) (λ _ _, eq_refl) (λ _ _, eq_refl)
                CANVAS_ZLEVEL false p) as Hh.
  destruct (getLayer CANVAS_ZLEVEL false p) as [p1 main]. cbn [fst snd] in *.
  destruct (each_builtin_emit virtual DrawImage (_zlevelList p1)
              (emit (CompositeClear main) p1)) as (evs & He & _).
  { intros k Hk. cbn. by apply Hw1. }
  cbn [_zlevelList emit set_journal] in He |- *. rewrite He.
  eexists. split; [reflexivity|]. split; [exact Hw1|].
  injection Hh as Hf Ht Hhv.
  split; [exact Hf|]. split; [exact Ht|]. split; [exact Hhv|].
  split; [exact Hgrow|]. split.
  - intros k L HL. change (layer_at p1 k = Some L).
    destruct (decide (k = resolve p CANVAS_ZLEVEL)) as [->|Hne].
    + by rewrite Hv, HL.
    + by rewrite (Hvo k Hne).
  - intros k L HL. change (layer_at p1 k = Some L) in HL.
    destruct (decide (k = resolve p CANVAS_ZLEVEL)) as [->|Hne].
    + rewrite Hv in HL. injection HL as <-.
      destruct (layer_at p (resolve p CANVAS_ZLEVEL)); [by left|by right].
    + left. by rewrite <- (Hvo k Hne).
Qed.

(** [_paintList] with the current token on a well-formed painter, stage by
    stage: classification, the paint pass over the collected layers,
    compositing. *)
Lemma paintList_stages now els (paintAll : bool) redrawId p :
  wf p → ranges_ok p → _redrawId p = redrawId →
  ∃ p1 ls p2 fin p3,
    _updateLayerStatus els p = Some p1 ∧ wf p1
    ∧ (∀ k L, layer_at p1 k = Some L → __builtin__ L = true →
              classified_layer (layer_keys els p) (Z.of_nat (length els)) k L)
    ∧ NoDup ls
    ∧ (∀ l, l ∈ ls ↔ ∃ k, _layers p1 !! k = Some l
                          ∧ __builtin__ (deref p1 l) = true
                          ∧ Some l ≠ _hoverlayer p1
                          ∧ (__dirty (deref p1 l) = true ∨ paintAll = true))
    ∧ _doPaintList now els paintAll p1 = Some (p2, fin)
    ∧ painted_from p1 p2
    ∧ (∀ l, l ∉ ls → deref p2 l = deref p1 l)
    ∧ (∀ l, l ∈ ls →
         ∃ i, deref p2 l = set_drawIndex i (deref p1 l)
              ∧ __startIndex (deref p1 l) ≤ i ≤ __endIndex (deref p1 l)
              ∧ (i < __endIndex (deref p1 l) →
                 paintAll = false ∧ incremental (deref p1 l) = true))
    ∧ (fin = true ↔
       ∀ l, l ∈ ls → __drawIndex (deref p2 l) = __endIndex (deref p2 l))
    ∧ (ticks p1 ≤ ticks p2)%nat
    ∧ (paintAll = true → ticks p2 = ticks p1)
    ∧ (if _needsManuallyCompositing p2 then _compositeManually p2 else Some p2) = Some p3
    ∧ wf p3
    ∧ frames p3 = frames p2 ∧ ticks p3 = ticks p2 ∧ _hoverlayer p3 = _hoverlayer p2
    ∧ (∀ k l, _layers p2 !! k = Some l → _layers p3 !! k = Some l)
    ∧ (∀ k L, layer_at p2 k = Some L → layer_at p3 k = Some L)
    ∧ (∀ k L, layer_at p3 k = Some L →
              layer_at p2 k = Some L
              ∨ L = created_layer p2 (resolve p2 CANVAS_ZLEVEL) false)
    ∧ _paintList now els paintAll redrawId p
      = Some (if negb fin
              then set_frames (frames p3 ++ [mkFrame els paintAll redrawId]) p3
              else p3).
Proof.
  intros Hwf Hro Hid. unfold _paintList.
  rewrite bool_decide_eq_true_2 by done. cbn [negb].
  destruct (updateLayerStatus_classified els p Hwf Hro) as (p1 & Hp1 & Hw1 & Hcl).
  rewrite Hp1. cbn [mbind option_bind].
  destruct (classified_all_paintable _ _ paintAll p1 Hw1 Hcl) as (HQ1 & _).
  destruct (collect_layers_spec paintAll (_zlevelList p1) p1) as (ls & Hls & Hin).
  { intros k Hk. by apply Hw1. }
  pose proof Hw1 as (Hok1 & Hc1 & Hd1).
  pose proof (collect_layers_NoDup paintAll _ p1 ls Hd1 (registry_ok_NoDup _ Hok1) Hls)
    as Hnd.
  destruct (paint_layers_finish now els paintAll ls p1 true Hw1 HQ1 Hnd)
    as (p2 & fin & Hp2 & Hfrom & Hout & Hpainted & Hfin & Ht & Htf).
  { intros l Hl. apply Hin in Hl as (k & _ & Hk & Hb & _ & Hd). by exists k. }
  pose proof (painted_from_wf _ _ Hfrom Hw1) as Hw2.
  assert (H3 : ∃ p3, (if _needsManuallyCompositing p2 then _compositeManually p2
                      else Some p2) = Some p3 ∧ wf p3
                ∧ frames p3 = frames p2 ∧ ticks p3 = ticks p2
                ∧ _hoverlayer p3 = _hoverlayer p2
                ∧ (∀ k l, _layers p2 !! k = Some l → _layers p3 !! k = Some l)
                ∧ (∀ k L, layer_at p2 k = Some L → layer_at p3 k = Some L)
                ∧ (∀ k L, layer_at p3 k = Some L →
                          layer_at p2 k = Some L
                          ∨ L = created_layer p2 (resolve p2 CANVAS_ZLEVEL) false)).
  { destruct (_needsManuallyCompositing p2).
    - destruct (compositeManually_view p2 Hw2) as (p3 & H3). by exists p3.
    - exists p2. do 7 (split; [done|]). intros k L HL. by left. }
  destruct H3 as (p3 & Hp3 & Hw3 & Hrest).
  assert (Hdo : _doPaintList now els paintAll p1 = Some (p2, fin)).
  { unfold _doPaintList. rewrite Hls. exact Hp2. }
  exists p1, ls, p2, fin, p3. split; [done|]. split; [done|]. split; [done|].
  split; [done|]. split.
  { intros l. rewrite Hin. split.
    - intros (k & _ & ?). by exists k.
    - intros (k & Hk & ?). exists k. split; [|done]. apply Hok1. by rewrite Hk. }
  split; [done|]. split; [done|]. split; [done|]. split; [done|].
  split. { rewrite Hfin. split; [by intros [_ ?]|by split]. }
  split; [done|]. split; [done|]. split; [done|]. split; [done|].
  destruct Hrest as (? & ? & ? & ? & ? & ?).
  do 6 (split; [done|]).
  rewrite Hdo. cbn [mbind option_bind]. rewrite Hp3. reflexivity.
Qed.

(** When [_paintList] asks for another frame.  With the current token on a
    well-formed painter the pass returns, and either it leaves the queue of
    frame callbacks alone and every registered engine-built layer other than
    the hover layer that was due (dirty, or any layer when the paint is
    forced) has been painted to its end; or it appends exactly one
    continuation, which carries the same list, force flag and token: then
    the paint was not forced and some dirty incremental layer has stopped
    short of its end. *)
Theorem paintList_continuation (now : nat → Z) (els : list Element) (paintAll : bool)
    (redrawId : option Z) (p : Painter) :
  wf p → ranges_ok p → _redrawId p = redrawId →
  ∃ p', _paintList now els paintAll redrawId p = Some p'
    ∧ ((frames p' = frames p
        ∧ ∀ k L, layer_at p' k = Some L → _layers p' !! k ≠ _hoverlayer p' →
                 __builtin__ L = true → (__dirty L = true ∨ paintAll = true) →
                 __drawIndex L = __endIndex L)
       ∨ (frames p' = frames p ++ [mkFrame els paintAll redrawId]
          ∧ paintAll = false
          ∧ ∃ k L, layer_at p' k = Some L ∧ __builtin__ L = true
                   ∧ __dirty L = true ∧ incremental L = true
                   ∧ __startIndex L ≤ __drawIndex L < __endIndex L)).
Proof.
  intros Hwf Hro Hid.
  destruct (paintList_stages now els paintAll redrawId p Hwf Hro Hid)
    as (p1 & ls & p2 & fin & p3 & Hp1 & Hw1 & _ & Hnd & Hin & _ & Hfrom & Hout
        & Hpainted & Hfin & _ & _ & _ & Hw3 & Hf3 & _ & Hh3 & Hgrow & Hsub & Hsup & Hres).
  destruct (updateLayerStatus_host els p p1 Hp1) as (Hf1 & _ & _).
  destruct (painted_from_registry _ _ Hfrom) as (Hl2 & _ & _ & _ & Hf2 & Hh2 & _).
  pose proof (painted_from_wf _ _ Hfrom Hw1) as Hw2.
  pose proof Hw1 as (_ & Hc1 & _). pose proof Hw2 as (_ & Hc2 & _).
  eexists. split; [exact Hres|].
  destruct fin; cbn [negb].
  - left. split; [congruence|].
    intros k L HL Hnh Hb Hd.
    destruct (Hsup k L HL) as [HL2| ->].
  2:{ destruct (created_layer_fields p2 (resolve p2 CANVAS_ZLEVEL) false)
        as (_ & _ & He & Hdr). by rewrite He, Hdr. }
    apply layer_at_Some in HL2 as (l & Hl & HLl).
    pose proof (heap_lookup_deref _ _ _ HLl) as HdL.
    assert (Hl1 : _layers p1 !! k = Some l) by (by rewrite <- Hl2).
    assert (Hinl : l ∈ ls).
    { destruct (decide (l ∈ ls)) as [|Hnot]; [done|]. exfalso.
      apply Hnot, Hin. exists k. split; [done|].
      rewrite <- (Hout l Hnot), HdL. split; [done|]. split; [|done].
      rewrite <- Hh2, <- Hh3. rewrite (Hgrow _ _ Hl) in Hnh. done. }
    destruct Hfin as [Hall _]. specialize (Hall eq_refl l Hinl).
    by rewrite HdL in Hall.
  - right. split; [by rewrite Hf3, Hf2, Hf1|].
    assert (Hex : Exists (λ l, __drawIndex (deref p2 l) ≠ __endIndex (deref p2 l)) ls).
    { apply not_Forall_Exists; [intros l; apply _|].
      intros Hall. destruct Hfin as [_ Hfin]. rewrite Forall_forall in Hall.
      by specialize (Hfin Hall). }
    apply Exists_exists in Hex as (l & Hl & Hne).
    destruct (Hpainted l Hl) as (i & Hd2 & Hi & Hshort).
    rewrite Hd2 in Hne. cbn in Hne.
    destruct Hshort as (Hpa & Hinc); [lia|].
    apply Hin in Hl as (k & Hk & Hb & _ & Hd).
    split; [done|]. exists k, (deref p2 l). split.
    { apply Hsub. apply layer_at_deref; [done|]. by rewrite Hl2. }
    rewrite Hd2. cbn. split; [done|]. split; [by destruct Hd; congruence|].
    split; [done|]. lia.
Qed.

Lemma paintList_continuation_witness :
  wf (CanvasPainter false) ∧ ranges_ok (CanvasPainter false)
  ∧ _redrawId (CanvasPainter false) = None
  ∧ ∃ p', _paintList slow_clock three_incremental false None (CanvasPainter false)
          = Some p'
    ∧ ((frames p' = frames (CanvasPainter false)
        ∧ ∀ k L, layer_at p' k = Some L → _layers p' !! k ≠ _hoverlayer p' →
                 __builtin__ L = true → (__dirty L = true ∨ false = true) →
                 __drawIndex L = __endIndex L)
       ∨ (frames p' = frames (CanvasPainter false)
                      ++ [mkFrame three_incremental false None]
          ∧ false = false
          ∧ ∃ k L, layer_at p' k = Some L ∧ __builtin__ L = true
                   ∧ __dirty L = true ∧ incremental L = true
                   ∧ __startIndex L ≤ __drawIndex L < __endIndex L)).
Proof.
  split; [apply wf_CanvasPainter|]. split; [apply ranges_ok_CanvasPainter|].
  split; [reflexivity|].
  exact (paintList_continuation slow_clock three_incremental false None
           (CanvasPainter false) (wf_CanvasPainter false)
           (ranges_ok_CanvasPainter false) eq_refl).
Defined.

(** A forced paint: with the current token on a well-formed painter,
    [_paintList] with [paintAll] set does not read the clock, asks for no
    further frame, and leaves every registered engine-built layer other than
    the hover layer painted to its end. *)
Theorem paintList_forced (now : nat → Z) (els : list Element) (redrawId : option Z)
    (p : Painter) :
  wf p → ranges_ok p → _redrawId p = redrawId →
  ∃ p', _paintList now els true redrawId p = Some p'
        ∧ ticks p' = ticks p
        ∧ frames p' = frames p
        ∧ ∀ k L, layer_at p' k = Some L → _layers p' !! k ≠ _hoverlayer p' →
                 __builtin__ L = true → __drawIndex L = __endIndex L.
Proof.
  intros Hwf Hro Hid.
  destruct (paintList_stages now els true redrawId p Hwf Hro Hid)
    as (p1 & ls & p2 & fin & p3 & Hp1 & Hw1 & _ & Hnd & Hin & _ & Hfrom & Hout
        & Hpainted & Hfin & _ & Htf & _ & Hw3 & Hf3 & Ht3 & Hh3 & Hgrow & Hsub & Hsup
        & Hres).
  destruct (updateLayerStatus_host els p p1 Hp1) as (Hf1 & Ht1 & _).
  destruct (painted_from_registry _ _ Hfrom) as (Hl2 & _ & _ & _ & Hf2 & Hh2 & _).
  assert (Hall : ∀ l, l ∈ ls → __drawIndex (deref p2 l) = __endIndex (deref p2 l)).
  { intros l Hl. destruct (Hpainted l Hl) as (i & -> & Hi & Hshort). cbn.
    destruct (decide (i < __endIndex (deref p1 l))) as [Hlt|]; [|lia].
    by destruct (Hshort Hlt). }
  assert (fin = true) as -> by (by apply Hfin).
  eexists. split; [exact Hres|]. cbn [negb].
  split; [by rewrite Ht3, (Htf eq_refl)|]. split; [congruence|].
  intros k L HL Hnh Hb.
  destruct (Hsup k L HL) as [HL2| ->].
  2:{ destruct (created_layer_fields p2 (resolve p2 CANVAS_ZLEVEL) false)
        as (_ & _ & He & Hdr). by rewrite He, Hdr. }
  apply layer_at_Some in HL2 as (l & Hl & HLl).
  pose proof (heap_lookup_deref _ _ _ HLl) as HdL.
  assert (Hinl : l ∈ ls).
  { destruct (decide (l ∈ ls)) as [|Hnot]; [done|]. exfalso.
    apply Hnot, Hin. exists k. split; [by rewrite <- Hl2|].
    rewrite <- (Hout l Hnot), HdL. split; [done|]. split; [|by right].
    rewrite <- Hh2, <- Hh3. rewrite (Hgrow _ _ Hl) in Hnh. done. }
  specialize (Hall l Hinl). by rewrite HdL in Hall.
Qed.

Lemma paintList_forced_witness :
  wf (CanvasPainter true) ∧ ranges_ok (CanvasPainter true)
  ∧ _redrawId (CanvasPainter true) = None
  ∧ ∃ p', _paintList slow_clock three_incremental true None (CanvasPainter true)
          = Some p'
        ∧ ticks p' = ticks (CanvasPainter true)
        ∧ frames p' = frames (CanvasPainter true)
        ∧ ∀ k L, layer_at p' k = Some L → _layers p' !! k ≠ _hoverlayer p' →
                 __builtin__ L = true → __drawIndex L = __endIndex L.
Proof.
  split; [apply wf_CanvasPainter|]. split; [apply ranges_ok_CanvasPainter|].
  split; [reflexivity|].
  exact (paintList_forced slow_clock three_incremental None
           (CanvasPainter true) (wf_CanvasPainter true)
           (ranges_ok_CanvasPainter true) eq_refl).
Defined.

(** ** Stored configurations and the layers built later *)


Lemma wf_configLayer zl config p : wf p → wf (configLayer zl config p).
Proof.
  intros Hwf. destruct config as [c|]; [|done]. unfold configLayer.
  set (stored := match _layerConfig p !! zl with None => c | Some c0 => merge c0 c end).
  pose proof (config_loop zl stored (_zlevelList p)
                (set_layerConfig (<[zl := stored]> (_layerConfig p)) p))
    as (H1 & H2 & _ & H4 & _).
  cbn [_zlevelList set_layerConfig] in *.
  destruct Hwf as ((Hs & Hag) & Hc & Hd).
  split; [split|split].
  - by rewrite H2.
  - intros k. rewrite H1, H2. apply Hag.
  - intros k l. rewrite H1, H4. apply Hc.
  - intros k1 k2 l. rewrite H1. apply Hd.
Qed.



(** ** Deleting a layer *)

Lemma filter_ne_id (zl : Z) (zs : list Z) :
  zl ∉ zs → filter (λ k, k ≠ zl) zs = zs.
Proof.
  induction zs as [|a zs IH]; [done|]. intros H. rewrite not_elem_of_cons in H.
  destruct H as [Hne Hn]. rewrite filter_cons_True by done. by rewrite IH.
Qed.

(** [delLayer] on a painter whose registry is consistent removes the key and
    nothing else: the layer map loses the key, the z-level list loses its one
    occurrence and keeps the other keys in their order, and no layer object
    is touched.  For a key that is not registered nothing changes.  (The
    layer to delete is not virtual, so that it has a DOM node in the document
    for [delLayer] to remove.) *)
Theorem delLayer_removes_key (zl : Z) (p : Painter) :
  registry_ok p →
  (∀ l, _layers p !! zl = Some l → virtual (deref p l) = false) →
  _layers (delLayer zl p) = delete zl (_layers p)
  ∧ _zlevelList (delLayer zl p) = filter (λ k, k ≠ zl) (_zlevelList p)
  ∧ heap (delLayer zl p) = heap p
  ∧ (_layers p !! zl = None → delLayer zl p = p).
Proof.
  intros [Hs Hk] _. unfold delLayer.
  destruct (_layers p !! zl) eqn:Hz.
  - assert (Hin : zl ∈ _zlevelList p) by (apply Hk; by rewrite Hz).
    apply list_elem_of_split in Hin as (l1 & l2 & Heq).
    rewrite Heq in Hs.
    apply StronglySorted_app in Hs as (Hx & Hs1 & Hs2).
    apply StronglySorted_cons in Hs2 as [Hgt Hs2].
    assert (Hn1 : zl ∉ l1).
    { intros H. specialize (Hx zl zl H (list_elem_of_here _ _)). lia. }
    assert (Hn2 : zl ∉ l2).
    { intros H. eapply Forall_forall in Hgt; [|exact H]. lia. }
    cbn. split; [done|]. split; [|done].
    rewrite Heq, splice_out_indexOf by done.
    rewrite filter_app, filter_cons_False by (intros H; by apply H).
    by rewrite !filter_ne_id.
  - assert (Hin : zl ∉ _zlevelList p).
    { intros H. apply Hk in H. rewrite Hz in H. by destruct H. }
    split; [by rewrite delete_id|]. split; [by rewrite filter_ne_id|done].
Qed.

Lemma delLayer_removes_key_witness :
  registry_ok sublayer_painter
  ∧ (∀ l, _layers sublayer_painter !! 1 = Some l → virtual (deref sublayer_painter l) = false)
  ∧ _layers (delLayer 1 sublayer_painter) = delete 1 (_layers sublayer_painter)
  ∧ _zlevelList (delLayer 1 sublayer_painter)
    = filter (λ k, k ≠ 1) (_zlevelList sublayer_painter)
  ∧ heap (delLayer 1 sublayer_painter) = heap sublayer_painter
  ∧ (_layers sublayer_painter !! 1 = None → delLayer 1 sublayer_painter = sublayer_painter).
Proof.
  assert (Hv : ∀ l, _layers sublayer_painter !! 1 = Some l
                    → virtual (deref sublayer_painter l) = false).
  { intros l Hl. vm_compute in Hl. injection Hl as <-. vm_compute. reflexivity. }
  split; [apply wf_sublayer_painter|]. split; [exact Hv|].
  apply (delLayer_removes_key 1 sublayer_painter); [apply wf_sublayer_painter|exact Hv].
Defined.

(** ** The hover layer *)

(** The loop of [refreshHover] when every mirror has its back reference: the
    mirrors whose original is detached are dropped, the others are kept in
    their order, and those that are not invisible are brushed. *)
Lemma hover_loop_spec rest i len kept hl p :
  Forall (λ m, is_Some (__from m)) rest →
  ∃ evs,
    hover_loop rest i len kept hl p
    = Some (set_journal (journal p ++ evs) p,
            kept ++ filter (λ m, attached m = true) rest)
    ∧ Forall2 (λ ev m, ∃ b, ev = BrushHover hl m b) evs
        (filter (λ m, shown m = true) rest).
Proof.
  intros H. revert i len kept p.
  induction H as [|m rest [o Ho] _ IH]; intros i len kept p.
  { exists []. cbn. rewrite !app_nil_r. split; [by destruct p|constructor]. }
  cbn [hover_loop]. rewrite Ho.
  destruct (__zr o) eqn:Hzr; cbn [negb].
  - set (evs0 := if negb (invisible o)
                 then [BrushHover hl m (i + 1 =? len - 1)] else []).
    destruct (IH (i + 1) len (kept ++ [m])
                (if negb (invisible o)
                 then emit (BrushHover hl m (i + 1 =? len - 1)) p else p))
      as (evs & He & Hev).
    exists (evs0 ++ evs). split.
    + rewrite He. rewrite filter_cons_True by (unfold attached; by rewrite Ho).
      rewrite <- (assoc_L (++)). cbn [app]. f_equal. f_equal.
      subst evs0. destruct (negb (invisible o)); cbn.
      * by rewrite <- (assoc_L (++)).
      * done.
    + subst evs0. destruct (invisible o) eqn:Hinv; cbn [negb app].
      * rewrite filter_cons_False; [done|]. unfold shown. rewrite Ho, Hzr, Hinv. done.
      * rewrite filter_cons_True by (unfold shown; by rewrite Ho, Hzr, Hinv).
        constructor; [by eexists|done].
  - destruct (IH i (len - 1) kept p) as (evs & He & Hev).
    exists evs. split.
    + rewrite He. rewrite filter_cons_False; [done|].
      unfold attached. rewrite Ho, Hzr. done.
    + rewrite filter_cons_False; [done|]. unfold shown. rewrite Ho, Hzr. done.
Qed.

(** [refreshHover] when the sort is a permutation and every mirror has its
    back reference: the call returns; the hover layer, if there is one, is
    cleared first; the mirrors are sorted, those whose original has left the
    renderer are dropped and the others kept in sorted order; and exactly the
    kept mirrors that are not invisible are brushed, in that order, on the
    hover layer, which is the layer found or built for
    [HOVER_LAYER_ZLEVEL] when there was none.  With no mirrors nothing but
    the clear happens and no hover layer is built. *)
Theorem refreshHover_brushes (timsort : list Mirror → list Mirror) (p : Painter) :
  (∀ l, timsort l ≡ₚ l) →
  Forall (λ m, is_Some (__from m)) (_hoverElements p) →
  ∃ p' evs,
    refreshHover timsort p = Some p'
    ∧ _hoverElements p' = filter (λ m, attached m = true) (timsort (_hoverElements p))
    ∧ journal p'
      = journal p
        ++ match _hoverlayer p with Some hl => [Clear hl false] | None => [] end
        ++ evs
    ∧ (_hoverElements p = [] → evs = [] ∧ _hoverlayer p' = _hoverlayer p
                               ∧ _layers p' = _layers p)
    ∧ (_hoverElements p ≠ [] →
       ∃ hl, _hoverlayer p' = Some hl
             ∧ (_hoverlayer p = None →
                _layers p' !! resolve p HOVER_LAYER_ZLEVEL = Some hl)
             ∧ (∀ hl0, _hoverlayer p = Some hl0 → hl = hl0)
             ∧ Forall2 (λ ev m, ∃ b, ev = BrushHover hl m b) evs
                 (filter (λ m, shown m = true) (timsort (_hoverElements p)))).
Proof.
  intros Hperm Hfrom. unfold refreshHover.
  set (clr := match _hoverlayer p with Some hl => [Clear hl false] | None => [] end).
  set (p0 := match _hoverlayer p with Some hl => emit (Clear hl false) p | None => p end).
  assert (Hp0 : p0 = set_journal (journal p ++ clr) p).
  { subst p0 clr. destruct (_hoverlayer p); [done|]. rewrite app_nil_r. by destruct p. }
  clearbody p0. subst p0.
  destruct (_hoverElements p) as [|m ms] eqn:Hms.
  { eexists _, []. split; [done|]. cbn. rewrite Hms.
    assert (timsort [] = []) as -> by (apply Permutation_nil_r, Hperm).
    split; [done|]. split; [by rewrite app_nil_r|]. split; [done|].
    intros H. destruct (H eq_refl). }
  set (sorted := timsort (m :: ms)).
  assert (Hsf : Forall (λ m, is_Some (__from m)) sorted).
  { subst sorted. by rewrite Hperm. }
  set (p1 := set_hoverElements sorted (set_journal (journal p ++ clr) p)).
  set (r := match _hoverlayer p1 with
            | Some hl => (p1, hl)
            | None => let '(q, hl) := getLayer HOVER_LAYER_ZLEVEL false p1 in
                      (set_hoverlayer (Some hl) q, hl)
            end).
  assert (Hr : journal r.1 = journal p ++ clr
               ∧ _hoverlayer r.1 = Some r.2
               ∧ (_hoverlayer p = None →
                  _layers r.1 !! resolve p HOVER_LAYER_ZLEVEL = Some r.2)
               ∧ (∀ hl0, _hoverlayer p = Some hl0 → r.2 = hl0)).
  { subst r. assert (Hh1 : _hoverlayer p1 = _hoverlayer p).
    { done. }
    rewrite Hh1. destruct (_hoverlayer p) as [hl0|] eqn:Hh.
    - cbn [fst snd]. split; [done|]. split; [exact Hh1|].
      split; [done|]. by intros ? [= <-].
    - pose proof (journal_getLayer HOVER_LAYER_ZLEVEL false p1) as Hj.
      assert (Hreg : _layers (getLayer HOVER_LAYER_ZLEVEL false p1).1
                       !! resolve p1 HOVER_LAYER_ZLEVEL
                     = Some (getLayer HOVER_LAYER_ZLEVEL false p1).2).
      { destruct (_layers p1 !! resolve p1 HOVER_LAYER_ZLEVEL) as [l|] eqn:H.
        - by rewrite (getLayer_found _ _ _ _ H).
        - rewrite (getLayer_fresh _ _ _ H). cbn. apply lookup_insert_eq. }
      destruct (getLayer HOVER_LAYER_ZLEVEL false p1) as [q hl]. cbn [fst snd] in *.
      split; [change (journal q = journal p ++ clr); by rewrite Hj|]. split; [done|].
      split; [|done]. intros _.
      replace (resolve p HOVER_LAYER_ZLEVEL) with (resolve p1 HOVER_LAYER_ZLEVEL);
        [done|]. by apply resolve_mode. }
  fold r. destruct r as [q hl]. cbn [fst snd] in Hr.
  destruct Hr as (Hjq & Hhq & Hnew & Hold).
  destruct (hover_loop_spec sorted 0 (Z.of_nat (length sorted)) [] hl q Hsf)
    as (evs & He & Hev).
  rewrite He. cbn [mbind option_bind].
  eexists _, evs. split; [reflexivity|]. split; [done|].
  split; [cbn; by rewrite Hjq, <- (assoc_L (++))|].
  split; [done|]. intros _. exists hl. done.
Qed.

Lemma refreshHover_brushes_witness :
  (∀ l : list Mirror, id l ≡ₚ l)
  ∧ Forall (λ m, is_Some (__from m))
      (_hoverElements (set_hoverElements two_mirrors (CanvasPainter false)))
  ∧ ∃ p' evs,
      refreshHover id (set_hoverElements two_mirrors (CanvasPainter false)) = Some p'
      ∧ _hoverElements p'
        = filter (λ m, attached m = true)
            (id (_hoverElements (set_hoverElements two_mirrors (CanvasPainter false))))
      ∧ journal p'
        = journal (set_hoverElements two_mirrors (CanvasPainter false))
          ++ match _hoverlayer (set_hoverElements two_mirrors (CanvasPainter false)) with
             | Some hl => [Clear hl false]
             | None => []
             end
          ++ evs
      ∧ (_hoverElements (set_hoverElements two_mirrors (CanvasPainter false)) = [] →
         evs = []
         ∧ _hoverlayer p'
           = _hoverlayer (set_hoverElements two_mirrors (CanvasPainter false))
         ∧ _layers p' = _layers (set_hoverElements two_mirrors (CanvasPainter false)))
      ∧ (_hoverElements (set_hoverElements two_mirrors (CanvasPainter false)) ≠ [] →
         ∃ hl, _hoverlayer p' = Some hl
               ∧ (_hoverlayer (set_hoverElements two_mirrors (CanvasPainter false)) = None →
                  _layers p'
                    !! resolve (set_hoverElements two_mirrors (CanvasPainter false))
                         HOVER_LAYER_ZLEVEL = Some hl)
               ∧ (∀ hl0, _hoverlayer (set_hoverElements two_mirrors (CanvasPainter false))
                         = Some hl0 → hl = hl0)
               ∧ Forall2 (λ ev m, ∃ b, ev = BrushHover hl m b) evs
                   (filter (λ m, shown m = true)
                      (id (_hoverElements
                             (set_hoverElements two_mirrors (CanvasPainter false)))))).
Proof.
  assert (Hperm : ∀ l : list Mirror, id l ≡ₚ l) by done.
  assert (Hfrom : Forall (λ m, is_Some (__from m))
                    (_hoverElements (set_hoverElements two_mirrors (CanvasPainter false)))).
  { repeat constructor; by eexists. }
  split; [exact Hperm|]. split; [exact Hfrom|].
  exact (refreshHover_brushes id (set_hoverElements two_mirrors (CanvasPainter false))
           Hperm Hfrom).
Defined.

Lemma refreshHover_spec_some timsort p :
  (∀ l, timsort l ≡ₚ l) →
  Forall (λ m, is_Some (__from m)) (_hoverElements p) →
  ∃ p', refreshHover timsort p = Some p'.
Proof.
  intros Hperm Hfrom. unfold refreshHover.
  destruct (_hoverElements p) as [|m ms] eqn:Hms; [by eexists|].
  set (sorted := timsort (m :: ms)).
  assert (Hsf : Forall (λ m, is_Some (__from m)) sorted).
  { subst sorted. by rewrite Hperm. }
  set (r := match _hoverlayer _ with
            | Some hl => _
            | None => let '(q, hl) := getLayer HOVER_LAYER_ZLEVEL false _ in _
            end).
  destruct r as [q hl].
  destruct (hover_loop_spec sorted 0 (Z.of_nat (length sorted)) [] hl q Hsf)
    as (evs & He & _).
  rewrite He. by eexists.
Qed.

(** The loop of [refreshHover] stops with a [TypeError] at the first mirror
    without a back reference. *)
Lemma hover_loop_None rest i len kept hl p :
  Exists (λ m, __from m = None) rest → hover_loop rest i len kept hl p = None.
Proof.
  intros H. revert i len kept p.
  induction rest as [|m rest IH]; intros i len kept p; [by apply Exists_nil in H|].
  cbn [hover_loop]. destruct (__from m) as [o|] eqn:Ho; [|done].
  apply Exists_cons in H as [H|H]; [congruence|].
  destruct (negb (__zr o)); by apply IH.
Qed.

(** [refreshHover] throws exactly when some hover mirror has lost its
    [__from] back reference: the loop writes [originalEl.__hoverMir] on the
    missing original. *)
Theorem refreshHover_throws (timsort : list Mirror → list Mirror) (p : Painter) :
  (∀ l, timsort l ≡ₚ l) →
  (refreshHover timsort p = None ↔ ∃ m, m ∈ _hoverElements p ∧ __from m = None).
Proof.
  intros Hperm. split.
  - intros Hnone.
    destruct (decide (Forall (λ m, is_Some (__from m)) (_hoverElements p))) as [Hall|Hn].
    + destruct (refreshHover_spec_some timsort p Hperm Hall) as (p' & Hp').
      congruence.
    + apply (not_Forall_Exists _) in Hn.
      apply Exists_exists in Hn as (m & Hm & Hf). exists m. split; [done|].
      destruct (__from m) as [o|] eqn:Ho; [|done]. exfalso. apply Hf.
      cbn. rewrite Ho. by eexists.
  - intros (m & Hm & Hf). unfold refreshHover.
    destruct (_hoverElements p) as [|m0 ms] eqn:Hms; [by apply elem_of_nil in Hm|].
    set (sorted := timsort (m0 :: ms)).
    assert (Hex : Exists (λ m, __from m = None) sorted).
    { apply Exists_exists. exists m. split; [|done]. subst sorted. by rewrite Hperm. }
    set (r := match _hoverlayer _ with
              | Some hl => _
              | None => let '(q, hl) := getLayer HOVER_LAYER_ZLEVEL false _ in _
              end).
    destruct r as [q hl].
    by rewrite (hover_loop_None sorted _ _ _ _ _ Hex).
Qed.

Lemma refreshHover_throws_witness :
  (∀ l : list Mirror, id l ≡ₚ l)
  ∧ (refreshHover id (set_hoverElements [ {| mirror_id := 0; __from := None |} ]
                        (CanvasPainter false)) = None
     ↔ ∃ m, m ∈ _hoverElements
                  (set_hoverElements [ {| mirror_id := 0; __from := None |} ]
                     (CanvasPainter false))
            ∧ __from m = None).
Proof.
  assert (Hperm : ∀ l : list Mirror, id l ≡ₚ l) by done.
  split; [exact Hperm|].
  exact (refreshHover_throws id
           (set_hoverElements [ {| mirror_id := 0; __from := None |} ]
              (CanvasPainter false)) Hperm).
Defined.

(** The loop of [refreshHover] when no mirror is dropped: the flag passed to
    the brush compares the index after its increment with [len - 1]. *)
Lemma hover_loop_attached rest i len kept hl p :
  Forall (λ m, attached m = true) rest →
  hover_loop rest i len kept hl p
  = Some (set_journal
            (journal p
             ++ mjoin (imap (λ j m, if shown m
                                    then [BrushHover hl m (i + Z.of_nat j + 1 =? len - 1)]
                                    else []) rest)) p,
          kept ++ rest).
Proof.
  intros H. revert i kept p.
  induction H as [|m rest Hm _ IH]; intros i kept p.
  { cbn. rewrite !app_nil_r. by destruct p. }
  unfold attached in Hm. cbn [hover_loop].
  destruct (__from m) as [o|] eqn:Ho; [|done]. rewrite Hm. cbn [negb].
  rewrite IH. rewrite <- (assoc_L (++)). cbn [app]. f_equal. f_equal.
  rewrite imap_cons. cbn [mjoin list_join].
  assert (Hs : shown m = negb (invisible o)) by (unfold shown; by rewrite Ho, Hm).
  rewrite Hs.
  assert (Hext : imap (λ j m0, if shown m0
                               then [BrushHover hl m0 (i + 1 + Z.of_nat j + 1 =? len - 1)]
                               else []) rest
                 = imap ((λ j m0, if shown m0
                                  then [BrushHover hl m0 (i + Z.of_nat j + 1 =? len - 1)]
                                  else []) ∘ S) rest).
  { apply imap_ext. intros j x _. cbn.
    replace (i + 1 + Z.of_nat j + 1) with (i + Z.of_nat (S j) + 1) by lia. done. }
  rewrite <- Hext. replace (i + Z.of_nat 0 + 1) with (i + 1) by lia.
  destruct (negb (invisible o)); cbn.
  - by rewrite <- (assoc_L (++)).
  - done.
Qed.

(** Which hover mirror is brushed with the [isLast] flag.  When no mirror is
    dropped, the mirror at index [j] of the sorted list is brushed (if it is
    not invisible) with the flag set exactly when [j] is [len - 2]: the loop
    index is incremented before it is compared with [len - 1].  The last
    mirror is brushed with the flag unset. *)
Theorem refreshHover_last_flag (timsort : list Mirror → list Mirror) (p : Painter) :
  (∀ l, timsort l ≡ₚ l) →
  Forall (λ m, attached m = true) (_hoverElements p) →
  _hoverElements p ≠ [] →
  ∃ p' hl,
    refreshHover timsort p = Some p'
    ∧ _hoverlayer p' = Some hl
    ∧ journal p'
      = journal p
        ++ match _hoverlayer p with Some hl0 => [Clear hl0 false] | None => [] end
        ++ mjoin (imap (λ j m,
                          if shown m
                          then [BrushHover hl m
                                  (Z.of_nat j =? Z.of_nat (length (_hoverElements p)) - 2)]
                          else [])
                    (timsort (_hoverElements p))).
Proof.
  intros Hperm Hatt Hne. unfold refreshHover.
  set (clr := match _hoverlayer p with Some hl => [Clear hl false] | None => [] end).
  set (p0 := match _hoverlayer p with Some hl => emit (Clear hl false) p | None => p end).
  assert (Hp0 : p0 = set_journal (journal p ++ clr) p).
  { subst p0 clr. destruct (_hoverlayer p); [done|]. rewrite app_nil_r. by destruct p. }
  clearbody p0. subst p0.
  destruct (_hoverElements p) as [|m ms] eqn:Hms; [done|].
  set (sorted := timsort (m :: ms)).
  assert (Hsa : Forall (λ m, attached m = true) sorted).
  { subst sorted. by rewrite Hperm. }
  assert (Hlen : length sorted = length (m :: ms)).
  { subst sorted. by rewrite Hperm. }
  set (p1 := set_hoverElements sorted (set_journal (journal p ++ clr) p)).
  set (r := match _hoverlayer p1 with
            | Some hl => (p1, hl)
            | None => let '(q, hl) := getLayer HOVER_LAYER_ZLEVEL false p1 in
                      (set_hoverlayer (Some hl) q, hl)
            end).
  assert (Hr : journal r.1 = journal p ++ clr ∧ _hoverlayer r.1 = Some r.2).
  { subst r. destruct (_hoverlayer p1) as [hl0|] eqn:Hh; [done|].
    pose proof (journal_getLayer HOVER_LAYER_ZLEVEL false p1) as Hj.
    destruct (getLayer HOVER_LAYER_ZLEVEL false p1) as [q hl]. cbn [fst snd] in *.
    split; [|done]. change (journal q = journal p ++ clr). by rewrite Hj. }
  fold r. destruct r as [q hl]. cbn [fst snd] in Hr. destruct Hr as (Hjq & Hhq).
  rewrite (hover_loop_attached sorted 0 (Z.of_nat (length sorted)) [] hl q Hsa).
  cbn [mbind option_bind].
  eexists _, hl. split; [reflexivity|]. split; [done|].
  cbn. rewrite Hjq, <- (assoc_L (++)). f_equal. f_equal. f_equal.
  apply imap_ext. intros j x _. cbn. rewrite Hlen.
  replace (0 + Z.of_nat j + 1 =? Z.of_nat (length (m :: ms)) - 1)
    with (Z.of_nat j =? Z.of_nat (length (m :: ms)) - 2); [done|].
  destruct (Z.eqb_spec (Z.of_nat j) (Z.of_nat (length (m :: ms)) - 2));
    symmetry; [apply Z.eqb_eq|apply Z.eqb_neq]; lia.
Qed.

Lemma refreshHover_last_flag_witness :
  (∀ l : list Mirror, id l ≡ₚ l)
  ∧ Forall (λ m, attached m = true)
      (_hoverElements (set_hoverElements two_mirrors (CanvasPainter false)))
  ∧ _hoverElements (set_hoverElements two_mirrors (CanvasPainter false)) ≠ []
  ∧ ∃ p' hl,
      refreshHover id (set_hoverElements two_mirrors (CanvasPainter false)) = Some p'
      ∧ _hoverlayer p' = Some hl
      ∧ journal p'
        = journal (set_hoverElements two_mirrors (CanvasPainter false))
          ++ match _hoverlayer (set_hoverElements two_mirrors (CanvasPainter false)) with
             | Some hl0 => [Clear hl0 false]
             | None => []
             end
          ++ mjoin (imap (λ j m,
                            if shown m
                            then [BrushHover hl m
                                    (Z.of_nat j
                                     =? Z.of_nat (length (_hoverElements
                                          (set_hoverElements two_mirrors
                                             (CanvasPainter false)))) - 2)]
                            else [])
                      (id (_hoverElements
                             (set_hoverElements two_mirrors (CanvasPainter false))))).
Proof.
  assert (Hperm : ∀ l : list Mirror, id l ≡ₚ l) by done.
  assert (Hatt : Forall (λ m, attached m = true)
                   (_hoverElements (set_hoverElements two_mirrors (CanvasPainter false))))
    by (repeat constructor).
  assert (Hne : _hoverElements (set_hoverElements two_mirrors (CanvasPainter false)) ≠ [])
    by done.
  split; [exact Hperm|]. split; [exact Hatt|]. split; [exact Hne|].
  exact (refreshHover_last_flag id (set_hoverElements two_mirrors (CanvasPainter false))
           Hperm Hatt Hne).
Defined.

(** The paint pass never collects the hover layer. *)
Lemma collect_layers_not_hover (paintAll : bool) zs p ls :
  collect_layers paintAll zs p = Some ls → ∀ l, l ∈ ls → Some l ≠ _hoverlayer p.
Proof.
  revert ls. induction zs as [|z zs IH]; intros ls H l Hl; cbn in H.
  { injection H as <-. by apply elem_of_nil in Hl. }
  destruct (_layers p !! z) as [l0|]; cbn in H; [|done].
  destruct (collect_layers paintAll zs p) as [rest|]; cbn in H; [|done].
  injection H as <-.
  destruct (__builtin__ (deref p l0) && negb (bool_decide (Some l0 = _hoverlayer p))
            && (__dirty (deref p l0) || paintAll)) eqn:Hc; [|by eapply IH].
  apply elem_of_cons in Hl as [->|Hl]; [|by eapply IH].
  apply andb_true_iff in Hc as [Hc _]. apply andb_true_iff in Hc as [_ Hc].
  by apply negb_true_iff, bool_decide_eq_false in Hc.
Qed.

(** [refreshHover] when the layer for [HOVER_LAYER_ZLEVEL] is already
    registered and no hover layer is set: that layer becomes the hover layer;
    the registry and the layer objects are not touched. *)
Lemma refreshHover_found timsort p hl :
  (∀ l, timsort l ≡ₚ l) →
  Forall (λ m, is_Some (__from m)) (_hoverElements p) →
  _hoverElements p ≠ [] → _hoverlayer p = None →
  _layers p !! resolve p HOVER_LAYER_ZLEVEL = Some hl →
  ∃ p', refreshHover timsort p = Some p'
        ∧ _hoverlayer p' = Some hl
        ∧ _layers p' = _layers p ∧ _zlevelList p' = _zlevelList p
        ∧ heap p' = heap p.
Proof.
  intros Hperm Hfrom Hne Hh Hk. unfold refreshHover. rewrite Hh.
  destruct (_hoverElements p) as [|m ms] eqn:Hms; [done|].
  set (sorted := timsort (m :: ms)).
  assert (Hsf : Forall (λ m, is_Some (__from m)) sorted).
  { subst sorted. by rewrite Hperm. }
  cbn [_hoverlayer set_hoverElements].
  rewrite Hh.
  rewrite (getLayer_found HOVER_LAYER_ZLEVEL false (set_hoverElements sorted p) hl)
    by exact Hk.
  destruct (hover_loop_spec sorted 0 (Z.of_nat (length sorted)) [] hl
              (set_hoverlayer (Some hl) (set_hoverElements sorted p)) Hsf)
    as (evs & He & _).
  rewrite He. cbn [mbind option_bind]. by eexists.
Qed.

(** On a single canvas that is not composited manually, the hover layer is
    the main canvas layer.  [getLayer] resolves every z-level, the one of the
    hover layer included, to [CANVAS_ZLEVEL]; so the first [refreshHover]
    with a mirror to draw makes the main layer the hover layer, and from then
    on no paint pass collects the main layer, which the paint pass skips as
    the hover layer. *)
Theorem refreshHover_single_canvas (timsort : list Mirror → list Mirror)
    (p : Painter) (main : loc) :
  (∀ l, timsort l ≡ₚ l) →
  Forall (λ m, is_Some (__from m)) (_hoverElements p) →
  _hoverElements p ≠ [] → _hoverlayer p = None →
  _singleCanvas p = true → _needsManuallyCompositing p = false →
  _layers p !! CANVAS_ZLEVEL = Some main →
  ∃ p', refreshHover timsort p = Some p'
        ∧ _hoverlayer p' = Some main
        ∧ _layers p' !! CANVAS_ZLEVEL = Some main
        ∧ ∀ paintAll ls, collect_layers paintAll (_zlevelList p') p' = Some ls →
                         main ∉ ls.
Proof.
  intros Hperm Hfrom Hne Hh Hs Hn Hk.
  destruct (refreshHover_found timsort p main Hperm Hfrom Hne Hh)
    as (p' & Hp' & Hh' & Hl' & _).
  { unfold resolve. by rewrite Hs, Hn. }
  exists p'. split; [done|]. split; [done|]. split; [by rewrite Hl'|].
  intros paintAll ls Hls Hin.
  by apply (collect_layers_not_hover _ _ _ _ Hls main Hin).
Qed.

Lemma refreshHover_single_canvas_witness :
  (∀ l : list Mirror, id l ≡ₚ l)
  ∧ Forall (λ m, is_Some (__from m))
      (_hoverElements (set_hoverElements two_mirrors (CanvasPainter true)))
  ∧ _hoverElements (set_hoverElements two_mirrors (CanvasPainter true)) ≠ []
  ∧ _hoverlayer (set_hoverElements two_mirrors (CanvasPainter true)) = None
  ∧ _singleCanvas (set_hoverElements two_mirrors (CanvasPainter true)) = true
  ∧ _needsManuallyCompositing (set_hoverElements two_mirrors (CanvasPainter true)) = false
  ∧ _layers (set_hoverElements two_mirrors (CanvasPainter true)) !! CANVAS_ZLEVEL
    = Some 0%nat
  ∧ ∃ p', refreshHover id (set_hoverElements two_mirrors (CanvasPainter true)) = Some p'
          ∧ _hoverlayer p' = Some 0%nat
          ∧ _layers p' !! CANVAS_ZLEVEL = Some 0%nat
          ∧ ∀ paintAll ls, collect_layers paintAll (_zlevelList p') p' = Some ls →
                           0%nat ∉ ls.
Proof.
  assert (Hperm : ∀ l : list Mirror, id l ≡ₚ l) by done.
  assert (Hfrom : Forall (λ m, is_Some (__from m))
                    (_hoverElements (set_hoverElements two_mirrors (CanvasPainter true)))).
  { repeat constructor; by eexists. }
  assert (Hne : _hoverElements (set_hoverElements two_mirrors (CanvasPainter true)) ≠ [])
    by done.
  assert (Hk : _layers (set_hoverElements two_mirrors (CanvasPainter true))
                 !! CANVAS_ZLEVEL = Some 0%nat) by (vm_compute; reflexivity).
  split; [exact Hperm|]. split; [exact Hfrom|]. split; [exact Hne|].
  split; [reflexivity|]. split; [reflexivity|]. split; [reflexivity|].
  split; [exact Hk|].
  exact (refreshHover_single_canvas id
           (set_hoverElements two_mirrors (CanvasPainter true)) 0%nat
           Hperm Hfrom Hne eq_refl eq_refl eq_refl Hk).
Defined.

(** ** Clearing *)

Lemma each_builtin_emit_all (ev : loc → Event) zs p :
  (∀ k, k ∈ zs → is_Some (_layers p !! k)) →
  each_builtin (λ l q, emit (ev l) q) zs p
  = Some (set_journal (journal p ++ (ev <$> builtin_layers zs p)) p).
Proof.
  revert p. induction zs as [|z zs IH]; intros p Hreg.
  { cbn. rewrite app_nil_r. by destruct p. }
  destruct (Hreg z (list_elem_of_here _ _)) as [l Hl].
  cbn [each_builtin]. rewrite Hl.
  unfold builtin_layers. cbn [omap list_omap]. rewrite Hl. cbn [mbind option_bind].
  fold (builtin_layers zs p).
  destruct (__builtin__ (deref p l)) eqn:Hb.
  - rewrite IH by (intros k Hk; cbn; apply Hreg; by apply list_elem_of_further).
    cbn. by rewrite <- (assoc_L (++)).
  - by rewrite IH by (intros k Hk; apply Hreg; by apply list_elem_of_further).
Qed.

Lemma elem_of_builtin_layers zs p l :
  l ∈ builtin_layers zs p
  ↔ ∃ k, k ∈ zs ∧ _layers p !! k = Some l ∧ __builtin__ (deref p l) = true.
Proof.
  unfold builtin_layers. rewrite list_elem_of_omap. split.
  - intros (k & Hk & H). exists k. split; [done|].
    destruct (_layers p !! k) as [l0|]; cbn in H; [|done].
    destruct (__builtin__ (deref p l0)) eqn:Hb; [|done]. by injection H as ->.
  - intros (k & Hk & Hl & Hb). exists k. split; [done|]. rewrite Hl. cbn. by rewrite Hb.
Qed.

(** [clear] on a painter whose registry is consistent: it returns, and what
    it does is one [layer.clear()] on each registered engine-built layer, in
    ascending order of z-level.  The hover layer, which [getLayer] builds and
    registers like any other, is among them; layers that are not engine-built
    are not cleared.  Nothing else changes. *)
Theorem clear_clears_builtin_layers (p : Painter) :
  registry_ok p →
  clear p = Some (set_journal
                    (journal p
                     ++ ((λ l, Clear l false) <$> builtin_layers (_zlevelList p) p)) p)
  ∧ (∀ l, l ∈ builtin_layers (_zlevelList p) p
          ↔ ∃ k, _layers p !! k = Some l ∧ __builtin__ (deref p l) = true)
  ∧ (∀ hl k, _hoverlayer p = Some hl → _layers p !! k = Some hl →
             __builtin__ (deref p hl) = true →
             hl ∈ builtin_layers (_zlevelList p) p).
Proof.
  intros [Hs Hk].
  assert (Hin : ∀ l, l ∈ builtin_layers (_zlevelList p) p
                     ↔ ∃ k, _layers p !! k = Some l ∧ __builtin__ (deref p l) = true).
  { intros l. rewrite elem_of_builtin_layers. split.
    - intros (k & _ & ?). by exists k.
    - intros (k & Hl & Hb). exists k. split; [|done]. apply Hk. by rewrite Hl. }
  split; [|split; [exact Hin|]].
  - unfold clear, eachBuiltinLayer, _clearLayer.
    apply (each_builtin_emit_all (λ l, Clear l false)).
    intros k Hin'. by apply Hk.
  - intros hl k _ Hl Hb. apply Hin. by exists k.
Qed.

Lemma clear_clears_builtin_layers_witness :
  registry_ok sublayer_painter
  ∧ clear sublayer_painter
    = Some (set_journal
              (journal sublayer_painter
               ++ ((λ l, Clear l false)
                     <$> builtin_layers (_zlevelList sublayer_painter) sublayer_painter))
              sublayer_painter)
  ∧ (∀ l, l ∈ builtin_layers (_zlevelList sublayer_painter) sublayer_painter
          ↔ ∃ k, _layers sublayer_painter !! k = Some l
                 ∧ __builtin__ (deref sublayer_painter l) = true)
  ∧ (∀ hl k, _hoverlayer sublayer_painter = Some hl →
             _layers sublayer_painter !! k = Some hl →
             __builtin__ (deref sublayer_painter hl) = true →
             hl ∈ builtin_layers (_zlevelList sublayer_painter) sublayer_painter).
Proof.
  split; [apply wf_sublayer_painter|].
  apply (clear_clears_builtin_layers sublayer_painter). apply wf_sublayer_painter.
Defined.

(** ** The painter invariant *)

(** [_paintList] keeps a well-formed painter with well-shaped ranges in that
    state, whatever the token, and leaves the hover state and the token
    alone. *)
Lemma paintList_inv now els (paintAll : bool) redrawId p :
  wf p → ranges_ok p →
  ∃ p', _paintList now els paintAll redrawId p = Some p'
        ∧ wf p' ∧ ranges_ok p'
        ∧ _hoverElements p' = _hoverElements p
        ∧ _hoverlayer p' = _hoverlayer p
        ∧ _redrawId p' = _redrawId p.
Proof.
  intros Hwf Hro.
  destruct (decide (_redrawId p = redrawId)) as [Hid|Hid].
  2:{ exists p. unfold _paintList. rewrite bool_decide_eq_false_2 by done. done. }
  destruct (paintList_stages now els paintAll redrawId p Hwf Hro Hid)
    as (p1 & ls & p2 & fin & p3 & Hp1 & Hw1 & Hcl & Hnd & Hin & Hdo & Hfrom & Hout
        & Hpainted & Hfin & _ & _ & Hp3 & Hw3 & _ & _ & Hh3 & Hgrow & Hsub & Hsup & Hres).
  pose proof (painted_from_wf _ _ Hfrom Hw1) as Hw2.
  destruct (painted_from_registry _ _ Hfrom) as (Hl2 & _ & _ & Hst2 & _ & Hh2 & _ & He2).
  destruct (classified_all_paintable _ _ paintAll p1 Hw1 Hcl) as (_ & Hr1).
  pose proof Hw1 as (_ & Hc1 & _).
  assert (Hr2 : ranges_ok p2).
  { intros k L HL Hb. apply layer_at_Some in HL as (l & Hl & HLl).
    pose proof (heap_lookup_deref _ _ _ HLl) as HdL. rewrite Hl2 in Hl.
    pose proof (layer_at_deref _ _ _ Hc1 Hl) as HL1.
    destruct (decide (l ∈ ls)) as [Hinl|Hnot].
    - destruct (Hpainted l Hinl) as (i & Hd2 & Hi & _).
      assert (L = set_drawIndex i (deref p1 l)) as -> by congruence.
      cbn in Hb.
      destruct (Hr1 _ _ HL1 Hb) as (Hse & _). split; cbn; [done|]. right. lia.
    - assert (L = deref p1 l) as -> by (rewrite <- HdL; by apply Hout).
      by eapply Hr1. }
  assert (Hr3 : ranges_ok p3).
  { intros k L HL Hb. destruct (Hsup k L HL) as [HL2| ->]; [by eapply Hr2|].
    destruct (created_layer_fields p2 (resolve p2 CANVAS_ZLEVEL) false)
      as (_ & Hs & He & Hd). unfold ok_range. rewrite Hs, He, Hd. lia. }
  assert (Hhost3 : _hoverElements p3 = _hoverElements p2 ∧ _redrawId p3 = _redrawId p2).
  { destruct (_needsManuallyCompositing p2).
    - pose proof (proj_compositeManually (λ q, (_hoverElements q, _redrawId q))
                    (λ _ _, eq_refl) (λ _ _, eq_refl) (λ _ _, eq_refl) (λ _ _, eq_refl)
                    p2 p3 Hp3) as H. by injection H as -> ->.
    - by injection Hp3 as <-. }
  destruct Hhost3 as (He3 & Hid3).
  destruct (proj_updateLayerStatus (λ q, (_hoverElements q, _hoverlayer q))
              (λ _ _, eq_refl) (λ _ _, eq_refl) (λ _ _, eq_refl) (λ _ _, eq_refl)
              els p p1 Hp1) as (p_r & Hr & _ & Hp).
  assert (Hhost1 : _hoverElements p1 = _hoverElements p ∧ _hoverlayer p1 = _hoverlayer p).
  { destruct (detect_compositing_cases els p_r) as [E|E]; rewrite E in Hp;
      cbn in Hp; rewrite Hr in Hp; by injection Hp as -> ->. }
  destruct Hhost1 as (He1 & Hh1).
  pose proof (static_updateLayerStatus els p p1 Hp1) as [= _ Hid1].
  injection Hst2 as _ Hid2.
  eexists. split; [exact Hres|].
  destruct (negb fin); cbn;
    (split; [exact Hw3|]); (split; [exact Hr3|]);
    (split; [congruence|]); (split; congruence).
Qed.

Lemma refresh_custom_spec zs i p :
  (∀ k, k ∈ zs → is_Some (_layers p !! k)) →
  ∃ evs, refresh_custom zs i p = Some (set_journal (journal p ++ evs) p).
Proof.
  revert i p. induction zs as [|z zs IH]; intros i p Hreg.
  { exists []. cbn. rewrite app_nil_r. by destruct p. }
  destruct (Hreg z (list_elem_of_here _ _)) as [l Hl].
  cbn [refresh_custom]. rewrite Hl. cbn [mbind option_bind].
  set (q := if negb (__builtin__ (deref p l)) && refresh_fn (deref p l)
            then emit (RefreshCustom l (i =? 0)) p else p).
  assert (Hq : ∃ evs0, q = set_journal (journal p ++ evs0) p).
  { subst q. destruct (_ && _); [by eexists|].
    exists []. rewrite app_nil_r. by destruct p. }
  destruct Hq as [evs0 ->].
  destruct (IH (i + 1) (set_journal (journal p ++ evs0) p)) as (evs & He).
  { intros k Hk. apply Hreg. by apply list_elem_of_further. }
  exists (evs0 ++ evs). rewrite He. cbn. by rewrite (assoc_L (++)).
Qed.

Lemma refreshHover_inv timsort p :
  (∀ l, timsort l ≡ₚ l) →
  Forall (λ m, is_Some (__from m)) (_hoverElements p) →
  wf p → ranges_ok p →
  ∃ p', refreshHover timsort p = Some p'
        ∧ wf p' ∧ ranges_ok p'
        ∧ Forall (λ m, is_Some (__from m)) (_hoverElements p').
Proof.
  intros Hperm Hfrom Hwf Hro. unfold refreshHover.
  set (p0 := match _hoverlayer p with Some hl => emit (Clear hl false) p | None => p end).
  assert (Hp0 : wf p0 ∧ ranges_ok p0 ∧ _hoverElements p0 = _hoverElements p).
  { subst p0. destruct (_hoverlayer p); [|done].
    split; [exact Hwf|]. split; [exact Hro|reflexivity]. }
  destruct Hp0 as (Hw0 & Hr0 & He0). clearbody p0.
  destruct (_hoverElements p) as [|m ms] eqn:Hms.
  { exists p0. do 3 (split; [done|]). by rewrite He0. }
  set (sorted := timsort (m :: ms)).
  assert (Hsf : Forall (λ m, is_Some (__from m)) sorted).
  { subst sorted. by rewrite Hperm. }
  set (p1 := set_hoverElements sorted p0).
  set (r := match _hoverlayer p1 with
            | Some hl => (p1, hl)
            | None => let '(q, hl) := getLayer HOVER_LAYER_ZLEVEL false p1 in
                      (set_hoverlayer (Some hl) q, hl)
            end).
  assert (Hr : wf r.1 ∧ ranges_ok r.1).
  { subst r. destruct (_hoverlayer p1) as [hl0|]; [done|].
    pose proof (getLayer_wf HOVER_LAYER_ZLEVEL false p1 Hw0) as (Hw & _).
    pose proof (ranges_ok_getLayer HOVER_LAYER_ZLEVEL false p1 Hw0 Hr0) as Hr.
    destruct (getLayer HOVER_LAYER_ZLEVEL false p1) as [q hl]. done. }
  fold r. destruct r as [q hl]. cbn [fst snd] in Hr. destruct Hr as (Hwq & Hrq).
  destruct (hover_loop_spec sorted 0 (Z.of_nat (length sorted)) [] hl q Hsf)
    as (evs & He & _).
  rewrite He. cbn [mbind option_bind]. eexists. split; [reflexivity|].
  split; [done|]. split; [done|]. cbn.
  apply Forall_forall. intros x Hx. apply list_elem_of_filter in Hx as [_ Hx].
  by eapply Forall_forall in Hsf.
Qed.

Lemma refresh_inv now timsort els (paintAll : bool) random p :
  (∀ l, timsort l ≡ₚ l) →
  wf p → ranges_ok p → Forall (λ m, is_Some (__from m)) (_hoverElements p) →
  ∃ p', refresh now timsort els paintAll random p = Some p'
        ∧ wf p' ∧ ranges_ok p'
        ∧ Forall (λ m, is_Some (__from m)) (_hoverElements p').
Proof.
  intros Hperm Hwf Hro Hfrom. unfold refresh.
  destruct (paintList_inv now els paintAll (Some random) (set_redrawId (Some random) p))
    as (p1 & Hp1 & Hw1 & Hr1 & He1 & _); [exact Hwf|exact Hro|].
  cbn [_redrawId set_redrawId]. rewrite Hp1. cbn [mbind option_bind].
  destruct (refresh_custom_spec (_zlevelList p1) 0 p1) as (evs & He).
  { intros k Hk. by apply Hw1. }
  rewrite He. cbn [mbind option_bind].
  apply (refreshHover_inv timsort (set_journal (journal p1 ++ evs) p1) Hperm).
  - cbn. by rewrite He1.
  - exact Hw1.
  - exact Hr1.
Qed.

Lemma run_frame_inv now els p :
  wf p → ranges_ok p →
  ∃ p', run_frame now els p = Some p' ∧ wf p' ∧ ranges_ok p'
        ∧ _hoverElements p' = _hoverElements p.
Proof.
  intros Hwf Hro. unfold run_frame. destruct (frames p) as [|f rest]; [by exists p|].
  destruct (paintList_inv now els (fr_paintAll f) (fr_redrawId f)
              (set_frames rest p)) as (p' & Hp' & Hw' & Hr' & He' & _);
    [exact Hwf|exact Hro|].
  by exists p'.
Qed.

Lemma wf_delLayer zl p : wf p → wf (delLayer zl p).
Proof.
  intros (Hok & Hc & Hd). split; [by apply registry_ok_delLayer|].
  unfold delLayer. destruct (_layers p !! zl) as [l0|] eqn:Hz; [|done]. split.
  - intros k l. cbn. intros H. apply lookup_delete_Some in H as [_ H]. by eapply Hc.
  - intros k1 k2 l. cbn. intros H1 H2.
    apply lookup_delete_Some in H1 as [_ H1]. apply lookup_delete_Some in H2 as [_ H2].
    by eapply Hd.
Qed.

Lemma ranges_ok_delLayer zl p : ranges_ok p → ranges_ok (delLayer zl p).
Proof.
  intros Hro k L HL Hb. apply (Hro k L); [|done].
  unfold delLayer in HL. destruct (_layers p !! zl) as [l0|] eqn:Hz; [|done].
  apply layer_at_Some in HL as (l & Hl & HLl). cbn in Hl, HLl.
  apply lookup_delete_Some in Hl as [_ Hl]. apply layer_at_Some. by exists l.
Qed.

Lemma insertLayer_custom_inv zl (layer : Layer) p :
  wf p → ranges_ok p → __builtin__ layer = false →
  wf (insertLayer zl (Some (alloc layer p).2) (alloc layer p).1)
  ∧ ranges_ok (insertLayer zl (Some (alloc layer p).2) (alloc layer p).1).
Proof.
  intros Hwf Hro Hb. pose proof Hwf as (Hok & Hc & Hd).
  set (q := (alloc layer p).1). set (l := (alloc layer p).2).
  assert (Hwq : wf q).
  { split; [exact Hok|]. split; [|exact Hd].
    intros k l' H. cbn. rewrite length_app. apply Hc in H. lia. }
  assert (Hvq : ∀ k L, layer_at q k = Some L → layer_at p k = Some L).
  { intros k L HL. apply layer_at_Some in HL as (l' & Hl' & HL').
    apply layer_at_Some. exists l'. split; [done|].
    cbn in HL'. rewrite lookup_app_l in HL'; [done|]. by eapply Hc. }
  assert (Hrq : ranges_ok q).
  { intros k L HL Hb'. apply (Hro k L); [by apply Hvq|done]. }
  pose proof (registry_ok_insertLayer zl (Some l) q Hok) as Hreg.
  unfold insertLayer in Hreg |- *.
  destruct (_layers q !! zl) as [l0|] eqn:Hz; [done|].
  destruct (negb (isLayerValid (deref q <$> Some l))); [done|].
  split.
  - split; [exact Hreg|split].
    + intros k l'. cbn. rewrite length_app. cbn.
      destruct (decide (k = zl)) as [->|Hne].
      * rewrite lookup_insert_eq. intros [= <-]. subst l. cbn. lia.
      * rewrite lookup_insert_ne by done. intros H. apply Hc in H. lia.
    + intros k1 k2 l'. cbn.
      destruct (decide (k1 = zl)) as [->|Hne1], (decide (k2 = zl)) as [->|Hne2];
        rewrite ?lookup_insert_eq, ?lookup_insert_ne by done; try done.
      * intros [= <-] H. apply Hc in H. subst l. cbn in H. lia.
      * intros H [= <-]. apply Hc in H. subst l. cbn in H. lia.
      * apply Hd.
  - intros k L HL Hb'. apply layer_at_Some in HL as (l' & Hl' & HL').
    cbn in Hl', HL'. destruct (decide (k = zl)) as [->|Hne].
    + rewrite lookup_insert_eq in Hl'. injection Hl' as <-.
      subst l. cbn in HL'. rewrite lookup_app_r in HL' by lia.
      rewrite Nat.sub_diag in HL'. cbn in HL'. injection HL' as <-. congruence.
    + rewrite lookup_insert_ne in Hl' by done.
      apply (Hro k L); [|done]. apply layer_at_Some. exists l'. split; [done|].
      rewrite lookup_app_l in HL'; [done|]. by eapply Hc.
Qed.

Lemma ranges_ok_configLayer zl config p :
  wf p → ranges_ok p → ranges_ok (configLayer zl config p).
Proof.
  intros Hwf Hro. destruct config as [c|]; [|done]. unfold configLayer.
  set (stored := match _layerConfig p !! zl with None => c | Some c0 => merge c0 c end).
  pose proof (config_loop zl stored (_zlevelList p)
                (set_layerConfig (<[zl := stored]> (_layerConfig p)) p))
    as (H1 & _ & _ & _ & H5).
  cbn [_zlevelList _layers heap set_layerConfig] in *.
  intros k L HL Hb. apply layer_at_Some in HL as (l & Hl & HLl). rewrite H1 in Hl.
  pose proof Hwf as (_ & Hc & _).
  pose proof (layer_at_deref _ _ _ Hc Hl) as HL0.
  assert (Hh : heap p !! l = Some (deref p l)).
  { apply layer_at_Some in HL0 as (l' & Hl' & HL'). congruence. }
  destruct (H5 l _ Hh) as [Hyes Hno].
  destruct (config_target_dec zl (_zlevelList p) (_layers p) l) as [Ht|Ht].
  - rewrite (Hyes Ht) in HLl. injection HLl as <-. cbn in Hb.
    exact (Hro _ _ HL0 Hb).
  - rewrite (Hno Ht) in HLl. injection HLl as <-. exact (Hro _ _ HL0 Hb).
Qed.

Lemma clear_spec p :
  registry_ok p → ∃ evs, clear p = Some (set_journal (journal p ++ evs) p).
Proof.
  intros [_ Hk]. eexists. unfold clear, eachBuiltinLayer, _clearLayer.
  apply (each_builtin_emit_all (λ l, Clear l false)).
  intros k Hin. by apply Hk.
Qed.

(** The painter invariant holds of every painter that a disciplined client
    brings about: a painter got from a new one by [refresh], the frame
    callbacks, [getLayer], [insertLayer], [delLayer], [configLayer], [clear],
    [clearLayer] and changes of the hover list, in any order, where every
    layer object given to [insertLayer] is a new object of the client's own
    and the client does not write to layer objects itself.  Such a painter
    can be refreshed: [refresh], the frame callbacks and [clear] return
    instead of throwing, whatever the display list, what the array of a
    callback holds when it runs, the force flag and the clock.  The
    invariant: the z-level list is strictly ascending and holds exactly the
    keys of the layer map, different keys hold different layer objects, every
    registered engine-built layer has [0 <= start <= end] and a draw index
    that is the sentinel or inside the range, and every hover mirror has its
    back reference. *)
Theorem reachable_painter_refreshes (now : nat → Z)
    (timsort : list Mirror → list Mirror) (p : Painter) :
  (∀ l, timsort l ≡ₚ l) →
  reachable now timsort p →
  (wf p ∧ ranges_ok p ∧ Forall (λ m, is_Some (__from m)) (_hoverElements p))
  ∧ (∀ els paintAll random, is_Some (refresh now timsort els paintAll random p))
  ∧ (∀ els, is_Some (run_frame now els p))
  ∧ is_Some (clear p).
Proof.
  intros Hperm Hreach.
  assert (Hinv : wf p ∧ ranges_ok p
                 ∧ Forall (λ m, is_Some (__from m)) (_hoverElements p)).
  { induction Hreach as [b|p els paintAll random p' _ IH Hp'|p els p' _ IH Hp'
                         |p zl virt _ IH|p zl layer _ IH Hb|p zl _ IH Hv
                         |p zl config _ IH|p ms _ IH Hms|p p' _ IH Hp'|p zl _ IH].
    - split; [apply wf_CanvasPainter|]. split; [apply ranges_ok_CanvasPainter|].
      by destruct b.
    - destruct IH as (Hwf & Hro & Hfrom).
      destruct (refresh_inv now timsort els paintAll random p Hperm Hwf Hro Hfrom)
        as (q & Hq & H). rewrite Hp' in Hq. by injection Hq as <-.
    - destruct IH as (Hwf & Hro & Hfrom).
      destruct (run_frame_inv now els p Hwf Hro) as (q & Hq & Hw & Hr & He).
      rewrite Hp' in Hq. injection Hq as <-. by rewrite He.
    - destruct IH as (Hwf & Hro & Hfrom).
      pose proof (getLayer_wf zl virt p Hwf) as (Hw & _).
      split; [exact Hw|]. split; [by apply ranges_ok_getLayer|].
      pose proof (proj_getLayer _hoverElements
                    (λ _ _, eq_refl) (λ _ _, eq_refl) (λ _ _, eq_refl) (λ _ _, eq_refl)
                    zl virt p) as He.
      by rewrite He.
    - destruct IH as (Hwf & Hro & Hfrom).
      destruct (insertLayer_custom_inv zl layer p Hwf Hro Hb) as (Hw & Hr).
      split; [exact Hw|]. split; [exact Hr|].
      pose proof (proj_insertLayer _hoverElements
                    (λ _ _, eq_refl) (λ _ _, eq_refl) (λ _ _, eq_refl)
                    zl (Some (alloc layer p).2) (alloc layer p).1) as He.
      by rewrite He.
    - destruct IH as (Hwf & Hro & Hfrom).
      split; [by apply wf_delLayer|]. split; [by apply ranges_ok_delLayer|].
      unfold delLayer. by destruct (_layers p !! zl).
    - destruct IH as (Hwf & Hro & Hfrom).
      split; [by apply wf_configLayer|]. split; [by apply ranges_ok_configLayer|].
      destruct config as [c|]; [|done]. unfold configLayer.
      pose proof (config_loop zl (match _layerConfig p !! zl with
                                  | None => c | Some c0 => merge c0 c end)
                    (_zlevelList p)
                    (set_layerConfig
                       (<[zl := match _layerConfig p !! zl with
                                | None => c | Some c0 => merge c0 c end]>
                          (_layerConfig p)) p)) as _.
      assert (He : ∀ zs q, _hoverElements
                             (foldl (config_step zl
                                       (match _layerConfig p !! zl with
                                        | None => c | Some c0 => merge c0 c end)) q zs)
                           = _hoverElements q).
      { clear. induction zs as [|k zs IHz]; intros q; cbn [foldl]; [done|].
        rewrite IHz. unfold config_step. destruct (_ || _); [|done].
        by destruct (_layers q !! k). }
      by rewrite He.
    - destruct IH as (Hwf & Hro & Hfrom). done.
    - destruct IH as (Hwf & Hro & Hfrom).
      destruct (clear_spec p (proj1 Hwf)) as (evs & He).
      rewrite Hp' in He. by injection He as ->.
    - destruct IH as (Hwf & Hro & Hfrom).
      unfold clearLayer. by destruct (_layers p !! zl). }
  split; [exact Hinv|]. destruct Hinv as (Hwf & Hro & Hfrom).
  split; [|split].
  - intros els paintAll random.
    destruct (refresh_inv now timsort els paintAll random p Hperm Hwf Hro Hfrom)
      as (q & Hq & _). by rewrite Hq.
  - intros els. destruct (run_frame_inv now els p Hwf Hro) as (q & Hq & _).
    by rewrite Hq.
  - destruct (clear_spec p (proj1 Hwf)) as (evs & He). by rewrite He.
Qed.

Lemma reachable_painter_refreshes_witness :
  (∀ l : list Mirror, id l ≡ₚ l)
  ∧ reachable slow_clock id pending_painter
  ∧ (wf pending_painter ∧ ranges_ok pending_painter
     ∧ Forall (λ m, is_Some (__from m)) (_hoverElements pending_painter))
  ∧ (∀ els paintAll random,
       is_Some (refresh slow_clock id els paintAll random pending_painter))
  ∧ (∀ els, is_Some (run_frame slow_clock els pending_painter))
  ∧ is_Some (clear pending_painter).
Proof.
  assert (Hperm : ∀ l : list Mirror, id l ≡ₚ l) by done.
  assert (Hreach : reachable slow_clock id pending_painter).
  { apply (reach_refresh slow_clock id (CanvasPainter false) three_incremental false 1);
      [apply reach_new|]. vm_compute. reflexivity. }
  split; [exact Hperm|]. split; [exact Hreach|].
  exact (reachable_painter_refreshes slow_clock id pending_painter Hperm Hreach).
Defined.

(** ** The ranges that classification assigns *)

Lemma last_run_same done k s :
  last done = Some k →
  last_run done k s (Z.of_nat (length done)) →
  last_run (done ++ [k]) k s (Z.of_nat (length done) + 1).
Proof.
  intros Hlast (Hs & He & Hin & Hpre & Hpost).
  split; [lia|]. split; [rewrite length_app; cbn; lia|]. split; [|split].
  - intros j Hj. destruct (decide (j < Z.of_nat (length done))) as [Hlt|Hge].
    + rewrite lookup_app_l by lia. apply Hin. lia.
    + rewrite lookup_app_r by lia.
      replace (Z.to_nat j - length done)%nat with 0%nat by lia. done.
  - intros H0. rewrite lookup_app_l by lia. by apply Hpre.
  - intros j Hj. rewrite lookup_ge_None_2; [done|]. rewrite length_app. cbn. lia.
Qed.

Lemma last_run_start done k :
  last done ≠ Some k →
  last_run (done ++ [k]) k (Z.of_nat (length done)) (Z.of_nat (length done) + 1).
Proof.
  intros Hlast.
  split; [lia|]. split; [rewrite length_app; cbn; lia|]. split; [|split].
  - intros j Hj. rewrite lookup_app_r by lia.
    replace (Z.to_nat j - length done)%nat with 0%nat by lia. done.
  - intros H0. rewrite lookup_app_l by lia.
    rewrite last_lookup in Hlast.
    replace (Z.to_nat (Z.of_nat (length done) - 1)) with (pred (length done)) by lia.
    done.
  - intros j Hj. rewrite lookup_ge_None_2; [done|]. rewrite length_app. cbn. lia.
Qed.

Lemma last_run_other done k k' s e :
  k' ≠ k → last_run done k' s e → last_run (done ++ [k]) k' s e.
Proof.
  intros Hne (Hs & He & Hin & Hpre & Hpost).
  split; [lia|]. split; [rewrite length_app; cbn; lia|]. split; [|split].
  - intros j Hj. rewrite lookup_app_l by lia. by apply Hin.
  - intros H0. rewrite lookup_app_l by lia. by apply Hpre.
  - intros j Hj. destruct (decide (j < Z.of_nat (length done))) as [Hlt|Hge].
    + rewrite lookup_app_l by lia. by apply Hpost.
    + destruct (decide (j = Z.of_nat (length done))) as [->|Hgt].
      * rewrite lookup_app_r by lia.
        replace (Z.to_nat (Z.of_nat (length done)) - length done)%nat with 0%nat by lia.
        cbn. congruence.
      * rewrite lookup_ge_None_2; [done|]. rewrite length_app. cbn. lia.
Qed.

(** The invariant of the walk behind the ranges: the layer of every key
    visited so far is in use and starts at the start of the last run of its
    key; the run of the layer visited last is still open, every other one is
    closed by the layer's end index. *)
Lemma walk_runs_step done w e :
  linked (last done) w →
  (∀ k L, layer_at (w_painter w) k = Some L → k ∈ done →
          __used L = true
          ∧ last_run done k (__startIndex L)
              (if decide (last done = Some k) then Z.of_nat (length done)
               else __endIndex L)) →
  let done' := done ++ [resolve (w_painter w)
                          (requested_zlevel e (incrementalLayerCount w))] in
  ∀ k L,
    layer_at (w_painter (walk_step (Z.of_nat (length done)) e w)) k = Some L →
    k ∈ done' →
    __used L = true
    ∧ last_run done' k (__startIndex L)
        (if decide (last done' = Some k) then Z.of_nat (length done')
         else __endIndex L).
Proof.
  intros (Hwf & Hprev & Hkp) HI done' k' L' HL' Hin'.
  destruct (walk_step_view (Z.of_nat (length done)) e w (last done) Hwf Hprev Hkp)
    as (_ & _ & _ & _ & _ & _ & _ & Hcur & Hold & Hoth).
  set (k := resolve (w_painter w) (requested_zlevel e (incrementalLayerCount w))) in *.
  set (i := Z.of_nat (length done)) in *.
  assert (Hlen' : Z.of_nat (length done') = i + 1).
  { subst done' i. rewrite length_app. cbn. lia. }
  assert (Hlast' : last done' = Some k) by apply last_snoc_Z.
  rewrite Hlast', Hlen'.
  destruct (decide (k' = k)) as [->|Hne].
  - rewrite decide_True by done.
    rewrite Hcur in HL'. injection HL' as <-.
    destruct (decide (last done = Some k)) as [Hs|Hs].
    + rewrite bool_decide_eq_true_2 by done.
      destruct (Hkp k Hs) as [l Hl].
      pose proof (layer_at_deref _ _ _ (proj1 (proj2 Hwf)) Hl) as HLk.
      rewrite HLk. cbn [default from_option id].
      assert (Hkd : k ∈ done).
      { apply last_Some in Hs as (l' & ->). apply elem_of_snoc. by right. }
      destruct (HI k _ HLk Hkd) as (Hu & Hrun). rewrite decide_True in Hrun by done.
      destruct (visit_layer_same i e (deref (w_painter w) l)) as (-> & -> & _).
      split; [done|]. by apply last_run_same.
    + rewrite bool_decide_eq_false_2 by done.
      destruct (visit_layer_enter i e
                  (default (created_layer (w_painter w) k
                              (_needsManuallyCompositing (w_painter w)))
                     (layer_at (w_painter w) k))) as (-> & -> & _).
      split; [done|]. by apply last_run_start.
  - rewrite decide_False by congruence.
    assert (Hkd : k' ∈ done).
    { subst done'. apply elem_of_snoc in Hin' as [?|?]; done. }
    destruct (decide (last done = Some k')) as [Hlast|Hlast].
    + rewrite (Hold k' Hlast Hne) in HL'.
      destruct (layer_at (w_painter w) k') as [L0|] eqn:HL0; [|done].
      injection HL' as <-.
      destruct (close_layer_fields i L0) as (_ & -> & -> & -> & _).
      destruct (HI k' L0 HL0 Hkd) as (Hu & Hrun).
      rewrite decide_True in Hrun by done.
      split; [done|]. by apply last_run_other.
    + rewrite (Hoth k' Hne Hlast) in HL'.
      destruct (HI k' L' HL' Hkd) as (Hu & Hrun).
      rewrite decide_False in Hrun by done.
      split; [done|]. by apply last_run_other.
Qed.

Lemma length_layer_keys els p : length (layer_keys els p) = length els.
Proof.
  unfold layer_keys. rewrite length_fmap.
  generalize 0. induction els as [|e els IH]; intros c; [done|].
  cbn. by rewrite IH.
Qed.

(** After classification the range of every registered layer whose key is
    the key of some element is the last maximal run of that key in the list
    of element keys. *)
Lemma updateLayerStatus_runs els p :
  wf p →
  ∃ p', _updateLayerStatus els p = Some p'
        ∧ (∀ k, k ∈ layer_keys els p → is_Some (layer_at p' k))
        ∧ ∀ k L, layer_at p' k = Some L → k ∈ layer_keys els p →
                 __used L = true
                 ∧ last_run (layer_keys els p) k (__startIndex L) (__endIndex L).
Proof.
  intros Hwf.
  destruct (updateLayerStatus_spec els p Hwf)
    as (p_r & p' & Hr & Hwr & Hlr & Hmr & _ & Hvr & Hp' & Hw' & Hl' & _ & _ & Hv').
  exists p'. split; [done|].
  destruct (detect_compositing_frame els p_r) as (Hwd & Hld & _ & _ & _ & Hvd).
  assert (Hl0 : linked None (walk_start els p_r)).
  { split; [by apply Hwd|]. split; [done|]. by intros k0 [=]. }
  assert (Hkeys : walk_keys els (walk_start els p_r) = layer_keys els p).
  { unfold walk_keys, layer_keys, walk_start. cbn.
    apply list_fmap_ext. intros _ x _. apply resolve_mode.
    by apply mode_detect_compositing. }
  split.
  { intros k Hk.
    destruct (walk_registry els p (walk_start els p_r) Hl0) as (_ & H2 & _).
    { cbn. by rewrite Hld. }
    rewrite Hkeys in H2. destruct (H2 k Hk) as [l Hl]. rewrite <- Hl' in Hl.
    rewrite (layer_at_deref _ _ _ (proj1 (proj2 Hw')) Hl). by eexists. }
  set (I := λ (done : list Z) (w : Walk),
         ∀ k L, layer_at (w_painter w) k = Some L → k ∈ done →
                __used L = true
                ∧ last_run done k (__startIndex L)
                    (if decide (last done = Some k) then Z.of_nat (length done)
                     else __endIndex L)).
  destruct (walk_invariant I walk_runs_step els [] (walk_start els p_r) Hl0)
    as (_ & HI & _).
  { intros k L _ Hk. by apply elem_of_nil in Hk. }
  cbn [app] in HI. rewrite Hkeys in HI.
  set (w := (walk els 0 (walk_start els p_r)).1) in *.
  intros k L HL Hk. rewrite Hv' in HL.
  destruct (layer_at (w_painter w) k) as [Lw|] eqn:HLw; [|done].
  cbn in HL. injection HL as <-.
  destruct (HI k Lw HLw Hk) as (Hu & Hrun).
  rewrite length_layer_keys in Hrun.
  set (L1 := if decide (last (layer_keys els p) = Some k)
             then close_layer (Z.of_nat (length els)) Lw else Lw) in *.
  assert (H1 : __used L1 = true
               ∧ last_run (layer_keys els p) k (__startIndex L1) (__endIndex L1)).
  { subst L1. destruct (decide (last (layer_keys els p) = Some k)); [|done].
    destruct (close_layer_fields (Z.of_nat (length els)) Lw) as (_ & -> & -> & -> & _).
    done. }
  destruct H1 as (Hu1 & Hrun1). clearbody L1.
  unfold settle_view. destruct (__builtin__ L1); [|done].
  unfold settle_status. rewrite Hu1. cbn [negb andb].
  by destruct (__dirty L1 && (__drawIndex L1 <? 0)).
Qed.

(** The range that classification gives a layer.  After the pass, for every
    registered layer whose key is the key of some element, [start, end) is
    the last maximal run of that key in the list of element keys: a
    non-empty stretch inside the list in which every element has that key,
    not preceded by an element of that key, and after which no element has
    it.  (If the elements of a key are not contiguous, the earlier runs are
    in no layer's range.) *)
Theorem updateLayerStatus_last_run (els : list Element) (p : Painter) :
  wf p →
  ∃ p', _updateLayerStatus els p = Some p'
        ∧ ∀ k L, layer_at p' k = Some L → k ∈ layer_keys els p →
            0 ≤ __startIndex L < __endIndex L
            ∧ __endIndex L ≤ Z.of_nat (length els)
            ∧ (∀ j, __startIndex L ≤ j < __endIndex L →
                    layer_keys els p !! Z.to_nat j = Some k)
            ∧ (0 < __startIndex L →
               layer_keys els p !! Z.to_nat (__startIndex L - 1) ≠ Some k)
            ∧ (∀ j, __endIndex L ≤ j → layer_keys els p !! Z.to_nat j ≠ Some k).
Proof.
  intros Hwf. destruct (updateLayerStatus_runs els p Hwf) as (p' & Hp' & _ & H).
  exists p'. split; [done|]. intros k L HL Hk.
  destruct (H k L HL Hk) as (_ & H1 & H2 & H3).
  rewrite length_layer_keys in H2. done.
Qed.

Lemma updateLayerStatus_last_run_witness :
  wf sublayer_painter
  ∧ ∃ p', _updateLayerStatus [el 0 false true; el 5 false true; el 0 false true]
            sublayer_painter = Some p'
        ∧ ∀ k L, layer_at p' k = Some L →
            k ∈ layer_keys [el 0 false true; el 5 false true; el 0 false true]
                  sublayer_painter →
            0 ≤ __startIndex L < __endIndex L
            ∧ __endIndex L
              ≤ Z.of_nat (length [el 0 false true; el 5 false true; el 0 false true])
            ∧ (∀ j, __startIndex L ≤ j < __endIndex L →
                    layer_keys [el 0 false true; el 5 false true; el 0 false true]
                      sublayer_painter !! Z.to_nat j = Some k)
            ∧ (0 < __startIndex L →
               layer_keys [el 0 false true; el 5 false true; el 0 false true]
                 sublayer_painter !! Z.to_nat (__startIndex L - 1) ≠ Some k)
            ∧ (∀ j, __endIndex L ≤ j →
                    layer_keys [el 0 false true; el 5 false true; el 0 false true]
                      sublayer_painter !! Z.to_nat j ≠ Some k).
Proof.
  split; [apply wf_sublayer_painter|].
  exact (updateLayerStatus_last_run [el 0 false true; el 5 false true; el 0 false true]
           sublayer_painter wf_sublayer_painter).
Defined.

(** Every element is in the range of its own layer, and of no other, when
    the elements of each layer are contiguous in the list: after
    classification the layer registered under the key of the element at
    index [i] has [start <= i < end], and a registered layer of a key that
    occurs in the list whose range holds [i] is that layer.  So the ranges of
    the layers in use tile the list. *)
Theorem updateLayerStatus_covers (els : list Element) (p : Painter) :
  wf p → grouped (layer_keys els p) →
  ∃ p', _updateLayerStatus els p = Some p'
        ∧ ∀ (i : nat) k, layer_keys els p !! i = Some k →
            (∃ L, layer_at p' k = Some L
                  ∧ __startIndex L ≤ Z.of_nat i < __endIndex L)
            ∧ (∀ k' L', layer_at p' k' = Some L' → k' ∈ layer_keys els p →
                        __startIndex L' ≤ Z.of_nat i < __endIndex L' → k' = k).
Proof.
  intros Hwf Hg. destruct (updateLayerStatus_runs els p Hwf) as (p' & Hp' & Hreg & H).
  exists p'. split; [done|]. intros i k Hi.
  assert (Hk : k ∈ layer_keys els p) by (by eapply list_elem_of_lookup_2).
  split.
  - destruct (Hreg k Hk) as [L HL]. exists L. split; [done|].
    destruct (H k L HL Hk) as (_ & Hs & He & Hin & Hpre & Hpost).
    destruct (decide (__endIndex L ≤ Z.of_nat i)) as [Hge|Hlt].
    { exfalso. apply (Hpost (Z.of_nat i) Hge). by rewrite Nat2Z.id. }
    split; [|lia].
    destruct (decide (__startIndex L ≤ Z.of_nat i)) as [|Hbefore]; [done|].
    exfalso. apply Hpre; [lia|].
    apply (Hg i (Z.to_nat (__startIndex L - 1)) (Z.to_nat (__startIndex L)) k);
      [lia|done|]. apply Hin. lia.
  - intros k' L' HL' Hk' Hr.
    destruct (H k' L' HL' Hk') as (_ & _ & _ & Hin & _).
    specialize (Hin (Z.of_nat i) Hr). rewrite Nat2Z.id in Hin. congruence.
Qed.

Lemma grouped_three_incremental : grouped (layer_keys three_incremental (CanvasPainter false)).
Proof.
  intros i j l k Hij Hi Hl.
  assert (Hlen : (l < 3)%nat) by (apply lookup_lt_Some in Hl; exact Hl).
  destruct i as [|[|[|i]]]; cbn in Hi; try done; injection Hi as <-;
    destruct j as [|[|[|j]]]; try done; lia.
Qed.

Lemma updateLayerStatus_covers_witness :
  wf (CanvasPainter false)
  ∧ grouped (layer_keys three_incremental (CanvasPainter false))
  ∧ ∃ p', _updateLayerStatus three_incremental (CanvasPainter false) = Some p'
        ∧ ∀ (i : nat) k,
            layer_keys three_incremental (CanvasPainter false) !! i = Some k →
            (∃ L, layer_at p' k = Some L
                  ∧ __startIndex L ≤ Z.of_nat i < __endIndex L)
            ∧ (∀ k' L', layer_at p' k' = Some L' →
                        k' ∈ layer_keys three_incremental (CanvasPainter false) →
                        __startIndex L' ≤ Z.of_nat i < __endIndex L' → k' = k).
Proof.
  split; [apply wf_CanvasPainter|]. split; [apply grouped_three_incremental|].
  exact (updateLayerStatus_covers three_incremental (CanvasPainter false)
           (wf_CanvasPainter false) grouped_three_incremental).
Defined.

(** ** What classification marks dirty *)

Lemma requested_keys_snoc seen e c :
  requested_keys (seen ++ [e]) c
  = requested_keys seen c
    ++ [requested_zlevel e (foldl (λ c x, if el_incremental x then 1 else c) c seen)].
Proof.
  revert c. induction seen as [|x seen IH]; intros c; [done|].
  cbn [app requested_keys foldl]. by rewrite IH.
Qed.

(** Induction over the walk with the elements seen so far. *)
Lemma walk_invariant_els (I : list Element → Walk → Prop) w0 :
  linked None w0 → incrementalLayerCount w0 = 0 →
  (∀ seen w e,
     linked (last (walk_keys seen w0)) w →
     mode (w_painter w) = mode (w_painter w0) →
     walk_keys (seen ++ [e]) w0
     = walk_keys seen w0
       ++ [resolve (w_painter w) (requested_zlevel e (incrementalLayerCount w))] →
     I seen w → I (seen ++ [e]) (walk_step (Z.of_nat (length seen)) e w)) →
  I [] w0 →
  ∀ els, I els (walk els 0 w0).1.
Proof.
  intros Hl0 Hc0 Hstep HI0.
  assert (G : ∀ els seen w,
            linked (last (walk_keys seen w0)) w →
            mode (w_painter w) = mode (w_painter w0) →
            incrementalLayerCount w
            = foldl (λ c x, if el_incremental x then 1 else c) 0 seen →
            I seen w →
            I (seen ++ els) (walk els (Z.of_nat (length seen)) w).1).
  { induction els as [|e els IH]; intros seen w Hl Hm Hc HI.
    { cbn. by rewrite app_nil_r. }
    cbn [walk].
    assert (Hsnoc : walk_keys (seen ++ [e]) w0
                    = walk_keys seen w0
                      ++ [resolve (w_painter w)
                            (requested_zlevel e (incrementalLayerCount w))]).
    { unfold walk_keys. rewrite requested_keys_snoc, fmap_app. cbn.
      rewrite Hc0, <- Hc. f_equal. f_equal. symmetry. by apply resolve_mode. }
    destruct Hl as (Hwf & Hprev & Hkp).
    destruct (walk_step_view (Z.of_nat (length seen)) e w (last (walk_keys seen w0))
                Hwf Hprev Hkp) as (Hw' & Hm' & Hp' & Hk' & Hc' & _).
    specialize (IH (seen ++ [e]) (walk_step (Z.of_nat (length seen)) e w)).
    rewrite <- (assoc_L (++)) in IH. cbn [app] in IH.
    replace (Z.of_nat (length (seen ++ [e]))) with (Z.of_nat (length seen) + 1) in IH
      by (rewrite length_app; cbn; lia).
    apply IH.
    - rewrite Hsnoc, last_snoc_Z. split; [done|]. split; [done|]. by intros k0 [= <-].
    - by rewrite Hm'.
    - rewrite Hc', foldl_app. cbn. by rewrite Hc.
    - apply Hstep; [by split|done|done|done]. }
  intros els. apply (G els [] w0); [done|done|done|done].
Qed.

(** Ranges of a list that grows at its end. *)
Lemma range_of_snoc_open {A} (s : Z) (l : list A) x :
  0 ≤ s ≤ Z.of_nat (length l) →
  range_of s (Z.of_nat (length l) + 1) (l ++ [x])
  = range_of s (Z.of_nat (length l)) l ++ [x].
Proof.
  intros Hs. unfold range_of. rewrite drop_app_le by lia.
  rewrite take_app_ge by (rewrite length_drop; lia).
  rewrite length_drop.
  replace (Z.to_nat (Z.of_nat (length l) + 1 - s) - (length l - Z.to_nat s))%nat
    with 1%nat by lia.
  rewrite (take_ge (drop _ l)) by (rewrite length_drop; lia). done.
Qed.

Lemma range_of_snoc_closed {A} (s e : Z) (l : list A) x :
  0 ≤ s → e ≤ Z.of_nat (length l) → range_of s e (l ++ [x]) = range_of s e l.
Proof.
  intros Hs He. unfold range_of.
  destruct (decide (e ≤ s)) as [Hle|Hlt].
  { replace (Z.to_nat (e - s)) with 0%nat by lia. done. }
  rewrite drop_app_le by lia. rewrite take_app_le; [done|].
  rewrite length_drop. lia.
Qed.

Lemma range_of_snoc_new {A} (l : list A) x :
  range_of (Z.of_nat (length l)) (Z.of_nat (length l) + 1) (l ++ [x]) = [x].
Proof.
  unfold range_of. rewrite Nat2Z.id, drop_app_length.
  by replace (Z.to_nat (Z.of_nat (length l) + 1 - Z.of_nat (length l))) with 1%nat by lia.
Qed.

Lemma length_range_of {A} (s e : Z) (l : list A) :
  0 ≤ s → s ≤ e → e ≤ Z.of_nat (length l) →
  Z.of_nat (length (range_of s e l)) = e - s.
Proof.
  intros Hs Hse He. unfold range_of. rewrite length_take, length_drop. lia.
Qed.

(** The fields that one iteration of the walk writes on the layer of its
    element, and that closing a run writes on the layer before. *)
Lemma visit_layer_eqs i e same L :
  __builtin__ (visit_layer i e same L) = __builtin__ L
  ∧ incremental (visit_layer i e same L) = incremental L || el_incremental e
  ∧ __endIndex (visit_layer i e same L) = __endIndex L
  ∧ __startIndex (visit_layer i e same L) = (if same then __startIndex L else i)
  ∧ __dirty (visit_layer i e same L)
    = (if same then __dirty L else __dirty L || negb (__startIndex L =? i))
      || el_dirty e
  ∧ __drawIndex (visit_layer i e same L)
    = if same
      then if el_dirty e && (incremental L || el_incremental e) && (__drawIndex L <? 0)
           then i else __drawIndex L
      else if incremental L || el_incremental e
           then if el_dirty e then i else -1
           else i.
Proof.
  unfold visit_layer, enter_layer, touch_layer. cbv zeta.
  destruct (el_incremental e), same, (el_dirty e); cbn;
    destruct (incremental L) eqn:Hi; cbn; rewrite ?Hi; cbn;
    destruct (__startIndex L =? i) eqn:Hs; cbn; rewrite ?Hi; cbn;
    destruct (__dirty L) eqn:Hd; cbn;
    destruct (__drawIndex L <? 0) eqn:Hdr; cbn; rewrite ?Hi, ?Hd, ?Hs, ?Hdr; done.
Qed.

Lemma close_layer_eqs i L :
  __dirty (close_layer i L) = __dirty L || negb (__endIndex L =? i).
Proof.
  unfold close_layer.
  destruct (__dirty L) eqn:Hd, (__endIndex L =? i) eqn:He; cbn; by rewrite ?Hd.
Qed.

Lemma walked_drawIndex_snoc (inc : bool) s run e :
  0 ≤ s → run ≠ [] →
  walked_drawIndex inc s (run ++ [e])
  = if el_dirty e && (inc || existsb el_incremental run || el_incremental e)
       && (walked_drawIndex inc s run <? 0)
    then s + Z.of_nat (length run)
    else walked_drawIndex inc s run.
Proof.
  intros Hs Hne. destruct run as [|x run]; [done|]. clear Hne.
  unfold walked_drawIndex. cbn [app].
  destruct (inc || el_incremental x) eqn:Hinc.
  - assert (Hinc' : inc || existsb el_incremental (x :: run) || el_incremental e = true).
    { cbn. destruct inc, (el_incremental x); try done. }
    rewrite Hinc'. rewrite andb_true_r.
    change (x :: run ++ [e]) with ((x :: run) ++ [e]).
    destruct (list_find (λ x0, el_dirty x0 = true) (x :: run)) as [[j y]|] eqn:Hf.
    + rewrite (list_find_app_l _ _ _ _ _ Hf).
      replace (s + Z.of_nat j <? 0) with false by (symmetry; apply Z.ltb_ge; lia).
      by rewrite andb_false_r.
    + rewrite (list_find_app_r _ _ _ Hf). cbn [list_find].
      destruct (el_dirty e) eqn:Hde.
      * rewrite decide_True by done. cbn. lia.
      * rewrite decide_False by congruence. done.
  - replace (s <? 0) with false by (symmetry; apply Z.ltb_ge; lia).
    by rewrite andb_false_r.
Qed.

Lemma created_layer_flags p zl virt :
  __builtin__ (created_layer p zl virt) = true
  ∧ __dirty (created_layer p zl virt) = true
  ∧ incremental (created_layer p zl virt) = false.
Proof. unfold created_layer. by destruct virt, (_layerConfig p !! zl). Qed.

Lemma grouped_prefix (l l' : list Z) : grouped (l ++ l') → grouped l.
Proof.
  intros Hg i j n k Hij Hi Hn.
  pose proof (lookup_lt_Some _ _ _ Hn) as Hlt.
  pose proof (Hg i j n k Hij (lookup_app_l_Some _ _ _ _ Hi)
                (lookup_app_l_Some _ _ _ _ Hn)) as H.
  by rewrite lookup_app_l in H by lia.
Qed.

Lemma grouped_fresh (done : list Z) k :
  grouped (done ++ [k]) → last done ≠ Some k → k ∉ done.
Proof.
  intros Hg Hlast Hin. apply list_elem_of_lookup in Hin as [a Ha].
  pose proof (lookup_lt_Some _ _ _ Ha) as Hlt.
  apply Hlast. rewrite last_lookup.
  assert (H : (done ++ [k]) !! pred (length done) = Some k).
  { apply (Hg a (pred (length done)) (length done) k); [lia| |].
    - by apply lookup_app_l_Some.
    - rewrite lookup_app_r by lia. by rewrite Nat.sub_diag. }
  by rewrite lookup_app_l in H by lia.
Qed.

Lemma length_walk_keys seen w : length (walk_keys seen w) = length seen.
Proof.
  unfold walk_keys. rewrite length_fmap.
  generalize (incrementalLayerCount w). induction seen as [|e els IH]; intros c; [done|].
  cbn. by rewrite IH.
Qed.

Lemma walk_marks_step w0 seen w e :
  linked (last (walk_keys seen w0)) w →
  mode (w_painter w) = mode (w_painter w0) →
  walk_keys (seen ++ [e]) w0
  = walk_keys seen w0
    ++ [resolve (w_painter w) (requested_zlevel e (incrementalLayerCount w))] →
  walk_marks w0 seen w →
  walk_marks w0 (seen ++ [e]) (walk_step (Z.of_nat (length seen)) e w).
Proof.
  intros Hl Hm Hsnoc (Hcfg & Hunt & Hruns & Hmarks).
  pose proof Hl as (Hwf & Hprev & Hkp).
  pose proof (length_walk_keys seen w0) as Hlen.
  unfold walk_marks. cbv zeta. rewrite Hsnoc.
  set (done := walk_keys seen w0) in *.
  set (k := resolve (w_painter w) (requested_zlevel e (incrementalLayerCount w))) in *.
  destruct (walk_step_view (Z.of_nat (length seen)) e w (last done) Hwf Hprev Hkp)
    as (_ & _ & _ & _ & _ & _ & _ & Hcur & Hold & Hoth).
  fold k in Hcur, Hold, Hoth.
  set (i := Z.of_nat (length seen)) in *.
  assert (Hi : Z.of_nat (length done) = i) by (subst i; by rewrite Hlen).
  split; [|split; [|split]].
  - rewrite <- Hcfg.
    apply (proj_walk_step _layerConfig
             (λ _ _, eq_refl) (λ _ _, eq_refl) (λ _ _, eq_refl) (λ _ _, eq_refl)).
  - intros k' Hk'. rewrite elem_of_snoc in Hk'.
    rewrite Hoth; [apply Hunt; tauto|intros ->; tauto|].
    intros Hlast. apply Hk'. left. apply last_Some in Hlast as (l' & ->).
    apply elem_of_snoc. by right.
  - pose proof (walk_runs_step done w e Hl Hruns) as H. cbv zeta in H. fold k in H.
    rewrite Hi in H. exact H.
  - intros Hg k' L' HL' Hin'.
    pose proof (grouped_prefix _ _ Hg) as Hg0. specialize (Hmarks Hg0).
    rewrite last_snoc_Z.
    unfold walked_layer. cbv zeta. rewrite length_app. cbn [length].
    replace (Z.of_nat (length seen + 1)) with (i + 1) by (subst i; lia).
    destruct (decide (k' = k)) as [->|Hne].
    + rewrite bool_decide_eq_true_2 by done.
      rewrite Hcur in HL'. injection HL' as <-.
      destruct (decide (last done = Some k)) as [Hs|Hs].
      * (* the element stays on the layer of the element before *)
        rewrite bool_decide_eq_true_2 by done.
        destruct (Hkp k Hs) as [l Hlk].
        pose proof (layer_at_deref _ _ _ (proj1 (proj2 Hwf)) Hlk) as HLk.
        rewrite HLk. cbn [default from_option id].
        assert (Hkd : k ∈ done).
        { apply last_Some in Hs as (l' & ->). apply elem_of_snoc. by right. }
        destruct (Hruns k _ HLk Hkd) as (_ & Hrun).
        rewrite decide_True in Hrun by done. rewrite Hi in Hrun.
        destruct Hrun as (Hs0 & _).
        pose proof (Hmarks k _ HLk Hkd) as HW.
        rewrite bool_decide_eq_true_2 in HW by done.
        unfold walked_layer in HW. cbv zeta in HW. fold i in HW.
        destruct HW as (Wb & Wi & Wd & We & Wdr).
        set (L := deref (w_painter w) l) in *.
        destruct (visit_layer_eqs i e true L) as (Eb & Ei & Ee & Es & Ed & Edr).
        rewrite Eb, Ei, Ee, Es, Ed, Edr.
        assert (HR : range_of (__startIndex L) (i + 1) (seen ++ [e])
                     = range_of (__startIndex L) i seen ++ [e]).
        { subst i. apply range_of_snoc_open. lia. }
        rewrite HR. set (R := range_of (__startIndex L) i seen) in *.
        assert (HlenR : Z.of_nat (length R) = i - __startIndex L).
        { subst R i. apply length_range_of; lia. }
        assert (HneR : R ≠ []).
        { intros E. rewrite E in HlenR. cbn in HlenR. lia. }
        rewrite !existsb_app. cbn [existsb].
        split; [done|]. split; [rewrite Wi; by rewrite orb_false_r, orb_assoc|].
        split.
        { rewrite Wd. cbn [negb andb]. by rewrite !orb_false_r, orb_assoc. }
        split; [by intros _; apply We|].
        rewrite walked_drawIndex_snoc by (done || lia).
        rewrite <- Wdr, <- Wi. replace (__startIndex L + Z.of_nat (length R)) with i by lia.
        done.
      * (* the element enters its layer *)
        rewrite bool_decide_eq_false_2 by done.
        assert (Hkd : k ∉ done) by (by apply grouped_fresh).
        assert (HV : default (created_layer (w_painter w) k
                                (_needsManuallyCompositing (w_painter w)))
                       (layer_at (w_painter w) k)
                     = found_layer (w_painter w0) k).
        { unfold found_layer. rewrite (Hunt k Hkd). f_equal.
          unfold created_layer. rewrite Hcfg. by injection Hm as _ ->. }
        rewrite HV. set (V := found_layer (w_painter w0) k) in *.
        destruct (visit_layer_eqs i e false V) as (Eb & Ei & Ee & Es & Ed & Edr).
        rewrite Eb, Ei, Ee, Es, Ed, Edr.
        assert (HR : range_of i (i + 1) (seen ++ [e]) = [e]).
        { subst i. apply range_of_snoc_new. }
        rewrite HR. cbn [existsb negb andb].
        split; [done|]. split; [by rewrite orb_false_r|].
        split; [by rewrite !orb_false_r|]. split; [done|].
        unfold walked_drawIndex. cbn [list_find].
        destruct (incremental V || el_incremental e); [|done].
        destruct (el_dirty e) eqn:Hde.
        -- rewrite decide_True by done. cbn. lia.
        -- rewrite decide_False by congruence. done.
    + rewrite bool_decide_eq_false_2 by congruence.
      assert (Hkd : k' ∈ done).
      { apply elem_of_snoc in Hin' as [?|?]; done. }
      destruct (decide (last done = Some k')) as [Hlast|Hlast].
      * (* the layer of the element before is closed *)
        rewrite (Hold k' Hlast Hne) in HL'.
        destruct (layer_at (w_painter w) k') as [L0|] eqn:HL0; [|done].
        injection HL' as <-.
        pose proof (Hmarks k' L0 HL0 Hkd) as HW.
        rewrite bool_decide_eq_true_2 in HW by done.
        unfold walked_layer in HW. cbv zeta in HW. fold i in HW.
        destruct HW as (Wb & Wi & Wd & We & Wdr).
        destruct (Hruns k' L0 HL0 Hkd) as (_ & (Hs0 & _)).
        destruct (close_layer_fields i L0) as (-> & _ & -> & -> & -> & ->).
        rewrite close_layer_eqs.
        assert (HR : range_of (__startIndex L0) i (seen ++ [e])
                     = range_of (__startIndex L0) i seen).
        { subst i. apply range_of_snoc_closed; lia. }
        rewrite HR. cbn [negb andb].
        split; [done|]. split; [done|]. split; [|split; [done|done]].
        rewrite Wd, (We eq_refl). cbn [negb andb].
        destruct (__dirty (found_layer (w_painter w0) k')),
          (negb (__startIndex (found_layer (w_painter w0) k') =? __startIndex L0)),
          (existsb el_dirty (range_of (__startIndex L0) i seen)),
          (negb (__endIndex (found_layer (w_painter w0) k') =? i)); done.
      * (* any other layer is left alone *)
        rewrite (Hoth k' Hne Hlast) in HL'.
        pose proof (Hmarks k' L' HL' Hkd) as HW.
        rewrite bool_decide_eq_false_2 in HW by done.
        unfold walked_layer in HW. cbv zeta in HW.
        destruct (Hruns k' L' HL' Hkd) as (_ & Hrun).
        rewrite decide_False in Hrun by done.
        destruct Hrun as (Hs0 & He0 & _). rewrite Hi in He0.
        assert (HR : range_of (__startIndex L') (__endIndex L') (seen ++ [e])
                     = range_of (__startIndex L') (__endIndex L') seen).
        { apply range_of_snoc_closed; [lia|]. by subst i. }
        rewrite HR. exact HW.
Qed.

(** Classification of a list whose layer keys are grouped, on a well-formed
    painter: what the pass leaves on the registered engine-built layer of
    every key that occurs, in terms of the layer before the pass and of the
    elements in its range. *)
Lemma updateLayerStatus_marks els p :
  wf p → grouped (layer_keys els p) →
  ∃ p', _updateLayerStatus els p = Some p'
        ∧ ∀ k L, layer_at p' k = Some L → k ∈ layer_keys els p →
                 __builtin__ L = true →
            let run := range_of (__startIndex L) (__endIndex L) els in
            let inc0 := match layer_at p k with
                        | Some L0 => incremental L0
                        | None => false
                        end in
            0 ≤ __startIndex L < __endIndex L
            ∧ __endIndex L ≤ Z.of_nat (length els)
            ∧ incremental L = inc0 || existsb el_incremental run
            ∧ __dirty L
              = match layer_at p k with
                | Some L0 => negb (__startIndex L0 =? __startIndex L)
                             || negb (__endIndex L0 =? __endIndex L)
                             || existsb el_dirty run
                | None => true
                end
            ∧ __drawIndex L
              = if __dirty L && (walked_drawIndex inc0 (__startIndex L) run <? 0)
                then __startIndex L
                else walked_drawIndex inc0 (__startIndex L) run.
Proof.
  intros Hwf Hg.
  destruct (updateLayerStatus_spec els p Hwf)
    as (p_r & p' & Hr & Hwr & Hlr & Hmr & _ & Hvr & Hp' & Hw' & Hl' & _ & _ & Hv').
  exists p'. split; [done|].
  destruct (detect_compositing_frame els p_r) as (Hwd & Hld & _ & _ & _ & Hvd).
  set (w0 := walk_start els p_r) in *.
  assert (Hl0 : linked None w0).
  { split; [by apply Hwd|]. split; [done|]. by intros k0 [=]. }
  assert (Hkeys : walk_keys els w0 = layer_keys els p).
  { unfold walk_keys, layer_keys, w0, walk_start. cbn.
    apply list_fmap_ext. intros _ x _. apply resolve_mode.
    by apply mode_detect_compositing. }
  pose proof (walk_invariant_els (walk_marks w0) w0 Hl0 eq_refl
                (walk_marks_step w0)) as HI.
  specialize (HI ltac:(unfold walk_marks; cbv zeta; split; [done|]; split; [done|];
                       split; [intros k L _ Hk; by apply elem_of_nil in Hk|];
                       intros _ k L _ Hk; by apply elem_of_nil in Hk) els).
  destruct HI as (_ & _ & Hruns & Hmarks).
  rewrite Hkeys in Hruns, Hmarks. specialize (Hmarks Hg).
  set (w := (walk els 0 w0).1) in *.
  intros k L HL Hk Hb. rewrite Hv' in HL.
  destruct (layer_at (w_painter w) k) as [Lw|] eqn:HLw; [|done].
  cbn in HL. injection HL as <-.
  destruct (Hruns k Lw HLw Hk) as (Hu & Hrun).
  pose proof (Hmarks k Lw HLw Hk) as HW.
  rewrite length_layer_keys in Hrun.
  set (V := found_layer (w_painter w0) k) in *.
  set (n := Z.of_nat (length els)) in *.
  set (L1 := if decide (last (layer_keys els p) = Some k)
             then close_layer n Lw else Lw) in *.
  assert (H1 : __used L1 = true
               ∧ 0 ≤ __startIndex L1 < __endIndex L1 ∧ __endIndex L1 ≤ n
               ∧ walked_layer V els false L1).
  { subst L1. destruct (decide (last (layer_keys els p) = Some k)) as [Hlast|Hlast].
    - rewrite bool_decide_eq_true_2 in HW by done.
      unfold walked_layer in HW |- *. cbv zeta in HW |- *. fold n in HW.
      destruct HW as (Wb & Wi & Wd & We & Wdr).
      destruct Hrun as (Hs0 & _).
      destruct (close_layer_fields n Lw) as (-> & -> & -> & -> & -> & ->).
      rewrite close_layer_eqs.
      split; [done|]. split; [lia|]. split; [lia|].
      split; [done|]. split; [done|]. split; [|split; [done|done]].
      rewrite Wd, (We eq_refl). cbn [negb andb].
      destruct (__dirty V), (negb (__startIndex V =? __startIndex Lw)),
        (existsb el_dirty (range_of (__startIndex Lw) n els)),
        (negb (__endIndex V =? n)); done.
    - rewrite bool_decide_eq_false_2 in HW by done.
      destruct Hrun as (Hs0 & He0 & _). rewrite length_layer_keys in He0. done. }
  destruct H1 as (Hu1 & Hs1 & He1 & HW1). clearbody L1.
  unfold walked_layer in HW1. cbv zeta in HW1. cbn [negb andb] in HW1.
  destruct HW1 as (Wb & Wi & Wd & _ & Wdr).
  assert (HV : match layer_at p k with
               | Some L0 => __builtin__ L0 = __builtin__ V
                            ∧ (__builtin__ L0 = true →
                               __dirty V = false
                               ∧ __startIndex V = __startIndex L0
                               ∧ __endIndex V = __endIndex L0
                               ∧ incremental V = incremental L0)
               | None => __dirty V = true ∧ incremental V = false
               end).
  { subst V. unfold found_layer, w0, walk_start. cbn [w_painter].
    rewrite Hvd, Hvr. destruct (layer_at p k) as [L0|]; cbn.
    - unfold reset_view. destruct (__builtin__ L0) eqn:Hb0; [|done].
      split; [done|]. by intros _.
    - destruct (created_layer_flags (detect_compositing els p_r) k
                  (_needsManuallyCompositing (detect_compositing els p_r)))
        as (_ & ? & ?). done. }
  assert (Hsettle : settle_view L1
                    = if __dirty L1 && (__drawIndex L1 <? 0)
                      then set_drawIndex (__startIndex L1) L1 else L1).
  { unfold settle_view. unfold settle_view in Hb.
    destruct (__builtin__ L1) eqn:Hb1.
    - unfold settle_status. by rewrite Hu1.
    - by rewrite Hb in Hb1. }
  assert (Hb1 : __builtin__ L1 = true).
  { unfold settle_view in Hb. destruct (__builtin__ L1) eqn:E; [done|].
    by rewrite E in Hb. }
  rewrite Hsettle. cbv zeta.
  assert (Hfields : ∀ X : Layer,
            X = (if __dirty L1 && (__drawIndex L1 <? 0)
                 then set_drawIndex (__startIndex L1) L1 else L1) →
            __startIndex X = __startIndex L1 ∧ __endIndex X = __endIndex L1
            ∧ incremental X = incremental L1 ∧ __dirty X = __dirty L1
            ∧ __drawIndex X = if __dirty L1 && (__drawIndex L1 <? 0)
                              then __startIndex L1 else __drawIndex L1).
  { intros X ->. by destruct (__dirty L1 && (__drawIndex L1 <? 0)). }
  destruct (Hfields _ eq_refl) as (-> & -> & -> & -> & ->).
  split; [done|]. split; [done|].
  destruct (layer_at p k) as [L0|].
  - destruct HV as (HbV & HV). rewrite <- Wb, Hb1 in HbV.
    destruct (HV HbV) as (HdV & HsV & HeV & HiV).
    rewrite HdV, HsV, HeV, HiV in *. cbn [orb] in Wd.
    split; [done|]. split; [done|]. by rewrite Wdr.
  - destruct HV as (HdV & HiV). rewrite HdV, HiV in *. cbn [orb] in Wd.
    split; [done|]. split; [done|]. by rewrite Wdr.
Qed.

Lemma lookup_range_of {A} (s e : Z) (l : list A) (j : nat) :
  0 ≤ s → Z.of_nat j < e - s → range_of s e l !! j = l !! (Z.to_nat s + j)%nat.
Proof.
  intros Hs Hj. unfold range_of. rewrite lookup_take_lt by lia. apply lookup_drop.
Qed.

Lemma elem_of_range_of {A} (s e : Z) (l : list A) x :
  0 ≤ s →
  x ∈ range_of s e l ↔ ∃ j, s ≤ j < e ∧ l !! Z.to_nat j = Some x.
Proof.
  intros Hs. unfold range_of. rewrite elem_of_take. split.
  - intros (i & Hi & Hlt). rewrite lookup_drop in Hi.
    exists (s + Z.of_nat i). split; [lia|].
    by replace (Z.to_nat (s + Z.of_nat i)) with (Z.to_nat s + i)%nat by lia.
  - intros (j & Hj & Hx). exists (Z.to_nat (j - s)). split; [|lia].
    rewrite lookup_drop. by replace (Z.to_nat s + Z.to_nat (j - s))%nat with (Z.to_nat j) by lia.
Qed.

Lemma existsb_range_of {A} (f : A → bool) (s e : Z) (l : list A) :
  0 ≤ s →
  existsb f (range_of s e l) = true
  ↔ ∃ j x, s ≤ j < e ∧ l !! Z.to_nat j = Some x ∧ f x = true.
Proof.
  intros Hs. rewrite existsb_exists. split.
  - intros (x & Hx & Hf). apply list_elem_of_In, elem_of_range_of in Hx as (j & ? & ?);
      [|done]. by exists j, x.
  - intros (j & x & Hj & Hx & Hf). exists x. split; [|done].
    apply list_elem_of_In, elem_of_range_of; [done|]. by exists j.
Qed.

(** What classification marks dirty, when the elements of each layer are
    contiguous in the list.  After the pass a registered engine-built layer
    whose key occurs in the list is dirty exactly when it was built by this
    pass, or its range has changed (the start or the end is not what it was
    before the pass), or some element in its range is dirty.  In particular a
    second pass over an unchanged list of clean elements marks no such layer
    dirty. *)
Theorem updateLayerStatus_dirty (els : list Element) (p : Painter) :
  wf p → grouped (layer_keys els p) →
  ∃ p', _updateLayerStatus els p = Some p'
        ∧ ∀ k L, layer_at p' k = Some L → k ∈ layer_keys els p →
                 __builtin__ L = true →
            (__dirty L = true
             ↔ layer_at p k = None
               ∨ (∃ L0, layer_at p k = Some L0
                        ∧ (__startIndex L0 ≠ __startIndex L
                           ∨ __endIndex L0 ≠ __endIndex L))
               ∨ (∃ j x, __startIndex L ≤ j < __endIndex L
                         ∧ els !! Z.to_nat j = Some x ∧ el_dirty x = true)).
Proof.
  intros Hwf Hg. destruct (updateLayerStatus_marks els p Hwf Hg) as (p' & Hp' & H).
  exists p'. split; [done|]. intros k L HL Hk Hb.
  destruct (H k L HL Hk Hb) as (Hs & _ & _ & Hd & _).
  rewrite Hd. destruct (layer_at p k) as [L0|].
  - rewrite !orb_true_iff, !negb_true_iff, !Z.eqb_neq, existsb_range_of by lia.
    split.
    + intros [[?|?]|?]; [right; left; exists L0; by auto..|by right; right].
    + intros [?|[(L0' & [= <-] & [?|?])|?]]; [done|by left; left|by left; right|by right].
  - split; [by left|done].
Qed.

Lemma updateLayerStatus_dirty_witness :
  wf (CanvasPainter false)
  ∧ grouped (layer_keys three_incremental (CanvasPainter false))
  ∧ ∃ p', _updateLayerStatus three_incremental (CanvasPainter false) = Some p'
        ∧ ∀ k L, layer_at p' k = Some L →
                 k ∈ layer_keys three_incremental (CanvasPainter false) →
                 __builtin__ L = true →
            (__dirty L = true
             ↔ layer_at (CanvasPainter false) k = None
               ∨ (∃ L0, layer_at (CanvasPainter false) k = Some L0
                        ∧ (__startIndex L0 ≠ __startIndex L
                           ∨ __endIndex L0 ≠ __endIndex L))
               ∨ (∃ j x, __startIndex L ≤ j < __endIndex L
                         ∧ three_incremental !! Z.to_nat j = Some x
                         ∧ el_dirty x = true)).
Proof.
  split; [apply wf_CanvasPainter|]. split; [apply grouped_three_incremental|].
  exact (updateLayerStatus_dirty three_incremental (CanvasPainter false)
           (wf_CanvasPainter false) grouped_three_incremental).
Defined.

(** Where classification puts the draw index, when the elements of each
    layer are contiguous in the list.  Take a registered engine-built layer
    whose key occurs in the list.  It is incremental after the pass exactly
    when it was before or some element in its range is.  If it is not
    incremental when the walk enters it (it was not before the pass, and the
    first element of its range is not incremental), the draw index is the
    start of the range.  Otherwise the draw index is the index of the first
    dirty element of the range; without a dirty element it is the start if
    the layer is dirty (its range has changed) and the sentinel [-1] if it is
    not. *)
Theorem updateLayerStatus_draw_index (els : list Element) (p : Painter) :
  wf p → grouped (layer_keys els p) →
  ∃ p', _updateLayerStatus els p = Some p'
        ∧ ∀ k L, layer_at p' k = Some L → k ∈ layer_keys els p →
                 __builtin__ L = true →
            let entered_incremental :=
              (∃ L0, layer_at p k = Some L0 ∧ incremental L0 = true)
              ∨ (∃ x, els !! Z.to_nat (__startIndex L) = Some x
                      ∧ el_incremental x = true) in
            (incremental L = true
             ↔ (∃ L0, layer_at p k = Some L0 ∧ incremental L0 = true)
               ∨ (∃ j x, __startIndex L ≤ j < __endIndex L
                         ∧ els !! Z.to_nat j = Some x ∧ el_incremental x = true))
            ∧ (¬ entered_incremental → __drawIndex L = __startIndex L)
            ∧ (entered_incremental →
               ∀ j x, __startIndex L ≤ j < __endIndex L →
                      els !! Z.to_nat j = Some x → el_dirty x = true →
                      (∀ j' x', __startIndex L ≤ j' < j →
                                els !! Z.to_nat j' = Some x' → el_dirty x' = false) →
                      __drawIndex L = j)
            ∧ (entered_incremental →
               (∀ j x, __startIndex L ≤ j < __endIndex L →
                       els !! Z.to_nat j = Some x → el_dirty x = false) →
               __drawIndex L = if __dirty L then __startIndex L else -1).
Proof.
  intros Hwf Hg. destruct (updateLayerStatus_marks els p Hwf Hg) as (p' & Hp' & H).
  exists p'. split; [done|]. intros k L HL Hk Hb.
  destruct (H k L HL Hk Hb) as (Hs & He & Hi & _ & Hdr). clear H.
  set (s := __startIndex L) in *. set (e := __endIndex L) in *.
  set (run := range_of s e els) in *.
  set (inc0 := match layer_at p k with Some L0 => incremental L0 | None => false end) in *.
  assert (Hinc0 : inc0 = true ↔ ∃ L0, layer_at p k = Some L0 ∧ incremental L0 = true).
  { subst inc0. destruct (layer_at p k) as [L0|].
    - split; [by exists L0|]. by intros (? & [= <-] & ?).
    - split; [done|]. by intros (? & ? & ?). }
  assert (Hhead : match run with x :: _ => el_incremental x | [] => false end = true
                  ↔ ∃ x, els !! Z.to_nat s = Some x ∧ el_incremental x = true).
  { pose proof (lookup_range_of s e els 0 ltac:(lia) ltac:(lia)) as H0.
    rewrite Nat.add_0_r in H0. fold run in H0. rewrite <- H0.
    destruct run as [|x run']; cbn.
    - split; [done|]. by intros (? & ? & ?).
    - split; [by exists x|]. by intros (? & [= <-] & ?). }
  assert (Hentered : inc0 || match run with x :: _ => el_incremental x | [] => false end
                     = true
                     ↔ (∃ L0, layer_at p k = Some L0 ∧ incremental L0 = true)
                       ∨ (∃ x, els !! Z.to_nat s = Some x ∧ el_incremental x = true)).
  { by rewrite orb_true_iff, Hinc0, Hhead. }
  cbv zeta. split; [|split; [|split]].
  - rewrite Hi, orb_true_iff, Hinc0. unfold run. by rewrite existsb_range_of by lia.
  - intros Hn. rewrite Hdr. unfold walked_drawIndex.
    destruct (inc0 || match run with x :: _ => el_incremental x | [] => false end)
      eqn:E; [exfalso; by apply Hn, Hentered|].
    by destruct (__dirty L && (s <? 0)).
  - intros Hy j x Hj Hx Hd Hfirst. apply Hentered in Hy.
    rewrite Hdr. unfold walked_drawIndex. rewrite Hy.
    assert (Hf : list_find (λ x, el_dirty x = true) run = Some (Z.to_nat (j - s), x)).
    { apply list_find_Some. split; [|split; [done|]].
      - unfold run. rewrite lookup_range_of by lia.
        by replace (Z.to_nat s + Z.to_nat (j - s))%nat with (Z.to_nat j) by lia.
      - intros j' y Hy' Hlt. unfold run in Hy'.
        rewrite lookup_range_of in Hy' by lia.
        rewrite (Hfirst (s + Z.of_nat j') y); [done|lia|].
        by replace (Z.to_nat (s + Z.of_nat j')) with (Z.to_nat s + j')%nat by lia. }
    rewrite Hf.
    replace (s + Z.of_nat (Z.to_nat (j - s))) with j by lia.
    replace (j <? 0) with false by (symmetry; apply Z.ltb_ge; lia).
    by rewrite andb_false_r.
  - intros Hy Hclean. apply Hentered in Hy.
    rewrite Hdr. unfold walked_drawIndex. rewrite Hy.
    assert (Hf : list_find (λ x, el_dirty x = true) run = None).
    { apply list_find_None, Forall_forall. intros x Hx.
      apply elem_of_range_of in Hx as (j & Hj & Hx); [|lia].
      by rewrite (Hclean j x Hj Hx). }
    rewrite Hf. change (-1 <? 0) with true. rewrite andb_true_r.
    by destruct (__dirty L).
Qed.

Lemma updateLayerStatus_draw_index_witness :
  wf (CanvasPainter false)
  ∧ grouped (layer_keys three_incremental (CanvasPainter false))
  ∧ ∃ p', _updateLayerStatus three_incremental (CanvasPainter false) = Some p'
        ∧ ∀ k L, layer_at p' k = Some L →
                 k ∈ layer_keys three_incremental (CanvasPainter false) →
                 __builtin__ L = true →
            let entered_incremental :=
              (∃ L0, layer_at (CanvasPainter false) k = Some L0 ∧ incremental L0 = true)
              ∨ (∃ x, three_incremental !! Z.to_nat (__startIndex L) = Some x
                      ∧ el_incremental x = true) in
            (incremental L = true
             ↔ (∃ L0, layer_at (CanvasPainter false) k = Some L0
                      ∧ incremental L0 = true)
               ∨ (∃ j x, __startIndex L ≤ j < __endIndex L
                         ∧ three_incremental !! Z.to_nat j = Some x
                         ∧ el_incremental x = true))
            ∧ (¬ entered_incremental → __drawIndex L = __startIndex L)
            ∧ (entered_incremental →
               ∀ j x, __startIndex L ≤ j < __endIndex L →
                      three_incremental !! Z.to_nat j = Some x → el_dirty x = true →
                      (∀ j' x', __startIndex L ≤ j' < j →
                                three_incremental !! Z.to_nat j' = Some x' →
                                el_dirty x' = false) →
                      __drawIndex L = j)
            ∧ (entered_incremental →
               (∀ j x, __startIndex L ≤ j < __endIndex L →
                       three_incremental !! Z.to_nat j = Some x → el_dirty x = false) →
               __drawIndex L = if __dirty L then __startIndex L else -1).
Proof.
  split; [apply wf_CanvasPainter|]. split; [apply grouped_three_incremental|].
  exact (updateLayerStatus_draw_index three_incremental (CanvasPainter false)
           (wf_CanvasPainter false) grouped_three_incremental).
Defined.

(** ** A second pass over an unchanged list *)

Lemma last_run_unique keys k s e s' e' :
  last_run keys k s e → last_run keys k s' e' → s = s' ∧ e = e'.
Proof.
  intros (Hs & He & Hin & Hpre & Hpost) (Hs' & He' & Hin' & Hpre' & Hpost').
  assert (e = e') as <-.
  { destruct (Z.lt_trichotomy e e') as [Hlt|[?|Hgt]]; [|done|].
    - exfalso. apply (Hpost (e' - 1)); [lia|]. apply Hin'. lia.
    - exfalso. apply (Hpost' (e - 1)); [lia|]. apply Hin. lia. }
  split; [|done].
  destruct (Z.lt_trichotomy s s') as [Hlt|[?|Hgt]]; [|done|].
  - exfalso. apply Hpre'; [lia|]. apply Hin. lia.
  - exfalso. apply Hpre; [lia|]. apply Hin'. lia.
Qed.

(** The layer of a key that no element asks for is only swept. *)
Lemma updateLayerStatus_not_visited els p k :
  wf p → k ∉ layer_keys els p →
  ∃ p', _updateLayerStatus els p = Some p'
        ∧ layer_at p' k = settle_view <$> (reset_view <$> layer_at p k).
Proof.
  intros Hwf Hk.
  destruct (updateLayerStatus_spec els p Hwf)
    as (p_r & p' & _ & Hwr & _ & Hmr & _ & Hvr & Hp' & _ & _ & _ & _ & Hv).
  exists p'. split; [done|].
  destruct (detect_compositing_frame els p_r) as (Hwd & _ & _ & _ & _ & Hvd).
  assert (Hl0 : linked None (walk_start els p_r)).
  { split; [by apply Hwd|]. split; [done|]. by intros k0 [=]. }
  assert (Hkeys : walk_keys els (walk_start els p_r) = layer_keys els p).
  { unfold walk_keys, layer_keys, walk_start. cbn.
    apply list_fmap_ext. intros _ x _. apply resolve_mode.
    by apply mode_detect_compositing. }
  rewrite <- Hkeys in Hk.
  rewrite Hv, (walk_untouched els _ Hl0 k Hk).
  cbn [walk_start w_painter]. rewrite Hvd, Hvr.
  destruct (layer_at p k) as [L|]; [|done]. cbn. f_equal.
  rewrite decide_False; [done|].
  intros Hlast. apply Hk. rewrite Hkeys. apply last_Some in Hlast as [l' ->].
  apply elem_of_snoc. by right.
Qed.

Lemma layer_keys_stable els p p' :
  mode p' = mode (detect_compositing els p) → layer_keys els p' = layer_keys els p.
Proof.
  intros Hm. unfold layer_keys. apply list_fmap_ext. intros _ x _.
  apply resolve_mode.
  rewrite (mode_detect_compositing els p' (detect_compositing els p) Hm).
  destruct (detect_compositing_cases els p) as [E|E]; [by rewrite !E|rewrite E].
  destruct (detect_compositing_cases els (set_needsManuallyCompositing true p))
    as [E2|E2]; by rewrite E2.
Qed.

(** Classification is stable.  When the elements of each layer are
    contiguous in the list and no element is dirty, a second pass over the
    same list leaves no registered engine-built layer dirty, and the paint
    pass that follows it, unless forced, paints nothing and reports that it
    has finished. *)
Theorem updateLayerStatus_stable (now : nat → Z) (els : list Element) (p : Painter) :
  wf p → ranges_ok p → grouped (layer_keys els p) →
  (∀ x, x ∈ els → el_dirty x = false) →
  ∃ p1 p2,
    _updateLayerStatus els p = Some p1
    ∧ _updateLayerStatus els p1 = Some p2
    ∧ (∀ k L, layer_at p2 k = Some L → __builtin__ L = true → __dirty L = false)
    ∧ _doPaintList now els false p2 = Some (p2, true).
Proof.
  intros Hwf Hro Hg Hclean.
  destruct (updateLayerStatus_classified els p Hwf Hro) as (p1 & Hp1 & Hw1 & Hcl1).
  destruct (updateLayerStatus_runs els p Hwf) as (p1' & Hp1' & Hreg1 & Hrun1).
  rewrite Hp1 in Hp1'. injection Hp1' as <-.
  destruct (updateLayerStatus_spec els p Hwf)
    as (_ & p1' & _ & _ & _ & _ & _ & _ & Hp1' & _ & _ & Hm1 & _).
  rewrite Hp1 in Hp1'. injection Hp1' as <-.
  pose proof (layer_keys_stable els p p1 Hm1) as Hkeys.
  assert (Hg1 : grouped (layer_keys els p1)) by (by rewrite Hkeys).
  destruct (updateLayerStatus_marks els p1 Hw1 Hg1) as (p2 & Hp2 & Hmarks).
  destruct (updateLayerStatus_runs els p1 Hw1) as (p2' & Hp2' & _ & Hrun2).
  rewrite Hp2 in Hp2'. injection Hp2' as <-.
  destruct (updateLayerStatus_spec els p1 Hw1)
    as (_ & p2' & _ & _ & _ & _ & _ & _ & Hp2' & Hw2 & _).
  rewrite Hp2 in Hp2'. injection Hp2' as <-.
  rewrite Hkeys in Hmarks, Hrun2.
  assert (Hnd : ∀ k L, layer_at p2 k = Some L → __builtin__ L = true → __dirty L = false).
  { intros k L HL Hb.
    destruct (decide (k ∈ layer_keys els p)) as [Hk|Hk].
    - destruct (Hmarks k L HL Hk Hb) as (Hs & _ & _ & Hd & _).
      destruct (Hreg1 k Hk) as [L1 HL1]. rewrite HL1 in Hd.
      destruct (Hrun1 k L1 HL1 Hk) as (_ & Hr1).
      destruct (Hrun2 k L HL Hk) as (_ & Hr2).
      destruct (last_run_unique _ _ _ _ _ _ Hr1 Hr2) as (Es & Ee).
      rewrite Hd, Es, Ee, !Z.eqb_refl. cbn.
      apply not_true_is_false. intros Hex.
      apply existsb_range_of in Hex as (j & x & _ & Hx & Hdx); [|lia].
      rewrite (Hclean x) in Hdx; [done|]. by eapply list_elem_of_lookup_2.
    - destruct (updateLayerStatus_not_visited els p1 k Hw1) as (p2' & Hp2' & Hv).
      { by rewrite Hkeys. }
      rewrite Hp2 in Hp2'. injection Hp2' as <-.
      rewrite Hv in HL.
      destruct (layer_at p1 k) as [L1|] eqn:HL1; [|done].
      cbn in HL. injection HL as <-.
      unfold settle_view, reset_view in *.
      destruct (__builtin__ L1) eqn:Hb1.
      + cbn [__builtin__ reset_status set_dirty set_used] in Hb |- *.
        destruct (Hcl1 k L1 HL1 Hb1) as (_ & Hu & _ & _ & Hunused).
        assert (Hu1 : __used L1 = false).
        { destruct (__used L1) eqn:E; [|done]. exfalso. apply Hk. by apply Hu. }
        specialize (Hunused Hu1).
        unfold settle_status, getElementCount. cbn.
        replace (0 <? __endIndex L1 - __startIndex L1) with false
          by (symmetry; apply Z.ltb_ge; lia).
        rewrite Hb1. done.
      + cbn in Hb. rewrite Hb1 in Hb. cbn in Hb. congruence. }
  exists p1, p2. split; [done|]. split; [done|]. split; [exact Hnd|].
  unfold _doPaintList.
  destruct (collect_layers_spec false (_zlevelList p2) p2) as (ls & Hls & Hin).
  { intros k Hk. by apply Hw2. }
  rewrite Hls. cbn [mbind option_bind].
  assert (ls = []) as ->; [|done].
  destruct ls as [|l ls]; [done|]. exfalso.
  destruct (proj1 (Hin l) (list_elem_of_here _ _)) as (k & _ & Hk & Hb & _ & [Hd|?]);
    [|done].
  pose proof Hw2 as (_ & Hc2 & _).
  rewrite (Hnd k _ (layer_at_deref _ _ _ Hc2 Hk) Hb) in Hd. done.
Qed.

Lemma updateLayerStatus_stable_witness :
  wf (CanvasPainter false) ∧ ranges_ok (CanvasPainter false)
  ∧ grouped (layer_keys one_clean_incremental (CanvasPainter false))
  ∧ (∀ x, x ∈ one_clean_incremental → el_dirty x = false)
  ∧ ∃ p1 p2,
      _updateLayerStatus one_clean_incremental (CanvasPainter false) = Some p1
      ∧ _updateLayerStatus one_clean_incremental p1 = Some p2
      ∧ (∀ k L, layer_at p2 k = Some L → __builtin__ L = true → __dirty L = false)
      ∧ _doPaintList slow_clock one_clean_incremental false p2 = Some (p2, true).
Proof.
  assert (Hg : grouped (layer_keys one_clean_incremental (CanvasPainter false))).
  { intros i j l k Hij Hi Hl.
    assert (Hlen : (l < 1)%nat) by (apply lookup_lt_Some in Hl; exact Hl).
    destruct j as [|j]; [|lia]. destruct i as [|i]; [done|lia]. }
  assert (Hclean : ∀ x, x ∈ one_clean_incremental → el_dirty x = false).
  { intros x Hx. apply list_elem_of_singleton in Hx. by subst x. }
  split; [apply wf_CanvasPainter|]. split; [apply ranges_ok_CanvasPainter|].
  split; [exact Hg|]. split; [exact Hclean|].
  exact (updateLayerStatus_stable slow_clock one_clean_incremental (CanvasPainter false)
           (wf_CanvasPainter false) (ranges_ok_CanvasPainter false) Hg Hclean).
Defined.

(** ** Compositing *)

Lemma each_builtin_emit_filter (c : Layer → bool) (ev : loc → Event) zs p :
  (∀ k, k ∈ zs → is_Some (_layers p !! k)) →
  each_builtin (λ l q, if c (deref q l) then emit (ev l) q else q) zs p
  = Some (set_journal
            (journal p
             ++ (ev <$> filter (λ l, c (deref p l) = true) (builtin_layers zs p))) p).
Proof.
  revert p. induction zs as [|z zs IH]; intros p Hreg.
  { cbn. rewrite app_nil_r. by destruct p. }
  destruct (Hreg z (list_elem_of_here _ _)) as [l Hl].
  cbn [each_builtin]. rewrite Hl.
  unfold builtin_layers. cbn [omap list_omap]. rewrite Hl. cbn [mbind option_bind].
  fold (builtin_layers zs p).
  destruct (__builtin__ (deref p l)) eqn:Hb.
  - destruct (c (deref p l)) eqn:Hc.
    + rewrite filter_cons_True by done.
      rewrite IH by (intros k Hk; cbn; apply Hreg; by apply list_elem_of_further).
      cbn. by rewrite <- (assoc_L (++)).
    + rewrite filter_cons_False by congruence.
      by rewrite IH by (intros k Hk; apply Hreg; by apply list_elem_of_further).
  - by rewrite IH by (intros k Hk; apply Hreg; by apply list_elem_of_further).
Qed.

(** [_compositeManually] on a well-formed painter: the layer of
    [CANVAS_ZLEVEL] is found, or built and registered when it is missing; it
    is cleared; then every registered engine-built layer that is virtual is
    drawn onto it, in ascending order of z-level.  Layers that are not
    virtual, the main layer itself and a hover layer built outside
    compositing among them, are not drawn. *)
Theorem compositeManually_draws_virtual_layers (p : Painter) :
  wf p →
  ∃ p' main,
    _compositeManually p = Some p'
    ∧ _layers p' !! CANVAS_ZLEVEL = Some main
    ∧ (∀ l, _layers p !! CANVAS_ZLEVEL = Some l → main = l)
    ∧ journal p'
      = journal p
        ++ CompositeClear main
           :: (DrawImage <$> filter (λ l, virtual (deref p' l) = true)
                               (builtin_layers (_zlevelList p') p')).
Proof.
  intros Hwf. unfold _compositeManually, eachBuiltinLayer.
  assert (Hreg : _layers (getLayer CANVAS_ZLEVEL false p).1 !! CANVAS_ZLEVEL
                 = Some (getLayer CANVAS_ZLEVEL false p).2
                 ∧ ∀ l, _layers p !! CANVAS_ZLEVEL = Some l →
                        (getLayer CANVAS_ZLEVEL false p).2 = l).
  { assert (Hres : resolve p CANVAS_ZLEVEL = CANVAS_ZLEVEL).
    { unfold resolve. by destruct (_ && _). }
    destruct (_layers p !! CANVAS_ZLEVEL) as [l|] eqn:H.
    - rewrite (getLayer_found CANVAS_ZLEVEL false p l) by (by rewrite Hres).
      split; [done|]. by intros ? [= <-].
    - rewrite (getLayer_fresh CANVAS_ZLEVEL false p) by (by rewrite Hres).
      rewrite Hres. cbn. split; [apply lookup_insert_eq|done]. }
  pose proof (getLayer_wf CANVAS_ZLEVEL false p Hwf) as (Hw1 & _).
  pose proof (journal_getLayer CANVAS_ZLEVEL false p) as Hj1.
  destruct (getLayer CANVAS_ZLEVEL false p) as [p1 main]. cbn [fst snd] in *.
  destruct Hreg as (Hm & Hold).
  rewrite (each_builtin_emit_filter virtual DrawImage
             (_zlevelList (emit (CompositeClear main) p1))
             (emit (CompositeClear main) p1)).
  2:{ intros k Hk. cbn. by apply Hw1. }
  eexists _, main. split; [reflexivity|]. split; [exact Hm|]. split; [exact Hold|].
  cbn. by rewrite Hj1, <- (assoc_L (++)).
Qed.

Lemma compositeManually_draws_virtual_layers_witness :
  wf (CanvasPainter true)
  ∧ ∃ p' main,
      _compositeManually (CanvasPainter true) = Some p'
      ∧ _layers p' !! CANVAS_ZLEVEL = Some main
      ∧ (∀ l, _layers (CanvasPainter true) !! CANVAS_ZLEVEL = Some l → main = l)
      ∧ journal p'
        = journal (CanvasPainter true)
          ++ CompositeClear main
             :: (DrawImage <$> filter (λ l, virtual (deref p' l) = true)
                                 (builtin_layers (_zlevelList p') p')).
Proof.
  split; [apply wf_CanvasPainter|].
  exact (compositeManually_draws_virtual_layers (CanvasPainter true)
           (wf_CanvasPainter true)).
Defined.

(** ** What the layer loop of a forced paint draws *)






(** ** What classification logs *)

Lemma journal_walk_step_exact i e w :
  wf (w_painter w) →
  journal (w_painter (walk_step i e w))
  = journal (w_painter w)
    ++ (if host_layer (w_painter w)
             (resolve (w_painter w) (requested_zlevel e (incrementalLayerCount w)))
        then [LogError (ZLevelUnknownLayer (el_zlevel e))] else []).
Proof.
  intros Hwf. rewrite walk_step_eq. cbv zeta.
  set (p := w_painter w) in *.
  set (k := resolve p (requested_zlevel e (incrementalLayerCount w))).
  destruct (getLayer_wf (requested_zlevel e (incrementalLayerCount w))
              (_needsManuallyCompositing p) p Hwf)
    as (Hw0 & _ & Hj0 & Hl0 & _ & _ & Hv0 & _).
  fold k in Hl0, Hv0.
  destruct (getLayer _ _ p) as [p0 l]. cbn [fst snd] in *.
  pose proof Hw0 as (_ & Hc0 & _).
  assert (Hd0 : __builtin__ (deref p0 l) = negb (host_layer p k)).
  { rewrite (layer_at_deref _ _ _ Hc0 Hl0) in Hv0. injection Hv0 as ->.
    unfold host_layer. destruct (layer_at p k) as [L|]; cbn.
    - by rewrite negb_involutive.
    - by destruct (created_layer_flags p k (_needsManuallyCompositing p)) as (-> & _). }
  set (p1 := if el_incremental e then modify l (set_incremental true) p0 else p0).
  assert (H1 : journal p1 = journal p ∧ __builtin__ (deref p1 l) = negb (host_layer p k)).
  { subst p1. destruct (el_incremental e); [|done]. split; [done|].
    rewrite deref_modify_eq by (by eapply Hc0). by cbn. }
  destruct H1 as (Hj1 & Hb1). clearbody p1. rewrite Hb1, negb_involutive.
  destruct (el_dirty e), (negb (bool_decide _)); cbn;
    rewrite ?journal_updatePrevLayer; cbn;
    destruct (host_layer p k); cbn; by rewrite ?Hj1, ?app_nil_r.
Qed.

Lemma host_layer_walk_step i e w kp k' :
  linked kp w →
  host_layer (w_painter (walk_step i e w)) k' = host_layer (w_painter w) k'.
Proof.
  intros (Hwf & Hprev & Hkp).
  destruct (walk_step_view i e w kp Hwf Hprev Hkp)
    as (_ & _ & _ & _ & _ & _ & _ & Hcur & Hold & Hoth).
  set (p := w_painter w) in *.
  set (k := resolve p (requested_zlevel e (incrementalLayerCount w))) in *.
  unfold host_layer.
  destruct (decide (k' = k)) as [->|Hne].
  - rewrite Hcur, visit_layer_builtin. destruct (layer_at p k) as [L|]; cbn; [done|].
    by destruct (created_layer_flags p k (_needsManuallyCompositing p)) as (-> & _).
  - destruct (decide (kp = Some k')) as [Hk|Hk].
    + rewrite (Hold k' Hk Hne). destruct (layer_at p k') as [L|]; [|done].
      cbn [fmap option_fmap option_map]. by rewrite (proj1 (close_layer_fields i L)).
    + by rewrite (Hoth k' Hne Hk).
Qed.

Lemma walk_log els w0 :
  linked None w0 → incrementalLayerCount w0 = 0 →
  journal (w_painter (walk els 0 w0).1)
  = journal (w_painter w0) ++ unknown_layer_log (walk_keys els w0) els (w_painter w0).
Proof.
  intros Hl0 Hc0.
  apply (walk_invariant_els
           (λ seen w,
              (∀ k, host_layer (w_painter w) k = host_layer (w_painter w0) k)
              ∧ journal (w_painter w)
                = journal (w_painter w0)
                  ++ unknown_layer_log (walk_keys seen w0) seen (w_painter w0))
           w0 Hl0 Hc0); [|split; [done|by rewrite app_nil_r]].
  intros seen w e Hl Hm Hsnoc (Hh & Hj). split.
  - intros k. by rewrite (host_layer_walk_step _ e w _ k Hl).
  - rewrite (journal_walk_step_exact _ e w (proj1 Hl)), Hj, Hh, Hsnoc.
    unfold unknown_layer_log.
    rewrite zip_with_app by apply length_walk_keys.
    rewrite join_app, <- (assoc_L (++)). cbn. by rewrite app_nil_r.
Qed.

(** What classification logs.  On a well-formed painter the pass returns, and
    what it has logged is this and nothing else: for each element of the list
    whose key holds a layer that the host has registered, not one built by
    the engine, one error, in the order of the list; the message names the
    z-level of the element.  In particular nothing is logged if every
    registered layer is engine-built. *)
Theorem updateLayerStatus_log (els : list Element) (p : Painter) :
  wf p →
  ∃ p', _updateLayerStatus els p = Some p'
        ∧ journal p' = journal p ++ unknown_layer_log (layer_keys els p) els p.
Proof.
  intros Hwf.
  destruct (updateLayerStatus_spec els p Hwf)
    as (p_r & p' & Hr & Hwr & Hlr & Hmr & Hjr & Hvr & Hp' & _ & _ & _ & Hj' & _).
  exists p'. split; [done|].
  destruct (detect_compositing_frame els p_r) as (Hwd & _ & _ & Hjd & _ & Hvd).
  assert (Hl0 : linked None (walk_start els p_r)).
  { split; [by apply Hwd|]. split; [done|]. by intros k0 [=]. }
  assert (Hkeys : walk_keys els (walk_start els p_r) = layer_keys els p).
  { unfold walk_keys, layer_keys, walk_start. cbn.
    apply list_fmap_ext. intros _ x _. apply resolve_mode.
    by apply mode_detect_compositing. }
  rewrite Hj', (walk_log els _ Hl0 eq_refl), Hkeys.
  change (journal (w_painter (walk_start els p_r)))
    with (journal (detect_compositing els p_r)).
  rewrite Hjd, Hjr. f_equal. unfold unknown_layer_log. f_equal.
  apply zip_with_ext; [|done..]. intros k e.
  change (w_painter (walk_start els p_r)) with (detect_compositing els p_r).
  unfold host_layer. rewrite Hvd, Hvr.
  destruct (layer_at p k) as [L|]; cbn; [|done].
  unfold reset_view. by destruct (__builtin__ L) eqn:Hb; cbn; rewrite ?Hb.
Qed.

Lemma updateLayerStatus_log_witness :
  wf host_layer_painter
  ∧ ∃ p', _updateLayerStatus [el 5 false true; el 0 false true; el 5 true false]
            host_layer_painter = Some p'
        ∧ journal p'
          = journal host_layer_painter
            ++ unknown_layer_log
                 (layer_keys [el 5 false true; el 0 false true; el 5 true false]
                    host_layer_painter)
                 [el 5 false true; el 0 false true; el 5 true false]
                 host_layer_painter.
Proof.
  assert (Hwf : wf host_layer_painter).
  { apply (insertLayer_custom_inv 5000 new_Layer (CanvasPainter false)
             (wf_CanvasPainter false) (ranges_ok_CanvasPainter false) eq_refl). }
  split; [exact Hwf|].
  exact (updateLayerStatus_log [el 5 false true; el 0 false true; el 5 true false]
           host_layer_painter Hwf).
Defined.

(** ** Claim C7: the sentinel draw index at paint time *)

(** The layer loop over distinct layer objects of the store, each with a
    first element in the list when its range is not empty: the loop returns,
    and the journal grows by the events of each layer in turn. *)
Lemma paint_layers_journal now els (paintAll : bool) ls p0 p fin :
  NoDup ls →
  (∀ l, l ∈ ls →
        (l < length (heap p))%nat
        ∧ deref p l = deref p0 l
        ∧ (__startIndex (deref p0 l) = __endIndex (deref p0 l)
           ∨ 0 ≤ __startIndex (deref p0 l) < Z.of_nat (length els))) →
  ∃ p' fin' blocks,
    paint_layers now els paintAll ls (p, fin) = Some (p', fin')
    ∧ Forall2 (layer_painted paintAll p0) ls blocks
    ∧ journal p' = journal p ++ mjoin blocks.
Proof.
  revert p fin. induction ls as [|l ls IH]; intros p fin Hnd Hls.
  { exists p, fin, []. split; [done|]. split; [constructor|]. cbn. by rewrite app_nil_r. }
  apply NoDup_cons in Hnd as [Hnl Hnd].
  destruct (Hls l (list_elem_of_here _ _)) as (Hlt & Hd & Hse).
  destruct (paint_layer_spec now els paintAll l p fin Hlt) as (clr & k & i & Hp & Hclr & Hce & Hk).
  { rewrite Hd. destruct Hse as [Hse|Hse]; [by left|]. right.
    destruct (decide ((if paintAll then __startIndex (deref p0 l)
                       else __drawIndex (deref p0 l)) = __startIndex (deref p0 l)))
      as [He|Hne]; [right|by left].
    rewrite He. by apply at_index_is_Some. }
  cbn [paint_layers]. rewrite Hp. cbn [mbind option_bind].
  match goal with
  | |- context [paint_layers _ _ _ _ (?x, ?f)] => set (q := x); set (fq := f)
  end.
  assert (Hjq : journal q
                = journal p
                  ++ clr
                  ++ (if (if paintAll then __startIndex (deref p l)
                          else __drawIndex (deref p l)) =? -1
                      then [LogError DrawIndexSentinel] else [])
                  ++ (if __dirty (deref p l) || paintAll
                      then brushes l (__endIndex (deref p l))
                             (if (if paintAll then __startIndex (deref p l)
                                  else __drawIndex (deref p l)) =? -1
                              then __startIndex (deref p l)
                              else if paintAll then __startIndex (deref p l)
                                   else __drawIndex (deref p l)) k
                      else [])) by reflexivity.
  assert (Hlq : length (heap q) = length (heap p)).
  { subst q. cbn. by rewrite length_insert. }
  assert (Hdq : ∀ l', l' ≠ l → deref q l' = deref p l').
  { intros l' Hne.
    change (deref q l') with (deref (store l (set_drawIndex i (deref p l)) p) l').
    by rewrite deref_store_ne. }
  clearbody q fq.
  destruct (IH q fq Hnd) as (p' & fin' & blocks & Hp' & Hb & Hj).
  { intros l' Hl'. destruct (Hls l' (list_elem_of_further _ _ _ Hl')) as (? & ? & ?).
    assert (l' ≠ l) by (intros ->; done).
    split; [by rewrite Hlq|]. split; [by rewrite Hdq|done]. }
  eexists p', fin', (_ :: blocks). split; [exact Hp'|]. split.
  - constructor; [|exact Hb]. unfold layer_painted. cbv zeta. rewrite <- Hd.
    exists clr, k. split; [reflexivity|]. split; [exact Hclr|]. split; [exact Hce|].
    destruct Hk as [[Hk _]|(Hu & Hk & _)]; [by left|by right].
  - rewrite Hj, Hjq. cbn [mjoin list_join]. by rewrite <- !(assoc_L (++)).
Qed.

(** C7.  When the resolved start index of a layer is the sentinel [-1] (and
    the layer's [__startIndex] is a real index), the layer is still painted:
    after the optional clear of an empty range the journal gets the error
    message and then the [brush] calls of [k] consecutive elements from
    [__startIndex] on, where [k] is the whole range unless the timer of an
    incremental layer stops the loop.  The layer loop then goes on: with the
    layers of the list distinct objects of the store, each with a first
    element in the list when its range is not empty, the loop over the layer
    and the layers that follow returns, and after the events of the layer
    the journal holds the events of each of the following layers, in
    order. *)
Theorem sentinel_draw_index_recovered (now : nat → Z) (els : list Element)
    (paintAll : bool) (layer : loc) (rest : list loc) (p : Painter) (fin : bool) :
  let L := deref p layer in
  (if paintAll then __startIndex L else __drawIndex L) = -1 →
  __startIndex L ≠ -1 →
  NoDup (layer :: rest) →
  (∀ l, l ∈ rest →
        (l < length (heap p))%nat
        ∧ (__startIndex (deref p l) = __endIndex (deref p l)
           ∨ 0 ≤ __startIndex (deref p l) < Z.of_nat (length els))) →
  ∃ p' fin' pre (k : nat),
    paint_layer now els paintAll layer (p, fin) = Some (p', fin')
    ∧ journal p' = journal p ++ pre ++ LogError DrawIndexSentinel
                     :: (if __dirty L || paintAll
                         then brushes layer (__endIndex L) (__startIndex L) k else [])
    ∧ (pre = [] ∧ __startIndex L ≠ __endIndex L
       ∨ (∃ bg, pre = [Clear layer bg]) ∧ __startIndex L = __endIndex L)
    ∧ (Z.of_nat k = Z.max 0 (__endIndex L - __startIndex L)
       ∨ incremental L = true ∧ (0 < k)%nat)
    ∧ ∃ p'' fin'' blocks,
        paint_layers now els paintAll (layer :: rest) (p, fin) = Some (p'', fin'')
        ∧ paint_layers now els paintAll rest (p', fin') = Some (p'', fin'')
        ∧ Forall2 (layer_painted paintAll p) rest blocks
        ∧ journal p'' = journal p' ++ mjoin blocks.
Proof.
  intros L Hstart Hreal Hnd Hrest.
  assert (HpA : paintAll = false) by (destruct paintAll; [done|reflexivity]).
  subst paintAll. cbv iota in Hstart.
  assert (Hne : (-1 =? __startIndex L) = false) by (apply Z.eqb_neq; lia).
  set (p0 := (if incremental L then Date_now now p else (0, p)).2).
  set (t0 := (if incremental L then Date_now now p else (0, p)).1).
  assert (Hp0 : (if incremental L then Date_now now p else (0, p)) = (t0, p0))
    by (subst t0 p0; by destruct (incremental L)).
  assert (Hj0 : journal p0 = journal p ∧ heap p0 = heap p)
    by (subst p0; by destruct (incremental L)).
  destruct Hj0 as [Hj0 Hh0]. clearbody p0 t0.
  set (clr := Clear layer (bool_decide (Some (zlevel L) = head (_zlevelList p0)))).
  set (pre := if __startIndex L =? __endIndex L then [clr] else []).
  set (p1 := set_journal (journal p0 ++ pre) p0).
  assert (Hd1 : deref (emit (LogError DrawIndexSentinel) p1) layer = L).
  { unfold deref, emit, p1, L, deref. simpl. by rewrite Hh0. }
  destruct (paint_loop_spec now (Z.to_nat (__endIndex L - __startIndex L))
              (__startIndex L) layer false (incremental L) t0
              (emit (LogError DrawIndexSentinel) p1))
    as (k & Hk & Hst & Hend).
  rewrite Hd1 in Hst.
  assert (Hpl : paint_layer now els false layer (p, fin)
    = let '(q, j) := paint_loop now (Z.to_nat (__endIndex L - __startIndex L))
                       (__startIndex L) layer false (incremental L) t0
                       (emit (LogError DrawIndexSentinel) p1) in
      Some (modify layer (set_drawIndex j) q,
            if __drawIndex (deref (modify layer (set_drawIndex j) q) layer)
               <? __endIndex (deref (modify layer (set_drawIndex j) q) layer)
            then false else fin)).
  { unfold paint_layer. fold L. cbv iota. rewrite Hstart.
    change (negb false && incremental L) with (incremental L).
    rewrite Hp0. cbv iota beta. rewrite Hne. subst p1 pre. fold clr.
    destruct (__startIndex L =? __endIndex L); cbn [mbind option_bind].
    - reflexivity.
    - unfold set_journal. rewrite app_nil_r. by destruct p0. }
  destruct (paint_loop now _ _ _ _ _ _ _) as [q j]. cbn [fst snd] in Hst, Hend.
  exists (modify layer (set_drawIndex j) q),
    (if __drawIndex (deref (modify layer (set_drawIndex j) q) layer)
        <? __endIndex (deref (modify layer (set_drawIndex j) q) layer)
     then false else fin), pre, k.
  split; [exact Hpl|]. split; [|split; [|split]].
  - rewrite Hst. unfold modify, store, emit, p1. cbn. rewrite Hj0.
    rewrite orb_false_r. by rewrite <- !(assoc_L (++)).
  - subst pre. destruct (__startIndex L =? __endIndex L) eqn:Hse.
    + right. split; [by eexists|by apply Z.eqb_eq].
    + left. split; [done|by apply Z.eqb_neq].
  - destruct Hend as [[-> _]|(Hi & Hk0 & _)]; [left; lia|by right].
  - apply NoDup_cons in Hnd as [Hnl Hnd].
    assert (Hhq : heap q = heap p).
    { rewrite Hst. cbn. unfold p1. cbn. exact Hh0. }
    destruct (paint_layers_journal now els false rest p
                (modify layer (set_drawIndex j) q)
                (if __drawIndex (deref (modify layer (set_drawIndex j) q) layer)
                    <? __endIndex (deref (modify layer (set_drawIndex j) q) layer)
                 then false else fin) Hnd)
      as (p'' & fin'' & blocks & Hp'' & Hb & Hj).
    { intros l Hl. destruct (Hrest l Hl) as (Hlt & Hse).
      assert (l ≠ layer) by (intros ->; done).
      split; [|split; [|exact Hse]].
      - unfold modify, store. cbn. by rewrite length_insert, Hhq.
      - unfold modify. rewrite deref_store_ne by done. unfold deref. by rewrite Hhq. }
    exists p'', fin'', blocks. split; [|done].
    cbn [paint_layers]. rewrite Hpl. cbn [mbind option_bind]. exact Hp''.
Qed.

Lemma sentinel_draw_index_recovered_witness :
  __drawIndex (deref two_layer_sentinel_painter 0%nat) = -1
  ∧ __startIndex (deref two_layer_sentinel_painter 0%nat) ≠ -1
  ∧ NoDup [0%nat; 1%nat]
  ∧ (∀ l, l ∈ [1%nat] →
          (l < length (heap two_layer_sentinel_painter))%nat
          ∧ (__startIndex (deref two_layer_sentinel_painter l)
             = __endIndex (deref two_layer_sentinel_painter l)
             ∨ 0 ≤ __startIndex (deref two_layer_sentinel_painter l)
               < Z.of_nat (length incremental_then_plain)))
  ∧ ∃ p' fin' pre (k : nat),
    paint_layer still_clock incremental_then_plain false 0%nat
      (two_layer_sentinel_painter, true) = Some (p', fin')
    ∧ journal p'
      = journal two_layer_sentinel_painter ++ pre ++ LogError DrawIndexSentinel
          :: (if __dirty (deref two_layer_sentinel_painter 0%nat) || false
              then brushes 0%nat (__endIndex (deref two_layer_sentinel_painter 0%nat))
                     (__startIndex (deref two_layer_sentinel_painter 0%nat)) k
              else [])
    ∧ (pre = [] ∧ __startIndex (deref two_layer_sentinel_painter 0%nat)
                  ≠ __endIndex (deref two_layer_sentinel_painter 0%nat)
       ∨ (∃ bg, pre = [Clear 0%nat bg])
         ∧ __startIndex (deref two_layer_sentinel_painter 0%nat)
           = __endIndex (deref two_layer_sentinel_painter 0%nat))
    ∧ (Z.of_nat k = Z.max 0 (__endIndex (deref two_layer_sentinel_painter 0%nat)
                             - __startIndex (deref two_layer_sentinel_painter 0%nat))
       ∨ incremental (deref two_layer_sentinel_painter 0%nat) = true ∧ (0 < k)%nat)
    ∧ ∃ p'' fin'' blocks,
        paint_layers still_clock incremental_then_plain false [0%nat; 1%nat]
          (two_layer_sentinel_painter, true) = Some (p'', fin'')
        ∧ paint_layers still_clock incremental_then_plain false [1%nat] (p', fin')
          = Some (p'', fin'')
        ∧ Forall2 (layer_painted false two_layer_sentinel_painter) [1%nat] blocks
        ∧ journal p'' = journal p' ++ mjoin blocks.
Proof.
  assert (H1 : __drawIndex (deref two_layer_sentinel_painter 0%nat) = -1)
    by (vm_compute; reflexivity).
  assert (H2 : __startIndex (deref two_layer_sentinel_painter 0%nat) ≠ -1)
    by (vm_compute; discriminate).
  assert (H3 : NoDup [0%nat; 1%nat]).
  { apply NoDup_cons. split; [|apply NoDup_singleton].
    rewrite list_elem_of_singleton. lia. }
  assert (H4 : ∀ l, l ∈ [1%nat] →
                 (l < length (heap two_layer_sentinel_painter))%nat
                 ∧ (__startIndex (deref two_layer_sentinel_painter l)
                    = __endIndex (deref two_layer_sentinel_painter l)
                    ∨ 0 ≤ __startIndex (deref two_layer_sentinel_painter l)
                      < Z.of_nat (length incremental_then_plain))).
  { intros l Hl. apply list_elem_of_singleton in Hl. subst l.
    split; [vm_compute; lia|]. right. vm_compute. split; [discriminate|reflexivity]. }
  split; [exact H1|]. split; [exact H2|]. split; [exact H3|]. split; [exact H4|].
  exact (sentinel_draw_index_recovered still_clock incremental_then_plain false
           0%nat [1%nat] two_layer_sentinel_painter true H1 H2 H3 H4).
Defined.
